(** * The prompt relay of [backend/main.ts]

    A shallow embedding of the request handler passed to [Deno.serve] and of
    the parts of the JavaScript platform it calls ([TextDecoder], [split],
    [trim], [JSON.parse], [JSON.stringify], property reads, truthiness and
    string concatenation), followed by the properties of its streaming
    aggregation loop and of its error paths.

    Conventions.  A JavaScript string is the list of its UTF-16 code units,
    a [Uint8Array] the list of its bytes; both are lists of [N].  Code that
    can throw lives in a state-and-exception monad whose state carries the
    local [fullResponse] and the trace of the effects of the run.  A body
    stream is finite: it delivers its chunks, then closes or fails. *)

From Stdlib Require Import List NArith Lia Bool String Ascii DecimalString.
Import ListNotations.
Local Open Scope N_scope.
Set Warnings "-register-all".

(** ** Strings and bytes *)

Definition jsstring := list N.
Definition bytes := list N.

(** [str] of a literal is the JavaScript string with the same ASCII
    characters. *)
Definition str (s : string) : jsstring :=
  map N_of_ascii (list_ascii_of_string s).

(** [q] is [str] with every apostrophe read as a double quote, so that JSON
    texts can be written down legibly. *)
Definition q (s : string) : jsstring :=
  map (fun c => if c =? 39 then 34 else c) (str s).

(** The line feed. *)
Definition LF : N := 10.

Fixpoint jsstring_eqb (a b : jsstring) : bool :=
  match a, b with
  | [], [] => true
  | x :: a', y :: b' => (x =? y) && jsstring_eqb a' b'
  | _, _ => false
  end.

Definition is_empty (s : jsstring) : bool :=
  match s with [] => true | _ => false end.

(** Decimal rendering of a natural number: what [ToString] gives for the
    integer Number values the handler converts (an HTTP status). *)
Definition N_to_string (n : N) : jsstring :=
  str (NilZero.string_of_uint (N.to_uint n)).

(** [s.includes(t)]. *)
Definition includes (s t : jsstring) : Prop :=
  exists pre post, s = pre ++ t ++ post.

(** ** [TextDecoder]: UTF-8 decoding with replacement

    The decoder of the Encoding standard as a state machine over bytes.  In
    the start state a byte is a whole character, the lead of a sequence, or
    an error; in a continuation state it must lie between the two bounds,
    and a byte that does not is an error after which the same byte is read
    again from the start state.  The payload bits of a byte are written as
    a subtraction of its prefix. *)

Inductive utf8_state :=
| Utf8Start
| Utf8Cont (remaining : nat) (cp lower upper : N).

Definition REPLACEMENT : N := 0xFFFD.
Definition BOM : N := 0xFEFF.

Definition utf8_start (b : N) : list N * utf8_state :=
  if b <=? 0x7F then ([b], Utf8Start)
  else if (0xC2 <=? b) && (b <=? 0xDF)
  then ([], Utf8Cont 0 (b - 0xC0) 0x80 0xBF)
  else if (0xE0 <=? b) && (b <=? 0xEF)
  then ([], Utf8Cont 1 (b - 0xE0)
              (if b =? 0xE0 then 0xA0 else 0x80)
              (if b =? 0xED then 0x9F else 0xBF))
  else if (0xF0 <=? b) && (b <=? 0xF4)
  then ([], Utf8Cont 2 (b - 0xF0)
              (if b =? 0xF0 then 0x90 else 0x80)
              (if b =? 0xF4 then 0x8F else 0xBF))
  else ([REPLACEMENT], Utf8Start).

(** One byte.  [remaining] counts the continuation bytes still expected
    after the current one; a continuation byte lies between [0x80] and
    [0xBF] and adds its low six bits to the code point. *)
Definition utf8_step (st : utf8_state) (b : N) : list N * utf8_state :=
  match st with
  | Utf8Start => utf8_start b
  | Utf8Cont remaining cp lower upper =>
      if (lower <=? b) && (b <=? upper) then
        let cp' := cp * 64 + (b - 0x80) in
        match remaining with
        | O => ([cp'], Utf8Start)
        | S r => ([], Utf8Cont r cp' 0x80 0xBF)
        end
      else
        let (out, st') := utf8_start b in (REPLACEMENT :: out, st')
  end.

(** The code points of a byte sequence; a sequence cut short by the end of
    the input is one replacement character. *)
Fixpoint utf8_run (st : utf8_state) (bs : bytes) : list N :=
  match bs with
  | [] => match st with Utf8Start => [] | Utf8Cont _ _ _ _ => [REPLACEMENT] end
  | b :: rest => let (out, st') := utf8_step st b in out ++ utf8_run st' rest
  end.

(** A code point as UTF-16 code units. *)
Definition utf16_units (cp : N) : list N :=
  if cp <? 0x10000 then [cp]
  else let c := cp - 0x10000 in
       [0xD800 + c / 1024; 0xDC00 + c mod 1024].

Definition strip_bom (cps : list N) : list N :=
  match cps with
  | c :: rest => if c =? BOM then rest else cps
  | [] => []
  end.

(** [new TextDecoder().decode(value)], with no [stream] option: every call
    starts from the start state, drops one leading byte order mark and
    flushes at the end of [value].  Nothing is carried from one call to the
    next.  The same algorithm decodes the bodies read by [req.json()] and
    [response.text()]. *)
Definition TextDecoder_decode (value : bytes) : jsstring :=
  flat_map utf16_units (strip_bom (utf8_run Utf8Start value)).

(** ** [String.prototype.split] and [String.prototype.trim] *)

(** [s.split] on the line feed: the pieces between line feeds; never an
    empty list, and one empty piece for the empty string. *)
Fixpoint split_lines (s : jsstring) : list jsstring :=
  match s with
  | [] => [[]]
  | c :: rest =>
      if c =? LF then [] :: split_lines rest
      else match split_lines rest with
           | l :: ls => (c :: l) :: ls
           | [] => [[c]]
           end
  end.

(** White space and line terminators of ECMAScript, all in the basic plane. *)
Definition is_white_space (c : N) : bool :=
  (c =? 0x09) || (c =? 0x0A) || (c =? 0x0B) || (c =? 0x0C) || (c =? 0x0D)
  || (c =? 0x20) || (c =? 0xA0) || (c =? 0x1680)
  || ((0x2000 <=? c) && (c <=? 0x200A))
  || (c =? 0x2028) || (c =? 0x2029) || (c =? 0x202F) || (c =? 0x205F)
  || (c =? 0x3000) || (c =? 0xFEFF).

Fixpoint trim_start (s : jsstring) : jsstring :=
  match s with
  | c :: rest => if is_white_space c then trim_start rest else s
  | [] => []
  end.

Definition trim (s : jsstring) : jsstring :=
  rev (trim_start (rev (trim_start s))).

(** ** JSON values

    What [JSON.parse] can return.  A number is kept as the text that denoted
    it: its floating-point value enters the handler only through the three
    conversions of [Engine] below.  An object is the list of its own
    properties in creation order, each key once. *)

Inductive json :=
| JNull
| JBool (b : bool)
| JNumber (lexeme : jsstring)
| JString (s : jsstring)
| JArray (elements : list json)
| JObject (properties : list (jsstring * json)).

(** A JavaScript value the handler can hold: [None] is [undefined]. *)
Definition value := option json.
Definition undefined : value := None.

Fixpoint lookup (key : jsstring) (props : list (jsstring * json)) : value :=
  match props with
  | [] => undefined
  | (k, v) :: rest => if jsstring_eqb k key then Some v else lookup key rest
  end.

(** [CreateDataProperty]: a key already present keeps its place and takes
    the new value; a new key goes last. *)
Fixpoint define_property (key : jsstring) (v : json)
         (props : list (jsstring * json)) : list (jsstring * json) :=
  match props with
  | [] => [(key, v)]
  | (k, w) :: rest =>
      if jsstring_eqb k key then (k, v) :: rest
      else (k, w) :: define_property key v rest
  end.

(** ** [JSON.parse]

    A recursive-descent reader of the JSON grammar of ECMA-404.  Nesting is
    bounded by a fuel argument; [parse_value_fuel] below shows that the fuel
    [JSON_parse] supplies is never exhausted, so that its [None] always
    stands for the [SyntaxError] of the platform. *)

Inductive parse_result :=
| OutOfFuel
| SyntaxError
| Parsed (v : json) (rest : jsstring).

Definition is_json_ws (c : N) : bool :=
  (c =? 0x20) || (c =? 0x09) || (c =? 0x0A) || (c =? 0x0D).

Fixpoint skip_ws (s : jsstring) : jsstring :=
  match s with
  | c :: rest => if is_json_ws c then skip_ws rest else s
  | [] => []
  end.

Definition is_digit (c : N) : bool := (48 <=? c) && (c <=? 57).

Definition hex_value (c : N) : option N :=
  if is_digit c then Some (c - 48)
  else if (97 <=? c) && (c <=? 102) then Some (c - 87)
  else if (65 <=? c) && (c <=? 70) then Some (c - 55)
  else None.

Definition hex4 (a b c d : N) : option N :=
  match hex_value a, hex_value b, hex_value c, hex_value d with
  | Some x, Some y, Some z, Some w => Some (((x * 16 + y) * 16 + z) * 16 + w)
  | _, _, _, _ => None
  end.

(** The character a single-letter escape stands for. *)
Definition simple_escape (e : N) : option N :=
  if e =? 34 then Some 34          (* quotation mark *)
  else if e =? 92 then Some 92     (* reverse solidus *)
  else if e =? 47 then Some 47     (* solidus *)
  else if e =? 98 then Some 8      (* b: backspace *)
  else if e =? 102 then Some 12    (* f: form feed *)
  else if e =? 110 then Some 10    (* n: line feed *)
  else if e =? 114 then Some 13    (* r: carriage return *)
  else if e =? 116 then Some 9     (* t: tab *)
  else None.

Definition cons_char (c : N) (r : option (jsstring * jsstring)) :=
  match r with
  | Some (s, rest) => Some (c :: s, rest)
  | None => None
  end.

(** The characters of a string literal after its opening quote, up to and
    including the closing quote. *)
Fixpoint parse_chars (s : jsstring) : option (jsstring * jsstring) :=
  match s with
  | [] => None
  | c :: r =>
      if c =? 34 then Some ([], r)
      else if c =? 92 then
        match r with
        | [] => None
        | e :: r1 =>
            if e =? 117 then
              match r1 with
              | a :: b :: c' :: d :: r2 =>
                  match hex4 a b c' d with
                  | Some u => cons_char u (parse_chars r2)
                  | None => None
                  end
              | _ => None
              end
            else
              match simple_escape e with
              | Some x => cons_char x (parse_chars r1)
              | None => None
              end
        end
      else if c <? 0x20 then None
      else cons_char c (parse_chars r)
  end.

Fixpoint span_digits (s : jsstring) : jsstring * jsstring :=
  match s with
  | c :: r =>
      if is_digit c then let (ds, rest) := span_digits r in (c :: ds, rest)
      else ([], s)
  | [] => ([], [])
  end.

(** One or more digits. *)
Definition digits1 (s : jsstring) : option (jsstring * jsstring) :=
  match span_digits s with
  | ([], _) => None
  | (ds, rest) => Some (ds, rest)
  end.

(** A number: an optional minus sign; a zero, or a non-zero digit followed
    by digits; an optional fraction, a point and one or more digits; an
    optional exponent, [e] or [E], an optional sign and one or more digits. *)
Definition parse_int (s : jsstring) : option (jsstring * jsstring) :=
  match s with
  | c :: r =>
      if c =? 48 then Some ([c], r)
      else if is_digit c then let (ds, rest) := span_digits r in Some (c :: ds, rest)
      else None
  | [] => None
  end.

Definition parse_frac (s : jsstring) : option (jsstring * jsstring) :=
  match s with
  | c :: r =>
      if c =? 46 then
        match digits1 r with
        | Some (ds, rest) => Some (c :: ds, rest)
        | None => None
        end
      else Some ([], s)
  | [] => Some ([], [])
  end.

Definition parse_exp (s : jsstring) : option (jsstring * jsstring) :=
  match s with
  | c :: r =>
      if (c =? 101) || (c =? 69) then
        match r with
        | sg :: r1 =>
            if (sg =? 43) || (sg =? 45) then
              match digits1 r1 with
              | Some (ds, rest) => Some (c :: sg :: ds, rest)
              | None => None
              end
            else
              match digits1 r with
              | Some (ds, rest) => Some (c :: ds, rest)
              | None => None
              end
        | [] => None
        end
      else Some ([], s)
  | [] => Some ([], [])
  end.

Definition parse_unsigned (s : jsstring) : option (jsstring * jsstring) :=
  match parse_int s with
  | Some (i, r1) =>
      match parse_frac r1 with
      | Some (f, r2) =>
          match parse_exp r2 with
          | Some (e, r3) => Some (i ++ f ++ e, r3)
          | None => None
          end
      | None => None
      end
  | None => None
  end.

Definition parse_number (s : jsstring) : option (jsstring * jsstring) :=
  match s with
  | c :: r =>
      if c =? 45 then
        match parse_unsigned r with
        | Some (n, rest) => Some (c :: n, rest)
        | None => None
        end
      else parse_unsigned s
  | [] => None
  end.

(** [strip_prefix p s] is what follows [p] in [s]. *)
Fixpoint strip_prefix (p s : jsstring) : option jsstring :=
  match p, s with
  | [], _ => Some s
  | x :: p', y :: s' => if x =? y then strip_prefix p' s' else None
  | _ :: _, [] => None
  end.

Definition parse_literal (s : jsstring) : parse_result :=
  match strip_prefix (str "true") s with
  | Some r => Parsed (JBool true) r
  | None =>
      match strip_prefix (str "false") s with
      | Some r => Parsed (JBool false) r
      | None =>
          match strip_prefix (str "null") s with
          | Some r => Parsed JNull r
          | None => SyntaxError
          end
      end
  end.

(** Skip white space, then read the character [c]. *)
Definition expect (c : N) (s : jsstring) : option jsstring :=
  match skip_ws s with
  | x :: rest => if x =? c then Some rest else None
  | [] => None
  end.

Fixpoint parse_value (fuel : nat) (s : jsstring) : parse_result :=
  match fuel with
  | O => OutOfFuel
  | S f =>
      match skip_ws s with
      | [] => SyntaxError
      | c :: r =>
          if c =? 123 then                               (* left brace *)
            match expect 125 r with
            | Some r' => Parsed (JObject []) r'
            | None => parse_members f r []
            end
          else if c =? 91 then                           (* left bracket *)
            match expect 93 r with
            | Some r' => Parsed (JArray []) r'
            | None => parse_elements f r []
            end
          else if c =? 34 then                           (* quotation mark *)
            match parse_chars r with
            | Some (chars, r') => Parsed (JString chars) r'
            | None => SyntaxError
            end
          else if (c =? 45) || is_digit c then
            match parse_number (c :: r) with
            | Some (n, r') => Parsed (JNumber n) r'
            | None => SyntaxError
            end
          else parse_literal (c :: r)
      end
  end

(** The elements of an array after its bracket, up to the closing one. *)
with parse_elements (fuel : nat) (s : jsstring) (acc : list json)
  : parse_result :=
  match fuel with
  | O => OutOfFuel
  | S f =>
      match parse_value f s with
      | Parsed v r =>
          match expect 44 r with                         (* comma *)
          | Some r' => parse_elements f r' (acc ++ [v])
          | None =>
              match expect 93 r with
              | Some r' => Parsed (JArray (acc ++ [v])) r'
              | None => SyntaxError
              end
          end
      | other => other
      end
  end

(** The members of an object after its brace, up to the closing one. *)
with parse_members (fuel : nat) (s : jsstring) (acc : list (jsstring * json))
  : parse_result :=
  match fuel with
  | O => OutOfFuel
  | S f =>
      match expect 34 s with
      | Some r =>
          match parse_chars r with
          | Some (key, r1) =>
              match expect 58 r1 with                    (* colon *)
              | Some r2 =>
                  match parse_value f r2 with
                  | Parsed v r3 =>
                      match expect 44 r3 with
                      | Some r4 =>
                          parse_members f r4 (define_property key v acc)
                      | None =>
                          match expect 125 r3 with
                          | Some r4 =>
                              Parsed (JObject (define_property key v acc)) r4
                          | None => SyntaxError
                          end
                      end
                  | other => other
                  end
              | None => SyntaxError
              end
          | None => SyntaxError
          end
      | None => SyntaxError
      end
  end.

Definition parse_fuel (s : jsstring) : nat := (2 * List.length s + 2)%nat.

(** [JSON.parse(text)]: [None] when the platform throws a [SyntaxError]. *)
Definition JSON_parse (text : jsstring) : option json :=
  match parse_value (parse_fuel text) text with
  | Parsed v rest => if is_empty (skip_ws rest) then Some v else None
  | _ => None
  end.

(** ** The engine

    What the handler takes from the JavaScript engine and this embedding
    leaves open: the three conversions of a Number, which depend on its
    IEEE 754 value, and the wording of the errors the platform throws.  A
    Number is passed as the text that denoted it. *)

Class Engine := {
  (** [ToBoolean]: false for zeros, true otherwise. *)
  Number_toBoolean : jsstring -> bool;
  (** false when the text denotes a value beyond the finite doubles. *)
  Number_isFinite : jsstring -> bool;
  (** [Number.prototype.toString]. *)
  Number_toString : jsstring -> jsstring;
  (** the message of the [SyntaxError] that [JSON.parse] throws on a text *)
  SyntaxError_message : jsstring -> jsstring;
  (** the message of the [TypeError] thrown on reading a property of [null] *)
  TypeError_read_null : jsstring -> jsstring;
  (** the message of the [TypeError] thrown on destructuring [null] *)
  TypeError_destructure_null : jsstring -> jsstring;
  (** the message of the [TypeError] thrown when an object has no
      primitive value *)
  TypeError_to_primitive : jsstring
}.

(** What a [throw] carries: an instance of [Error] with its message, or any
    other value. *)
Inductive thrown :=
| ErrorObject (message : jsstring)
| NonError.

Inductive result (A : Type) :=
| Ok (a : A)
| Throw (e : thrown).
Arguments Ok {A} a.
Arguments Throw {A} e.

Section Conversions.
Context {E : Engine}.

(** [ToBoolean]. *)
Definition ToBoolean (v : value) : bool :=
  match v with
  | None => false
  | Some JNull => false
  | Some (JBool b) => b
  | Some (JNumber x) => Number_toBoolean x
  | Some (JString s) => negb (is_empty s)
  | Some (JArray _) => true
  | Some (JObject _) => true
  end.

Definition has_own (key : jsstring) (props : list (jsstring * json)) : bool :=
  match lookup key props with Some _ => true | None => false end.

(** [ToString] of a parsed value, [None] when it throws a [TypeError].  An
    array is joined with commas, [null] elements as empty strings; an object
    answers through [Object.prototype.toString] unless an own property
    [toString], which is never callable, hides that method. *)
Fixpoint ToString (v : json) : option jsstring :=
  match v with
  | JNull => Some (str "null")
  | JBool true => Some (str "true")
  | JBool false => Some (str "false")
  | JNumber x => Some (Number_toString x)
  | JString s => Some s
  | JArray elements =>
      (fix join (l : list json) (first : bool) : option jsstring :=
         match l with
         | [] => Some []
         | x :: l' =>
             match (match x with JNull => Some [] | _ => ToString x end) with
             | Some s =>
                 match join l' false with
                 | Some t => Some ((if first then [] else str ",") ++ s ++ t)
                 | None => None
                 end
             | None => None
             end
         end) elements true
  | JObject props =>
      if has_own (str "toString") props then None
      else Some (str "[object Object]")
  end.

(** [s + v] for a string [s]: the right operand is made primitive, then a
    string, and appended. *)
Definition string_plus (s : jsstring) (v : value) : result jsstring :=
  match v with
  | None => Ok (s ++ str "undefined")
  | Some j =>
      match ToString j with
      | Some t => Ok (s ++ t)
      | None => Throw (ErrorObject TypeError_to_primitive)
      end
  end.

(** [v.key] for the keys the handler reads ([prompt], [response], [done]),
    none of which a prototype defines: an own property of an object,
    [undefined] on any other value, a [TypeError] on [null]. *)
Definition Get (v : json) (key : jsstring) : result value :=
  match v with
  | JNull => Throw (ErrorObject (TypeError_read_null key))
  | JObject props => Ok (lookup key props)
  | _ => Ok undefined
  end.

(** [const { key } = v]. *)
Definition destructure (v : json) (key : jsstring) : result value :=
  match v with
  | JNull => Throw (ErrorObject (TypeError_destructure_null key))
  | JObject props => Ok (lookup key props)
  | _ => Ok undefined
  end.

(** ** [JSON.stringify] *)

Definition hex_digit (n : N) : N := if n <? 10 then 48 + n else 87 + n.

(** The six characters of a lower-case unicode escape. *)
Definition unicode_escape (c : N) : jsstring :=
  [92; 117; hex_digit (N.shiftr c 12 mod 16); hex_digit (N.shiftr c 8 mod 16);
   hex_digit (N.shiftr c 4 mod 16); hex_digit (c mod 16)].

Definition is_high_surrogate (c : N) : bool := (0xD800 <=? c) && (c <=? 0xDBFF).
Definition is_low_surrogate (c : N) : bool := (0xDC00 <=? c) && (c <=? 0xDFFF).

Definition quote_unit (c : N) : jsstring :=
  if c =? 8 then [92; 98]
  else if c =? 9 then [92; 116]
  else if c =? 10 then [92; 110]
  else if c =? 12 then [92; 102]
  else if c =? 13 then [92; 114]
  else if c =? 34 then [92; 34]
  else if c =? 92 then [92; 92]
  else if (c <? 0x20) || is_high_surrogate c || is_low_surrogate c
  then unicode_escape c
  else [c].

(** The body of [QuoteJSONString]: a surrogate pair is copied, a lone
    surrogate escaped. *)
Fixpoint quote_chars (s : jsstring) : jsstring :=
  match s with
  | [] => []
  | c :: r =>
      if is_high_surrogate c then
        match r with
        | d :: r' =>
            if is_low_surrogate d then c :: d :: quote_chars r'
            else quote_unit c ++ quote_chars r
        | [] => quote_unit c
        end
      else quote_unit c ++ quote_chars r
  end.

Definition quote (s : jsstring) : jsstring := [34] ++ quote_chars s ++ [34].

Fixpoint join_comma (l : list jsstring) : jsstring :=
  match l with
  | [] => []
  | [x] => x
  | x :: rest => x ++ [44] ++ join_comma rest
  end.

Definition digits_value (s : jsstring) : N :=
  fold_left (fun acc c => acc * 10 + (c - 48)) s 0.

(** The array index a property key denotes, if any: a canonical decimal
    numeral below [2^32 - 1]. *)
Definition array_index (key : jsstring) : option N :=
  if negb (is_empty key) && forallb is_digit key then
    let n := digits_value key in
    if jsstring_eqb (N_to_string n) key && (n <=? 4294967294)
    then Some n else None
  else None.

Fixpoint insert_index {A} (n : N) (x : A) (l : list (N * A)) : list (N * A) :=
  match l with
  | [] => [(n, x)]
  | (m, y) :: rest =>
      if n <? m then (n, x) :: l else (m, y) :: insert_index n x rest
  end.

(** Property enumeration order: array indices ascending, then the other
    keys in creation order. *)
Fixpoint indexed {A} (l : list (jsstring * A)) : list (N * (jsstring * A)) :=
  match l with
  | [] => []
  | (k, x) :: rest =>
      match array_index k with
      | Some n => insert_index n (k, x) (indexed rest)
      | None => indexed rest
      end
  end.

Definition own_property_order {A} (l : list (jsstring * A))
  : list (jsstring * A) :=
  map snd (indexed l)
  ++ filter (fun kx => match array_index (fst kx) with
                       | Some _ => false | None => true end) l.

(** [JSON.stringify(v)] with no replacer and no indentation.  No parsed
    value has a callable [toJSON]. *)
Fixpoint JSON_stringify (v : json) : jsstring :=
  match v with
  | JNull => str "null"
  | JBool true => str "true"
  | JBool false => str "false"
  | JNumber x => if Number_isFinite x then Number_toString x else str "null"
  | JString s => quote s
  | JArray elements => [91] ++ join_comma (map JSON_stringify elements) ++ [93]
  | JObject props =>
      let members := map (fun kv => (fst kv, JSON_stringify (snd kv))) props in
      [123] ++ join_comma (map (fun kt => quote (fst kt) ++ [58] ++ snd kt)
                               (own_property_order members))
            ++ [125]
  end.

End Conversions.

(** ** Requests, responses and the upstream service *)

Definition header_list := list (jsstring * jsstring).

(** The inbound [Request]: the handler reads [method] and, through
    [req.json()], the body. *)
Record Request := {
  method : jsstring;
  url : jsstring;
  req_headers : header_list;
  req_body : bytes
}.

(** The outbound [Response]; a [null] body is [None]. *)
Record Response := {
  res_status : N;
  res_headers : header_list;
  res_body : option jsstring
}.

(** The second argument of [fetch]. *)
Record RequestInit := {
  init_method : jsstring;
  init_headers : header_list;
  init_body : jsstring
}.

(** How a body stream ends: the transport closes it, or a read rejects. *)
Inductive stream_end :=
| Closed
| Errored (e : thrown).

(** A finite [ReadableStream] of byte chunks: what the successive
    [reader.read()] calls deliver. *)
Record ReadableStream := {
  chunks : list bytes;
  ending : stream_end
}.

(** The upstream [Response] that [fetch] resolves to; [body] is [None] for a
    [null] body. *)
Record UpstreamResponse := {
  status : N;
  statusText : jsstring;
  headers_in : header_list;
  body : option ReadableStream
}.

Inductive FetchOutcome :=
| Resolved (response : UpstreamResponse)
| Rejected (e : thrown).

(** The behaviour of the upstream service: the outcome of a [fetch]. *)
Definition Upstream := jsstring -> RequestInit -> FetchOutcome.

(** [response.ok]. *)
Definition ok (response : UpstreamResponse) : bool :=
  (200 <=? status response) && (status response <=? 299).

(** [response.text()]: the whole body decoded, or the error of the read that
    rejected. *)
Definition text (response : UpstreamResponse) : result jsstring :=
  match body response with
  | None => Ok []
  | Some stream =>
      match ending stream with
      | Closed => Ok (TextDecoder_decode (List.concat (chunks stream)))
      | Errored e => Throw e
      end
  end.

(** ** Effects

    The effects of one run, in order: the request body is read, the upstream
    is called, an error is logged.  The handler runs in a monad whose state
    holds the local [fullResponse] and this trace; a [throw] keeps the state
    reached so far. *)

Inductive event :=
| ReqJson
| Fetch (url : jsstring) (init : RequestInit)
| ConsoleError (label : jsstring) (e : thrown).

Record state := {
  fullResponse : jsstring;
  trace : list event
}.

Definition initial : state := {| fullResponse := []; trace := [] |}.

Definition M (A : Type) := state -> result A * state.

Definition ret {A} (a : A) : M A := fun st => (Ok a, st).

Definition bind {A B} (m : M A) (k : A -> M B) : M B :=
  fun st =>
    match m st with
    | (Ok a, st') => k a st'
    | (Throw e, st') => (Throw e, st')
    end.

Definition throw {A} (e : thrown) : M A := fun st => (Throw e, st).

Definition try_catch {A} (m : M A) (handle : thrown -> M A) : M A :=
  fun st =>
    match m st with
    | (Ok a, st') => (Ok a, st')
    | (Throw e, st') => handle e st'
    end.

Definition lift {A} (r : result A) : M A := fun st => (r, st).

Definition emit (ev : event) : M unit :=
  fun st => (Ok tt, {| fullResponse := fullResponse st;
                       trace := trace st ++ [ev] |}).

Definition get_fullResponse : M jsstring :=
  fun st => (Ok (fullResponse st), st).

Definition set_fullResponse (s : jsstring) : M unit :=
  fun st => (Ok tt, {| fullResponse := s; trace := trace st |}).

Declare Scope js_scope.
Delimit Scope js_scope with js.
Notation "x <- m ;; k" := (bind m (fun x => k))
  (at level 61, m at next level, right associativity) : js_scope.
Notation "m ;; k" := (bind m (fun _ => k))
  (at level 61, right associativity) : js_scope.
Local Open Scope js_scope.

(** [for (const x of l) body]. *)
Fixpoint for_of {A} (l : list A) (body : A -> M unit) : M unit :=
  match l with
  | [] => ret tt
  | x :: rest => body x ;; for_of rest body
  end.

Definition console_error (label : jsstring) (e : thrown) : M unit :=
  emit (ConsoleError label e).

(** ** The handler *)

Record CorsOptions := {
  origin : jsstring;
  optionsSuccessStatus : N
}.

Definition corsOptions : CorsOptions := {|
  origin := str "http://localhost:3000";
  optionsSuccessStatus := 200
|}.

Definition headers : header_list :=
  [ (str "Access-Control-Allow-Origin", origin corsOptions);
    (str "Content-Type", str "application/json") ].

Definition ollamaUrl : jsstring := str "http://localhost:11434/api/generate".

Section Handler.
Context {E : Engine}.
Variable fetch : Upstream.

(** [await req.json()]. *)
Definition req_json (req : Request) : M json :=
  emit ReqJson ;;
  let body_text := TextDecoder_decode (req_body req) in
  match JSON_parse body_text with
  | Some v => ret v
  | None => throw (ErrorObject (SyntaxError_message body_text))
  end.

(** [JSON.parse(line)]. *)
Definition JSON_parse_or_throw (line : jsstring) : M json :=
  match JSON_parse line with
  | Some v => ret v
  | None => throw (ErrorObject (SyntaxError_message line))
  end.

(** [await fetch(url, init)]. *)
Definition call_fetch (url : jsstring) (init : RequestInit)
  : M UpstreamResponse :=
  emit (Fetch url init) ;;
  match fetch url init with
  | Resolved response => ret response
  | Rejected e => throw e
  end.

(** The object of lines 105 to 108, with the model name [neural-chat] and
    the prompt; [JSON.stringify] leaves out a property whose value is
    [undefined]. *)
Definition ollamaRequestBody (prompt : value) : json :=
  JObject ((str "model", JString (str "neural-chat"))
           :: match prompt with
              | Some p => [(str "prompt", p)]
              | None => []
              end).

(** The options of the upstream call, lines 113 to 119. *)
Definition fetch_init (prompt : value) : RequestInit :=
  {| init_method := str "POST";
     init_headers := [(str "Content-Type", str "application/json")];
     init_body := JSON_stringify (ollamaRequestBody prompt) |}.

(** [fullResponse += v]. *)
Definition append_fullResponse (v : value) : M unit :=
  s <- get_fullResponse ;;
  s' <- lift (string_plus s v) ;;
  set_fullResponse s'.

(** The body of [for (const line of lines)], lines 153 to 170. *)
Definition process_line (line : jsstring) : M unit :=
  if negb (jsstring_eqb (trim line) (str "")) then
    try_catch
      (jsonResponse <- JSON_parse_or_throw line ;;
       response <- lift (Get jsonResponse (str "response")) ;;
       (if ToBoolean response then append_fullResponse response else ret tt) ;;
       done <- lift (Get jsonResponse (str "done")) ;;
       (if ToBoolean done then ret tt else ret tt))
      (fun parseError => console_error (str "Error parsing JSON:") parseError)
  else ret tt.

(** The [while (true)] loop of lines 143 to 171 over the reads the stream
    still has to deliver: each chunk is decoded and split on its own. *)
Fixpoint read_loop (pending : list bytes) (close : stream_end) : M unit :=
  match pending with
  | [] =>
      match close with
      | Closed => ret tt                       (* done: break *)
      | Errored e => throw e
      end
  | value :: later =>
      let chunk := TextDecoder_decode value in
      let lines := split_lines chunk in
      for_of lines process_line ;;
      read_loop later close
  end.

(** [JSON.stringify({ error: message })] and
    [JSON.stringify({ response: fullResponse })]. *)
Definition error_body (message : jsstring) : option jsstring :=
  Some (JSON_stringify (JObject [(str "error", JString message)])).

Definition response_body (fullResponse : jsstring) : option jsstring :=
  Some (JSON_stringify (JObject [(str "response", JString fullResponse)])).

(** The function passed to [Deno.serve], lines 55 to 194. *)
Definition handler (req : Request) : M Response :=
  if jsstring_eqb (method req) (str "OPTIONS") then
    ret {| res_status := 204;
           res_headers :=
             [ (str "Access-Control-Allow-Origin", origin corsOptions);
               (str "Access-Control-Allow-Methods", str "POST, OPTIONS");
               (str "Access-Control-Allow-Headers", str "Content-Type") ];
           res_body := None |}
  else if negb (jsstring_eqb (method req) (str "POST")) then
    ret {| res_status := 405;
           res_headers := headers;
           res_body := error_body (str "Method Not Allowed") |}
  else
    try_catch
      (requestBody <- req_json req ;;
       prompt <- lift (destructure requestBody (str "prompt")) ;;
       (if negb (ToBoolean prompt)
        then throw (ErrorObject (str "Prompt is required"))
        else ret tt) ;;
       response <- call_fetch ollamaUrl (fetch_init prompt) ;;
       (if negb (ok response) then
          errorText <- lift (text response) ;;
          throw (ErrorObject (str "Ollama API error: "
                              ++ N_to_string (status response)
                              ++ str ", " ++ errorText))
        else ret tt) ;;
       let reader := body response in
       set_fullResponse (str "") ;;
       match reader with
       | None => throw (ErrorObject (str "Unable to read response body"))
       | Some reader =>
           read_loop (chunks reader) (ending reader) ;;
           fullResponse <- get_fullResponse ;;
           ret {| res_status := 200;
                  res_headers := headers;
                  res_body := response_body fullResponse |}
       end)
      (fun error =>
         console_error (str "Error:") error ;;
         ret {| res_status := 500;
                res_headers := headers;
                res_body :=
                  error_body (match error with
                              | ErrorObject message => message
                              | NonError => str "An unknown error occurred"
                              end) |}).

End Handler.

(** ** What the loop reads

    The lines the loop iterates over, the records it decodes from them and
    the text each line adds, as functions of the chunks. *)

(** Lines 148 to 150 for one chunk. *)
Definition lines_of (value : bytes) : list jsstring :=
  split_lines (TextDecoder_decode value).

(** The lines of all the chunks, in the order the loop visits them. *)
Definition all_lines (chunks : list bytes) : list jsstring :=
  flat_map lines_of chunks.

(** The test of line 154. *)
Definition nonblank (line : jsstring) : bool :=
  negb (jsstring_eqb (trim line) (str "")).

(** The record [JSON.parse] returns on a line, if the line is parsed at all
    and parses. *)
Definition decoded_record (line : jsstring) : option json :=
  if nonblank line then JSON_parse line else None.

Definition decoded_records (chunks : list bytes) : list json :=
  flat_map (fun line => match decoded_record line with
                        | Some v => [v]
                        | None => []
                        end)
           (all_lines chunks).

Section Fragments.
Context {E : Engine}.

(** What lines 157 to 161 do on a decoded record: the text appended to
    [fullResponse], or the error thrown. *)
Definition record_fragment (v : json) : result jsstring :=
  match Get v (str "response") with
  | Ok response =>
      if ToBoolean response then string_plus [] response else Ok []
  | Throw e => Throw e
  end.

(** The text a line adds to [fullResponse]. *)
Definition fragment (line : jsstring) : jsstring :=
  match decoded_record line with
  | Some v => match record_fragment v with Ok t => t | Throw _ => [] end
  | None => []
  end.

(** What a line makes the handler log. *)
Definition line_log (line : jsstring) : list event :=
  if nonblank line then
    match JSON_parse line with
    | Some v =>
        match record_fragment v with
        | Ok _ => []
        | Throw e => [ConsoleError (str "Error parsing JSON:") e]
        end
    | None => [ConsoleError (str "Error parsing JSON:")
                            (ErrorObject (SyntaxError_message line))]
    end
  else [].

(** The text accumulated over a stream. *)
Definition aggregate (chunks : list bytes) : jsstring :=
  flat_map fragment (all_lines chunks).

(** The prompt a request carries: what lines 94 and 95 bind [prompt] to. *)
Definition prompt_of (req : Request) : option value :=
  match JSON_parse (TextDecoder_decode (req_body req)) with
  | Some requestBody =>
      match destructure requestBody (str "prompt") with
      | Ok prompt => Some prompt
      | Throw _ => None
      end
  | None => None
  end.

(** What the outer [catch] answers to a request whose body it has read, and
    the state it leaves. *)
Definition caught (error : thrown) (st : state) : result Response * state :=
  (Ok {| res_status := 500;
         res_headers := headers;
         res_body :=
           error_body (match error with
                       | ErrorObject message => message
                       | NonError => str "An unknown error occurred"
                       end) |},
   {| fullResponse := fullResponse st;
      trace := trace st ++ [ReqJson; ConsoleError (str "Error:") error] |}).

End Fragments.

(** The decoder states that can be reached: a continuation byte is never
    expected below [0x80]. *)
Definition utf8_state_ok (st : utf8_state) : Prop :=
  match st with
  | Utf8Start => True
  | Utf8Cont _ _ lower _ => 0x80 <= lower
  end.

(** A chunk that opens with the UTF-8 byte order mark. *)
Definition starts_with_bom (value : bytes) : bool :=
  match value with
  | b0 :: b1 :: b2 :: _ => (b0 =? 0xEF) && (b1 =? 0xBB) && (b2 =? 0xBF)
  | _ => false
  end.

(** An engine for the closed examples below.  They contain no number, so
    that its Number conversions are never called, and its error messages
    are sample wordings. *)
Definition example_engine : Engine := {|
  Number_toBoolean := fun _ => true;
  Number_isFinite := fun _ => true;
  Number_toString := fun x => x;
  SyntaxError_message := fun _ => str "Unexpected token in JSON";
  TypeError_read_null := fun _ => str "Cannot read properties of null";
  TypeError_destructure_null := fun _ => str "Cannot destructure null";
  TypeError_to_primitive := str "Cannot convert object to primitive value"
|}.

(** ** Records, and relations between streams and between runs *)

(** The fields of interface [OllamaResponse] that the handler reads. *)
Record OllamaResponse := {
  record_response : jsstring;
  record_done : bool
}.

(** [line] is a JSON text of the record [r]: it parses to an object whose
    [response] and [done] properties are those of [r]. *)
Definition carries (line : jsstring) (r : OllamaResponse) : Prop :=
  exists props,
    JSON_parse line = Some (JObject props)
    /\ lookup (str "response") props = Some (JString (record_response r))
    /\ lookup (str "done") props = Some (JBool (record_done r)).

(** Two lines that may differ in everything but what [response] reads:
    both blank or both not, both malformed or both parsed. *)
Definition same_response_field {E : Engine} (l1 l2 : jsstring) : Prop :=
  nonblank l1 = nonblank l2
  /\ match JSON_parse l1, JSON_parse l2 with
     | Some v1, Some v2 => Get v1 (str "response") = Get v2 (str "response")
     | None, None => True
     | _, _ => False
     end.

(** Two outcomes of [fetch] with the same status and the same body, or the
    same rejection. *)
Definition same_behaviour (o1 o2 : FetchOutcome) : Prop :=
  match o1, o2 with
  | Resolved r1, Resolved r2 => status r1 = status r2 /\ body r1 = body r2
  | Rejected e1, Rejected e2 => e1 = e2
  | _, _ => False
  end.

(** ** Examples *)

Definition post (json_text : jsstring) : Request := {|
  method := str "POST";
  url := str "http://localhost:8000/api/generate";
  req_headers := [(str "Content-Type", str "application/json")];
  req_body := json_text
|}.

(** An upstream that answers every call with the given status and chunks
    and then closes the stream. *)
Definition answering (code : N) (stream_chunks : list bytes) : Upstream :=
  fun _ _ =>
    Resolved {| status := code;
                statusText := [];
                headers_in := [];
                body := Some {| chunks := stream_chunks; ending := Closed |} |}.

(** ** Runs of the handler

    One run on a fresh state: what it answers and what it does.  Every run
    has one of five shapes. *)

Section Runs.
Context {E : Engine}.

(** The answer of one run, and its effects in order. *)
Definition answer (fetch : Upstream) (req : Request) : result Response :=
  fst (handler fetch req initial).

Definition effects (fetch : Upstream) (req : Request) : list event :=
  trace (snd (handler fetch req initial)).

(** The message the outer [catch] puts in the body, lines 184 to 186. *)
Definition message_of (error : thrown) : jsstring :=
  match error with
  | ErrorObject message => message
  | NonError => str "An unknown error occurred"
  end.

Definition preflight_response : Response :=
  {| res_status := 204;
     res_headers :=
       [ (str "Access-Control-Allow-Origin", origin corsOptions);
         (str "Access-Control-Allow-Methods", str "POST, OPTIONS");
         (str "Access-Control-Allow-Headers", str "Content-Type") ];
     res_body := None |}.

Definition method_response : Response :=
  {| res_status := 405;
     res_headers := headers;
     res_body := error_body (str "Method Not Allowed") |}.

Definition failure_response (error : thrown) : Response :=
  {| res_status := 500;
     res_headers := headers;
     res_body := error_body (message_of error) |}.

Definition success_response (fullResponse : jsstring) : Response :=
  {| res_status := 200;
     res_headers := headers;
     res_body := response_body fullResponse |}.

(** An entry of the inner [catch], line 167. *)
Definition is_line_log (ev : event) : Prop :=
  exists e, ev = ConsoleError (str "Error parsing JSON:") e.

Inductive run_shape (req : Request) : Response -> list event -> Prop :=
| run_preflight :
    method req = str "OPTIONS" ->
    run_shape req preflight_response []
| run_method :
    method req <> str "POST" ->
    method req <> str "OPTIONS" ->
    run_shape req method_response []
| run_refused (error : thrown) :
    method req = str "POST" ->
    (forall prompt, prompt_of req = Some prompt -> ToBoolean prompt = false) ->
    run_shape req (failure_response error)
              [ReqJson; ConsoleError (str "Error:") error]
| run_failed (prompt : value) (logs : list event) (error : thrown) :
    method req = str "POST" ->
    prompt_of req = Some prompt ->
    ToBoolean prompt = true ->
    Forall is_line_log logs ->
    run_shape req (failure_response error)
              ([ReqJson; Fetch ollamaUrl (fetch_init prompt)]
               ++ logs ++ [ConsoleError (str "Error:") error])
| run_succeeded (prompt : value) (logs : list event) (text : jsstring) :
    method req = str "POST" ->
    prompt_of req = Some prompt ->
    ToBoolean prompt = true ->
    Forall is_line_log logs ->
    run_shape req (success_response text)
              ([ReqJson; Fetch ollamaUrl (fetch_init prompt)] ++ logs).

End Runs.

Definition is_fetch (ev : event) : bool :=
  match ev with Fetch _ _ => true | _ => false end.

Definition is_error_log (ev : event) : bool :=
  match ev with
  | ConsoleError label _ => jsstring_eqb label (str "Error:")
  | _ => false
  end.

(** ** The prompt form of [PromptComponent/index.tsx]

    The four pieces of state of the component and its submit handler.  The
    browser's [fetch] is an [Upstream] like the server's. *)

Module PromptComponent.

(** The state hooks of lines 27 to 30.  [response] is typed as a string in
    the source and holds whatever [data.response] was. *)
Record State := {
  prompt : jsstring;
  response : value;
  isLoading : bool;
  error : option jsstring
}.

(** The state of a freshly mounted component. *)
Definition mounted : State :=
  {| prompt := str ""; response := Some (JString (str ""));
     isLoading := false; error := None |}.

Definition setPrompt (p : jsstring) (s : State) : State :=
  {| prompt := p; response := response s;
     isLoading := isLoading s; error := error s |}.

Definition setResponse (r : value) (s : State) : State :=
  {| prompt := prompt s; response := r;
     isLoading := isLoading s; error := error s |}.

Definition setIsLoading (b : bool) (s : State) : State :=
  {| prompt := prompt s; response := response s;
     isLoading := b; error := error s |}.

Definition setError (e : option jsstring) (s : State) : State :=
  {| prompt := prompt s; response := response s;
     isLoading := isLoading s; error := e |}.

(** What the handler does besides setting state. *)
Inductive effect :=
| PreventDefault
| FetchCall (url : jsstring) (init : RequestInit)
| LogError (label : jsstring) (e : thrown).

Definition backendUrl : jsstring := str "http://localhost:8000/api/generate".

Section Component.
Context {E : Engine}.
Variable fetch : Upstream.

(** The options of the call of lines 43 to 49. *)
Definition request_init (p : jsstring) : RequestInit :=
  {| init_method := str "POST";
     init_headers := [(str "Content-Type", str "application/json")];
     init_body := JSON_stringify (JObject [(str "prompt", JString p)]) |}.

(** [await res.json()]. *)
Definition res_json (res : UpstreamResponse) : result json :=
  match text res with
  | Ok body_text =>
      match JSON_parse body_text with
      | Some data => Ok data
      | None => Throw (ErrorObject (SyntaxError_message body_text))
      end
  | Throw e => Throw e
  end.

(** The [try] block of lines 39 to 59: the value it passes to
    [setResponse], or what it throws. *)
Definition attempt (p : jsstring) : result value :=
  match fetch backendUrl (request_init p) with
  | Rejected e => Throw e
  | Resolved res =>
      if negb (ok res) then
        match text res with
        | Ok errorText =>
            Throw (ErrorObject (str "HTTP error! status: "
                                ++ N_to_string (status res)
                                ++ str ", message: " ++ errorText))
        | Throw e => Throw e
        end
      else
        match res_json res with
        | Ok data => Get data (str "response")
        | Throw e => Throw e
        end
  end.

(** The state rendered while the request is in flight, lines 37 and 38. *)
Definition pending (s : State) : State :=
  setError None (setIsLoading true s).

(** [handleSubmit], lines 35 to 68: the state when the handler has
    finished, and its effects, for a submission during which no other
    event of the form is handled. *)
Definition handleSubmit (s : State) : State * list effect :=
  let s1 := pending s in
  match attempt (prompt s) with
  | Ok r =>
      (setIsLoading false (setResponse r s1),
       [PreventDefault; FetchCall backendUrl (request_init (prompt s))])
  | Throw e =>
      (setIsLoading false
         (setResponse (Some (JString (str "")))
            (setError (Some (match e with
                             | ErrorObject message => message
                             | NonError => str "An unknown error occurred."
                             end))
                      s1)),
       [PreventDefault; FetchCall backendUrl (request_init (prompt s));
        LogError (str "Error:") e])
  end.

(** [handlePromptChange], lines 72 to 74. *)
Definition handlePromptChange (target_value : jsstring) (s : State) : State :=
  setPrompt target_value s.

(** Whether the render of lines 101 to 112 shows the error box and the
    response box. *)
Definition shows_error (s : State) : bool :=
  match error s with
  | Some message => negb (is_empty message)
  | None => false
  end.

Definition shows_response (s : State) : bool := ToBoolean (response s).

End Component.
End PromptComponent.

(** ** Strings on the wire

    A string sent as the body of a request or of a response travels as its
    UTF-8 encoding: the code points of the string, a lone surrogate read as
    the replacement character, each written in one to four bytes. *)

Fixpoint code_points (s : jsstring) : list N :=
  match s with
  | [] => []
  | c :: r =>
      if is_high_surrogate c then
        match r with
        | d :: r' =>
            if is_low_surrogate d
            then (0x10000 + (c - 0xD800) * 1024 + (d - 0xDC00)) :: code_points r'
            else REPLACEMENT :: code_points r
        | [] => [REPLACEMENT]
        end
      else if is_low_surrogate c then REPLACEMENT :: code_points r
      else c :: code_points r
  end.

(** A Unicode scalar value: a code point that is no surrogate. *)
Definition scalar (cp : N) : Prop :=
  cp < 0xD800 \/ 0xE000 <= cp <= 0x10FFFF.

Definition utf8_bytes (cp : N) : bytes :=
  if cp <? 0x80 then [cp]
  else if cp <? 0x800 then [0xC0 + cp / 64; 0x80 + cp mod 64]
  else if cp <? 0x10000
  then [0xE0 + cp / 4096; 0x80 + (cp / 64) mod 64; 0x80 + cp mod 64]
  else [0xF0 + cp / 262144; 0x80 + (cp / 4096) mod 64;
        0x80 + (cp / 64) mod 64; 0x80 + cp mod 64].

Definition utf8_encode (s : jsstring) : bytes :=
  flat_map utf8_bytes (code_points s).

(** A string of 16-bit code units in which every surrogate is paired. *)
Fixpoint well_formed (s : jsstring) : bool :=
  match s with
  | [] => true
  | c :: r =>
      if is_high_surrogate c then
        match r with
        | d :: r' => is_low_surrogate d && well_formed r'
        | [] => false
        end
      else negb (is_low_surrogate c) && (c <? 0x10000) && well_formed r
  end.

(** A string of 16-bit code units. *)
Definition code_units (s : jsstring) : Prop := Forall (fun c => c < 0x10000) s.

(** ** The form in front of the handler

    The [fetch] of the browser when the server that answers is the handler,
    itself calling [upstream].  The body of the request and the body of the
    answer travel as UTF-8; the answer is delivered here in one chunk
    ([res.text()] and [res.json()] read the chunks as one text).  The
    browser is taken to let the call through, and every request is served
    by a run of the handler on fresh locals. *)

Section Wire.
Context {E : Engine}.

Definition wire_request (url : jsstring) (init : RequestInit) : Request :=
  {| method := init_method init;
     url := url;
     req_headers := init_headers init;
     req_body := utf8_encode (init_body init) |}.

Definition wire_response (r : Response) : UpstreamResponse :=
  {| status := res_status r;
     statusText := [];
     headers_in := res_headers r;
     body := match res_body r with
             | Some body_text =>
                 Some {| chunks := [utf8_encode body_text]; ending := Closed |}
             | None => None
             end |}.

Definition served_by_handler (upstream : Upstream) : Upstream :=
  fun url init =>
    match answer upstream (wire_request url init) with
    | Ok r => Resolved (wire_response r)
    | Throw e => Rejected e
    end.

End Wire.

(** ** More examples *)

(** An upstream that cannot be reached: the promise of [fetch] rejects. *)
Definition unreachable (e : thrown) : Upstream := fun _ _ => Rejected e.

(** An upstream that answers every call with the given status and body. *)
Definition answering_with (code : N) (b : option ReadableStream) : Upstream :=
  fun _ _ =>
    Resolved {| status := code; statusText := []; headers_in := []; body := b |}.

(** A request with the given method and body. *)
Definition request_with (m : jsstring) (json_text : jsstring) : Request :=
  {| method := m;
     url := str "http://localhost:8000/api/generate";
     req_headers := [];
     req_body := json_text |}.

(** * The model on small inputs *)

Example decode_euro_sign :
  TextDecoder_decode [0xE2; 0x82; 0xAC] = [0x20AC].
Proof. reflexivity. Qed.

Example decode_truncated_sequence :
  TextDecoder_decode [0x41; 0xE2; 0x82] = [0x41; REPLACEMENT].
Proof. reflexivity. Qed.

Example decode_drops_leading_mark :
  TextDecoder_decode [0xEF; 0xBB; 0xBF; 0x7B] = [0x7B].
Proof. reflexivity. Qed.

Example decode_astral_as_surrogates :
  TextDecoder_decode [0xF0; 0x9F; 0x98; 0x80] = [0xD83D; 0xDE00].
Proof. reflexivity. Qed.

Example split_keeps_trailing_empty_line :
  split_lines (str "a" ++ [LF] ++ str "bc" ++ [LF])
  = [str "a"; str "bc"; str ""].
Proof. reflexivity. Qed.

Example trim_both_ends : trim (str "  a b ") = str "a b".
Proof. reflexivity. Qed.

Example parse_record :
  JSON_parse (q " { 'response' : 'Hel', 'done' : false } ")
  = Some (JObject [(str "response", JString (str "Hel"));
                   (str "done", JBool false)]).
Proof. reflexivity. Qed.

Example parse_last_duplicate_wins :
  JSON_parse (q "{'a':1,'b':[true,null],'a':-2.5e3}")
  = Some (JObject [(str "a", JNumber (str "-2.5e3"));
                   (str "b", JArray [JBool true; JNull])]).
Proof. reflexivity. Qed.

Example parse_rejects_fragments :
  JSON_parse (q "{'resp") = None
  /\ JSON_parse (q "onse':'ok','done':true}") = None
  /\ JSON_parse (q "[1,]") = None
  /\ JSON_parse (q "01") = None
  /\ JSON_parse (str "") = None.
Proof. repeat split; reflexivity. Qed.

Example stringify_escapes :
  JSON_stringify (E := example_engine)
    (JObject [(str "b", JString (str "x" ++ [LF; 34]));
              (str "10", JNull); (str "2", JArray [])])
  = q "{'2':[],'10':null,'b':'x\n\''}".
Proof. reflexivity. Qed.

Example handler_options_preflight :
  handler (E := example_engine) (answering 200 [])
          {| method := str "OPTIONS"; url := []; req_headers := [];
             req_body := [] |}
          initial
  = (Ok {| res_status := 204;
           res_headers :=
             [ (str "Access-Control-Allow-Origin", str "http://localhost:3000");
               (str "Access-Control-Allow-Methods", str "POST, OPTIONS");
               (str "Access-Control-Allow-Headers", str "Content-Type") ];
           res_body := None |},
     initial).
Proof. reflexivity. Qed.

(** * Properties of the platform model *)

(** ** Strings *)

Lemma jsstring_eqb_eq (a b : jsstring) : jsstring_eqb a b = true <-> a = b.
Proof.
  revert b; induction a as [|x a IH]; intros [|y b]; simpl;
    try (split; [discriminate | congruence]); try tauto.
  rewrite andb_true_iff, N.eqb_eq, IH.
  split; [intros [-> ->]; reflexivity | intros [= -> ->]; auto].
Qed.

Lemma jsstring_eqb_refl (a : jsstring) : jsstring_eqb a a = true.
Proof. apply jsstring_eqb_eq; reflexivity. Qed.

Lemma jsstring_eqb_neq (a b : jsstring) : jsstring_eqb a b = false <-> a <> b.
Proof.
  rewrite <- jsstring_eqb_eq. destruct (jsstring_eqb a b); split; congruence.
Qed.

(** ** [JSON.parse] never runs out of fuel *)

Lemma skip_ws_length (s : jsstring) :
  (List.length (skip_ws s) <= List.length s)%nat.
Proof.
  induction s as [|c s IH]; simpl; [lia|].
  destruct (is_json_ws c); simpl; lia.
Qed.

Lemma cons_char_length c r x rest (n : nat) :
  cons_char c r = Some (x, rest) ->
  (forall y, r = Some (y, rest) -> (List.length rest < n)%nat) ->
  (List.length rest < n)%nat.
Proof.
  destruct r as [[y rest']|]; simpl; [|discriminate].
  intros [= <- <-] H. eapply H; reflexivity.
Qed.

Lemma parse_chars_length_bounded (n : nat) :
  forall s x rest, (List.length s <= n)%nat ->
    parse_chars s = Some (x, rest) ->
    (List.length rest < List.length s)%nat.
Proof.
  induction n as [|n IH]; intros s x rest Hn H.
  - destruct s; [discriminate | simpl in Hn; lia].
  - destruct s as [|c r]; [discriminate|]. simpl in H, Hn |- *.
    destruct (c =? 34).
    { injection H as <- <-. lia. }
    destruct (c =? 92).
    + destruct r as [|e r1]; [discriminate|].
      destruct (e =? 117).
      * destruct r1 as [|a [|b [|c' [|d r2]]]]; try discriminate.
        destruct (hex4 a b c' d); [|discriminate].
        eapply cons_char_length; [exact H|]. intros y Hy.
        apply IH in Hy; simpl in *; lia.
      * destruct (simple_escape e); [|discriminate].
        eapply cons_char_length; [exact H|]. intros y Hy.
        apply IH in Hy; simpl in *; lia.
    + destruct (c <? 32); [discriminate|].
      eapply cons_char_length; [exact H|]. intros y Hy.
      apply IH in Hy; simpl in *; lia.
Qed.

Lemma parse_chars_length s x rest :
  parse_chars s = Some (x, rest) -> (List.length rest < List.length s)%nat.
Proof. apply (parse_chars_length_bounded (List.length s)); lia. Qed.

Lemma span_digits_length s ds rest :
  span_digits s = (ds, rest) -> (List.length rest <= List.length s)%nat.
Proof.
  revert ds rest; induction s as [|c s IH]; intros ds rest; simpl.
  - intros [= <- <-]; simpl; lia.
  - destruct (is_digit c).
    + destruct (span_digits s) as [ds' rest'] eqn:Hs.
      intros [= <- <-]. specialize (IH _ _ eq_refl). lia.
    + intros [= <- <-]; simpl; lia.
Qed.

Lemma digits1_length s ds rest :
  digits1 s = Some (ds, rest) -> (List.length rest <= List.length s)%nat.
Proof.
  unfold digits1. destruct (span_digits s) as [[|d ds'] rest'] eqn:Hs;
    [discriminate|].
  intros [= <- <-]. eapply span_digits_length; eassumption.
Qed.

Lemma parse_int_length s i rest :
  parse_int s = Some (i, rest) -> (List.length rest < List.length s)%nat.
Proof.
  destruct s as [|c r]; simpl; [discriminate|].
  destruct (c =? 48); [intros [= <- <-]; lia|].
  destruct (is_digit c); [|discriminate].
  destruct (span_digits r) as [ds rest'] eqn:Hs. intros [= <- <-].
  apply span_digits_length in Hs. lia.
Qed.

Lemma parse_frac_length s f rest :
  parse_frac s = Some (f, rest) -> (List.length rest <= List.length s)%nat.
Proof.
  destruct s as [|c r]; simpl; [intros [= <- <-]; simpl; lia|].
  destruct (c =? 46).
  - destruct (digits1 r) as [[ds rest']|] eqn:Hd; [|discriminate].
    intros [= <- <-]. apply digits1_length in Hd. lia.
  - intros [= <- <-]; simpl; lia.
Qed.

Lemma parse_exp_length s e rest :
  parse_exp s = Some (e, rest) -> (List.length rest <= List.length s)%nat.
Proof.
  destruct s as [|c r]; simpl; [intros [= <- <-]; simpl; lia|].
  destruct ((c =? 101) || (c =? 69)).
  - destruct r as [|sg r1]; [discriminate|].
    destruct ((sg =? 43) || (sg =? 45)).
    + destruct (digits1 r1) as [[ds rest']|] eqn:Hd; [|discriminate].
      intros [= <- <-]. apply digits1_length in Hd. simpl; lia.
    + destruct (digits1 (sg :: r1)) as [[ds rest']|] eqn:Hd; [|discriminate].
      intros [= <- <-]. apply digits1_length in Hd. simpl in *; lia.
  - intros [= <- <-]; simpl; lia.
Qed.

Lemma parse_unsigned_length s n rest :
  parse_unsigned s = Some (n, rest) -> (List.length rest < List.length s)%nat.
Proof.
  unfold parse_unsigned.
  destruct (parse_int s) as [[i r1]|] eqn:Hi; [|discriminate].
  destruct (parse_frac r1) as [[f r2]|] eqn:Hf; [|discriminate].
  destruct (parse_exp r2) as [[e r3]|] eqn:He; [|discriminate].
  intros [= <- <-].
  apply parse_int_length in Hi. apply parse_frac_length in Hf.
  apply parse_exp_length in He. lia.
Qed.

Lemma parse_number_length s n rest :
  parse_number s = Some (n, rest) -> (List.length rest < List.length s)%nat.
Proof.
  destruct s as [|c r]; simpl; [discriminate|].
  destruct (c =? 45).
  - destruct (parse_unsigned r) as [[m rest']|] eqn:Hu; [|discriminate].
    intros [= <- <-]. apply parse_unsigned_length in Hu. lia.
  - intros H. apply parse_unsigned_length in H. simpl in H. lia.
Qed.

Lemma strip_prefix_length p s rest :
  strip_prefix p s = Some rest ->
  List.length s = (List.length p + List.length rest)%nat.
Proof.
  revert s; induction p as [|x p IH]; intros s; simpl.
  - intros [= ->]; reflexivity.
  - destruct s as [|y s]; [discriminate|].
    destruct (x =? y); [|discriminate].
    intros H. apply IH in H. simpl; lia.
Qed.

Lemma parse_literal_length s v rest :
  parse_literal s = Parsed v rest -> (List.length rest < List.length s)%nat.
Proof.
  unfold parse_literal.
  destruct (strip_prefix (str "true") s) eqn:H1.
  { intros [= <- <-]. apply strip_prefix_length in H1. simpl in H1. lia. }
  destruct (strip_prefix (str "false") s) eqn:H2.
  { intros [= <- <-]. apply strip_prefix_length in H2. simpl in H2. lia. }
  destruct (strip_prefix (str "null") s) eqn:H3; [|discriminate].
  intros [= <- <-]. apply strip_prefix_length in H3. simpl in H3. lia.
Qed.

Lemma parse_literal_fuel s : parse_literal s <> OutOfFuel.
Proof.
  unfold parse_literal.
  repeat match goal with |- context [match ?x with _ => _ end] => destruct x end;
    discriminate.
Qed.

Lemma expect_length c s rest :
  expect c s = Some rest -> (List.length rest < List.length s)%nat.
Proof.
  unfold expect. pose proof (skip_ws_length s) as Hs.
  destruct (skip_ws s) as [|x r]; [discriminate|].
  destruct (x =? c); [|discriminate].
  intros [= <-]. simpl in Hs. lia.
Qed.

Arguments parse_number : simpl never.
Arguments parse_literal : simpl never.
Arguments parse_chars : simpl never.
Arguments expect : simpl never.

(** Every successful parse consumes at least one character. *)
Lemma parse_consumes (fuel : nat) :
  (forall s v rest, parse_value fuel s = Parsed v rest ->
     (List.length rest < List.length s)%nat) /\
  (forall s acc v rest, parse_elements fuel s acc = Parsed v rest ->
     (List.length rest < List.length s)%nat) /\
  (forall s acc v rest, parse_members fuel s acc = Parsed v rest ->
     (List.length rest < List.length s)%nat).
Proof.
  induction fuel as [|f (IHv & IHe & IHm)];
    [repeat split; intros; discriminate|].
  repeat split.
  - intros s v rest H. simpl in H.
    pose proof (skip_ws_length s) as Hs.
    destruct (skip_ws s) as [|c r]; [discriminate|]. simpl in Hs.
    destruct (c =? 123).
    { destruct (expect 125 r) as [r'|] eqn:He.
      - injection H as <- <-. apply expect_length in He. lia.
      - apply IHm in H. lia. }
    destruct (c =? 91).
    { destruct (expect 93 r) as [r'|] eqn:He.
      - injection H as <- <-. apply expect_length in He. lia.
      - apply IHe in H. lia. }
    destruct (c =? 34).
    { destruct (parse_chars r) as [[chars r']|] eqn:Hc; [|discriminate].
      injection H as <- <-. apply parse_chars_length in Hc. lia. }
    destruct ((c =? 45) || is_digit c).
    { destruct (parse_number (c :: r)) as [[n r']|] eqn:Hn; [|discriminate].
      injection H as <- <-. apply parse_number_length in Hn. simpl in Hn. lia. }
    apply parse_literal_length in H. simpl in H. lia.
  - intros s acc v rest H. simpl in H.
    destruct (parse_value f s) as [| |w r] eqn:Hv; try discriminate.
    apply IHv in Hv.
    destruct (expect 44 r) as [r'|] eqn:H1.
    { apply IHe in H. apply expect_length in H1. lia. }
    destruct (expect 93 r) as [r'|] eqn:H2; [|discriminate].
    injection H as <- <-. apply expect_length in H2. lia.
  - intros s acc v rest H. simpl in H.
    destruct (expect 34 s) as [r|] eqn:H0; [|discriminate].
    destruct (parse_chars r) as [[key r1]|] eqn:Hc; [|discriminate].
    destruct (expect 58 r1) as [r2|] eqn:H1; [|discriminate].
    destruct (parse_value f r2) as [| |w r3] eqn:Hv; try discriminate.
    apply expect_length in H0, H1. apply parse_chars_length in Hc.
    apply IHv in Hv.
    destruct (expect 44 r3) as [r4|] eqn:H2.
    { apply IHm in H. apply expect_length in H2. lia. }
    destruct (expect 125 r3) as [r4|] eqn:H3; [|discriminate].
    injection H as <- <-. apply expect_length in H3. lia.
Qed.

(** With fuel above twice the length of the text, no parser gives up. *)
Lemma parse_fuel_enough (fuel : nat) :
  (forall s, (2 * List.length s + 1 <= fuel)%nat ->
     parse_value fuel s <> OutOfFuel) /\
  (forall s acc, (2 * List.length s + 2 <= fuel)%nat ->
     parse_elements fuel s acc <> OutOfFuel) /\
  (forall s acc, (2 * List.length s + 2 <= fuel)%nat ->
     parse_members fuel s acc <> OutOfFuel).
Proof.
  induction fuel as [|f (IHv & IHe & IHm)];
    [repeat split; intros; lia|].
  destruct (parse_consumes f) as (Cv & _ & _).
  repeat split.
  - intros s Hf. simpl.
    pose proof (skip_ws_length s) as Hs.
    destruct (skip_ws s) as [|c r]; [discriminate|]. simpl in Hs.
    destruct (c =? 123).
    { destruct (expect 125 r); [discriminate|]. apply IHm. lia. }
    destruct (c =? 91).
    { destruct (expect 93 r); [discriminate|]. apply IHe. lia. }
    destruct (c =? 34).
    { destruct (parse_chars r) as [[? ?]|]; discriminate. }
    destruct ((c =? 45) || is_digit c).
    { destruct (parse_number (c :: r)) as [[? ?]|]; discriminate. }
    apply parse_literal_fuel.
  - intros s acc Hf. simpl.
    destruct (parse_value f s) as [| |w r] eqn:Hv.
    + exfalso. revert Hv. apply IHv. lia.
    + discriminate.
    + apply Cv in Hv.
      destruct (expect 44 r) as [r'|] eqn:H1.
      { apply expect_length in H1. apply IHe. lia. }
      destruct (expect 93 r); discriminate.
  - intros s acc Hf. simpl.
    destruct (expect 34 s) as [r|] eqn:H0; [|discriminate].
    destruct (parse_chars r) as [[key r1]|] eqn:Hc; [|discriminate].
    destruct (expect 58 r1) as [r2|] eqn:H1; [|discriminate].
    apply expect_length in H0, H1. apply parse_chars_length in Hc.
    destruct (parse_value f r2) as [| |w r3] eqn:Hv.
    + exfalso. revert Hv. apply IHv. lia.
    + discriminate.
    + apply Cv in Hv.
      destruct (expect 44 r3) as [r4|] eqn:H2.
      { apply expect_length in H2. apply IHm. lia. }
      destruct (expect 125 r3); discriminate.
Qed.

(** The fuel [JSON_parse] supplies is never exhausted: its [None] is a
    syntax error of the text, never an artefact of the bound. *)
Lemma parse_value_fuel (text : jsstring) :
  parse_value (parse_fuel text) text <> OutOfFuel.
Proof.
  apply (proj1 (parse_fuel_enough (parse_fuel text))).
  unfold parse_fuel. lia.
Qed.

(** ** The decoder at a line feed *)

Ltac bools :=
  repeat match goal with
  | H : (_ && _) = true |- _ => apply andb_true_iff in H; destruct H
  | H : (_ && _) = false |- _ => apply andb_false_iff in H
  | H : (_ <=? _) = true |- _ => apply N.leb_le in H
  | H : (_ <=? _) = false |- _ => apply N.leb_gt in H
  | H : (_ <? _) = true |- _ => apply N.ltb_lt in H
  | H : (_ <? _) = false |- _ => apply N.ltb_ge in H
  | H : (_ =? _) = true |- _ => apply N.eqb_eq in H
  | H : (_ =? _) = false |- _ => apply N.eqb_neq in H
  | H : _ \/ _ |- _ => destruct H
  | H : context [if ?c then _ else _] |- _ => destruct c eqn:?
  end.

Lemma utf8_start_ok b : utf8_state_ok (snd (utf8_start b)).
Proof.
  unfold utf8_start.
  repeat match goal with
  | |- context [if ?c then _ else _] => destruct c eqn:?
  end; simpl; auto; lia.
Qed.

Lemma utf8_step_ok st b : utf8_state_ok (snd (utf8_step st b)).
Proof.
  destruct st as [|r cp lo hi]; simpl; [apply utf8_start_ok|].
  destruct ((lo <=? b) && (b <=? hi)).
  - destruct r; simpl; auto; lia.
  - pose proof (utf8_start_ok b). destruct (utf8_start b); assumption.
Qed.

Lemma utf8_step_LF st :
  utf8_state_ok st -> snd (utf8_step st LF) = Utf8Start.
Proof.
  destruct st as [|r cp lo hi]; simpl; [reflexivity|]. intros Hlo.
  destruct (lo <=? LF) eqn:H; [apply N.leb_le in H; unfold LF in H; lia|].
  reflexivity.
Qed.

Lemma utf8_run_app_LF a : forall st b,
  utf8_state_ok st ->
  utf8_run st (a ++ LF :: b) = utf8_run st (a ++ [LF]) ++ utf8_run Utf8Start b.
Proof.
  induction a as [|x a IH]; intros st b Hok.
  - cbn [app utf8_run]. pose proof (utf8_step_LF st Hok) as H.
    destruct (utf8_step st LF) as [out st']. simpl in H; subst st'.
    cbn [utf8_run]. rewrite app_nil_r. reflexivity.
  - cbn [app utf8_run]. pose proof (utf8_step_ok st x) as H.
    destruct (utf8_step st x) as [out st']. simpl in H.
    rewrite IH by assumption. rewrite app_assoc. reflexivity.
Qed.

Lemma utf8_run_LF_nonempty a : forall st,
  utf8_state_ok st -> utf8_run st (a ++ [LF]) <> [].
Proof.
  induction a as [|x a IH]; intros st Hok.
  - cbn [app utf8_run]. destruct st as [|r cp lo hi]; simpl; [discriminate|].
    simpl in Hok.
    destruct (lo <=? LF) eqn:H; [apply N.leb_le in H; unfold LF in H; lia|].
    simpl. discriminate.
  - cbn [app utf8_run]. pose proof (utf8_step_ok st x) as H.
    destruct (utf8_step st x) as [out st']. simpl in H.
    specialize (IH st' H). destruct out; simpl; [assumption | discriminate].
Qed.

Lemma strip_bom_app x y : x <> [] -> strip_bom (x ++ y) = strip_bom x ++ y.
Proof.
  destruct x as [|c x]; [congruence|]. intros _. simpl.
  destruct (c =? BOM); reflexivity.
Qed.

(** Only the byte order mark decodes to a leading [U+FEFF]: the first code
    point that each continuation state can still produce. *)

Lemma utf8_step_reject r cp lo hi b out st' :
  (lo <=? b) && (b <=? hi) = false ->
  utf8_step (Utf8Cont r cp lo hi) b = (out, st') ->
  exists out', out = REPLACEMENT :: out'.
Proof.
  simpl. intros ->. destruct (utf8_start b) as [o s]. intros [= <- <-].
  eauto.
Qed.

Lemma utf8_head_cont0 cp lo hi bs c rest :
  0x80 <= lo -> hi <= 0xBF ->
  utf8_run (Utf8Cont 0 cp lo hi) bs = c :: rest -> c = BOM ->
  cp = 1019 /\ exists bs', bs = 0xBF :: bs'.
Proof.
  intros Hlo Hhi Hrun Hc. destruct bs as [|b bs].
  { simpl in Hrun. injection Hrun as <- _. discriminate. }
  cbn [utf8_run] in Hrun.
  destruct (utf8_step (Utf8Cont 0 cp lo hi) b) as [out st'] eqn:Hstep.
  destruct ((lo <=? b) && (b <=? hi)) eqn:Hin.
  - simpl in Hstep. rewrite Hin in Hstep. injection Hstep as <- <-.
    simpl in Hrun. injection Hrun as <- _. unfold BOM in Hc. bools.
    assert (b = 0xBF) by lia. subst b. split; [lia | eauto].
  - destruct (utf8_step_reject _ _ _ _ _ _ _ Hin Hstep) as [out' ->].
    simpl in Hrun. injection Hrun as <- _. discriminate.
Qed.

Lemma utf8_head_cont1 cp lo hi bs c rest :
  0x80 <= lo -> hi <= 0xBF ->
  utf8_run (Utf8Cont 1 cp lo hi) bs = c :: rest -> c = BOM ->
  cp = 15 /\ exists bs', bs = 0xBB :: 0xBF :: bs'.
Proof.
  intros Hlo Hhi Hrun Hc. destruct bs as [|b bs].
  { simpl in Hrun. injection Hrun as <- _. discriminate. }
  cbn [utf8_run] in Hrun.
  destruct (utf8_step (Utf8Cont 1 cp lo hi) b) as [out st'] eqn:Hstep.
  destruct ((lo <=? b) && (b <=? hi)) eqn:Hin.
  - simpl in Hstep. rewrite Hin in Hstep. injection Hstep as <- <-.
    simpl in Hrun.
    apply utf8_head_cont0 in Hrun; [|lia|lia|assumption].
    destruct Hrun as [Hcp [bs' ->]]. bools.
    assert (b = 0xBB) by lia. subst b. split; [lia | eauto].
  - destruct (utf8_step_reject _ _ _ _ _ _ _ Hin Hstep) as [out' ->].
    simpl in Hrun. injection Hrun as <- _. discriminate.
Qed.

Lemma utf8_head_cont2 cp lo hi bs c rest :
  0x80 <= lo -> hi <= 0xBF -> (cp = 0 -> 0x90 <= lo) ->
  utf8_run (Utf8Cont 2 cp lo hi) bs = c :: rest -> c <> BOM.
Proof.
  intros Hlo Hhi Hcp0 Hrun Hc. destruct bs as [|b bs].
  { simpl in Hrun. injection Hrun as <- _. discriminate. }
  cbn [utf8_run] in Hrun.
  destruct (utf8_step (Utf8Cont 2 cp lo hi) b) as [out st'] eqn:Hstep.
  destruct ((lo <=? b) && (b <=? hi)) eqn:Hin.
  - simpl in Hstep. rewrite Hin in Hstep. injection Hstep as <- <-.
    simpl in Hrun.
    apply utf8_head_cont1 in Hrun; [|lia|lia|assumption].
    destruct Hrun as [Hcp _]. bools.
    destruct (N.eq_dec cp 0) as [->|Hne]; [specialize (Hcp0 eq_refl); lia|lia].
  - destruct (utf8_step_reject _ _ _ _ _ _ _ Hin Hstep) as [out' ->].
    simpl in Hrun. injection Hrun as <- _. discriminate.
Qed.

Lemma utf8_head_start bs c rest :
  utf8_run Utf8Start bs = c :: rest -> c = BOM -> starts_with_bom bs = true.
Proof.
  intros Hrun Hc. destruct bs as [|b bs]; [discriminate|].
  cbn [utf8_run utf8_step] in Hrun. unfold utf8_start in Hrun.
  destruct (b <=? 0x7F) eqn:H1.
  { simpl in Hrun. injection Hrun as <- _. unfold BOM in Hc. bools. lia. }
  destruct ((0xC2 <=? b) && (b <=? 0xDF)) eqn:H2.
  { simpl in Hrun. apply utf8_head_cont0 in Hrun; [|lia|lia|assumption].
    destruct Hrun as [Hcp _]. bools; lia. }
  destruct ((0xE0 <=? b) && (b <=? 0xEF)) eqn:H3.
  { simpl in Hrun. apply utf8_head_cont1 in Hrun; [| | |assumption].
    - destruct Hrun as [Hcp (bs' & ->)].
      assert (b = 0xEF) by (bools; lia). subst b. reflexivity.
    - destruct (b =? 0xE0); lia.
    - destruct (b =? 0xED); lia. }
  destruct ((0xF0 <=? b) && (b <=? 0xF4)) eqn:H4.
  { simpl in Hrun. apply utf8_head_cont2 in Hrun; [contradiction| | |].
    - destruct (b =? 0xF0); lia.
    - destruct (b =? 0xF4); lia.
    - intros H0. assert (b = 0xF0) by (bools; lia). subst b. simpl. lia. }
  simpl in Hrun. injection Hrun as <- _. discriminate.
Qed.

Lemma strip_bom_no_mark (value : bytes) :
  starts_with_bom value = false ->
  strip_bom (utf8_run Utf8Start value) = utf8_run Utf8Start value.
Proof.
  intros Hb.
  destruct (utf8_run Utf8Start value) as [|c rest] eqn:Hrun; [reflexivity|].
  simpl. destruct (c =? BOM) eqn:Hc; [|reflexivity].
  apply N.eqb_eq in Hc. rewrite (utf8_head_start _ _ _ Hrun Hc) in Hb.
  discriminate.
Qed.

Lemma utf8_run_LF_end a : forall st,
  utf8_state_ok st -> exists x, utf8_run st (a ++ [LF]) = x ++ [LF].
Proof.
  induction a as [|b a IH]; intros st Hok.
  - destruct st as [|r cp lo hi].
    + exists []. reflexivity.
    + exists [REPLACEMENT]. simpl in Hok |- *.
      destruct (lo <=? LF) eqn:H; [apply N.leb_le in H; unfold LF in H; lia|].
      reflexivity.
  - cbn [app utf8_run]. pose proof (utf8_step_ok st b) as H.
    destruct (utf8_step st b) as [out st']. simpl in H.
    destruct (IH st' H) as [x ->]. exists (out ++ x).
    rewrite app_assoc. reflexivity.
Qed.

Lemma strip_bom_LF_end x : exists y, strip_bom (x ++ [LF]) = y ++ [LF].
Proof.
  destruct x as [|c x]; [exists []; reflexivity|]. simpl.
  destruct (c =? BOM); [exists x | exists (c :: x)]; reflexivity.
Qed.

(** A chunk that ends with a line feed decodes to a text that ends with
    one, and the decoder is back in its start state for what follows. *)
Lemma TextDecoder_decode_LF_end (a : bytes) :
  exists s, TextDecoder_decode (a ++ [LF]) = s ++ [LF].
Proof.
  unfold TextDecoder_decode.
  destruct (utf8_run_LF_end a Utf8Start I) as [x ->].
  destruct (strip_bom_LF_end x) as [y ->].
  exists (flat_map utf16_units y). rewrite flat_map_app. reflexivity.
Qed.

Lemma TextDecoder_decode_app_LF (a b : bytes) :
  starts_with_bom b = false ->
  TextDecoder_decode (a ++ LF :: b)
  = TextDecoder_decode (a ++ [LF]) ++ TextDecoder_decode b.
Proof.
  intros Hb. unfold TextDecoder_decode.
  rewrite utf8_run_app_LF by exact I.
  rewrite strip_bom_app by (apply utf8_run_LF_nonempty; exact I).
  rewrite flat_map_app, (strip_bom_no_mark b Hb). reflexivity.
Qed.

(** ** Splitting at a line feed *)

Lemma split_lines_nonempty s : split_lines s <> [].
Proof.
  destruct s as [|c s]; simpl; [discriminate|].
  destruct (c =? LF); [discriminate|].
  destruct (split_lines s); discriminate.
Qed.

Lemma split_lines_app_LF s t :
  split_lines (s ++ LF :: t) = split_lines s ++ split_lines t.
Proof.
  induction s as [|c s IH]; simpl.
  - reflexivity.
  - destruct (c =? LF); [rewrite IH; reflexivity|].
    rewrite IH. pose proof (split_lines_nonempty s) as Hs.
    destruct (split_lines s) as [|l ls]; [congruence | reflexivity].
Qed.

Lemma split_lines_LF_end s : split_lines (s ++ [LF]) = split_lines s ++ [[]].
Proof. apply split_lines_app_LF. Qed.

(** The lines of a chunk cut after a line feed: the first part gains one
    empty line, everything else is as in the whole chunk. *)
Lemma lines_of_app_LF (a b : bytes) :
  starts_with_bom b = false ->
  exists ls, lines_of (a ++ [LF]) = ls ++ [[]]
             /\ lines_of (a ++ LF :: b) = ls ++ lines_of b.
Proof.
  intros Hb. unfold lines_of.
  rewrite (TextDecoder_decode_app_LF a b Hb).
  destruct (TextDecoder_decode_LF_end a) as [s ->].
  exists (split_lines s). split.
  - apply split_lines_LF_end.
  - rewrite <- app_assoc. apply split_lines_app_LF.
Qed.

(** * Properties of the handler *)

Section HandlerFacts.
Context {E : Engine}.

Lemma string_plus_app s v t :
  string_plus [] v = Ok t -> string_plus s v = Ok (s ++ t).
Proof.
  unfold string_plus. destruct v as [j|].
  - destruct (ToString j); [|discriminate]. intros [= <-]. reflexivity.
  - intros [= <-]. reflexivity.
Qed.

Lemma string_plus_throw s v e :
  string_plus [] v = Throw e -> string_plus s v = Throw e.
Proof.
  unfold string_plus. destruct v as [j|]; [|discriminate].
  destruct (ToString j); [discriminate|]. auto.
Qed.

Lemma state_eta st :
  {| fullResponse := fullResponse st; trace := trace st |} = st.
Proof. destruct st; reflexivity. Qed.

(** One line: it never throws; it appends its fragment and logs at most
    one error. *)
Lemma process_line_run line st :
  process_line line st
  = (Ok tt, {| fullResponse := fullResponse st ++ fragment line;
               trace := trace st ++ line_log line |}).
Proof.
  unfold process_line, fragment, line_log, decoded_record.
  fold (nonblank line). destruct (nonblank line); cbn [negb].
  2:{ unfold ret. rewrite !app_nil_r, state_eta. reflexivity. }
  unfold try_catch, bind, JSON_parse_or_throw.
  destruct (JSON_parse line) as [v|]; cbn [ret throw].
  2:{ unfold console_error, emit. cbn. rewrite app_nil_r. reflexivity. }
  unfold record_fragment, lift.
  destruct (Get v (str "response")) as [response|e] eqn:HG.
  2:{ unfold console_error, emit. cbn. rewrite app_nil_r. reflexivity. }
  destruct (ToBoolean response).
  - unfold append_fullResponse, bind, get_fullResponse, lift, set_fullResponse.
    destruct (string_plus [] response) as [t|e] eqn:Hp.
    + rewrite (string_plus_app _ _ _ Hp).
      assert (HD : exists d, Get v (str "done") = Ok d).
      { destruct v; try discriminate; simpl; eauto. }
      destruct HD as [d ->]. cbn.
      destruct (ToBoolean d); unfold ret; rewrite app_nil_r; reflexivity.
    + rewrite (string_plus_throw _ _ _ Hp).
      unfold console_error, emit. cbn. rewrite app_nil_r. reflexivity.
  - assert (HD : exists d, Get v (str "done") = Ok d).
    { destruct v; try discriminate; simpl; eauto. }
    destruct HD as [d ->]. cbn.
    destruct (ToBoolean d); unfold ret; rewrite !app_nil_r, state_eta;
      reflexivity.
Qed.

Lemma for_of_process_line lines : forall st,
  for_of lines process_line st
  = (Ok tt, {| fullResponse := fullResponse st ++ flat_map fragment lines;
               trace := trace st ++ flat_map line_log lines |}).
Proof.
  induction lines as [|line lines IH]; intros st.
  - cbn. rewrite !app_nil_r, state_eta. reflexivity.
  - cbn [for_of flat_map]. unfold bind. rewrite process_line_run, IH.
    cbn. rewrite !app_assoc. reflexivity.
Qed.

(** The whole loop: the lines of all the chunks are processed in order, and
    the loop ends the way the stream ends. *)
Lemma read_loop_run pending close : forall st,
  read_loop pending close st
  = (match close with Closed => Ok tt | Errored e => Throw e end,
     {| fullResponse := fullResponse st ++ aggregate pending;
        trace := trace st ++ flat_map line_log (all_lines pending) |}).
Proof.
  unfold aggregate.
  induction pending as [|value later IH]; intros st.
  - cbn. rewrite !app_nil_r, state_eta. destruct close; reflexivity.
  - cbn [read_loop all_lines flat_map]. unfold bind.
    rewrite for_of_process_line. fold (all_lines later). rewrite IH. cbn.
    rewrite !flat_map_app, !app_assoc. reflexivity.
Qed.

End HandlerFacts.
(** ** Reading back what [JSON.stringify] wrote *)

Section ReadBack.
Context {E : Engine}.

Lemma hex_value_digit n : n < 16 -> hex_value (hex_digit n) = Some n.
Proof.
  intros Hn. unfold hex_digit, hex_value, is_digit.
  destruct (n <? 10) eqn:H10; bools.
  - replace ((48 <=? 48 + n) && (48 + n <=? 57)) with true.
    + f_equal. lia.
    + symmetry. apply andb_true_iff. split; apply N.leb_le; lia.
  - replace ((48 <=? 87 + n) && (87 + n <=? 57)) with false.
    + replace ((97 <=? 87 + n) && (87 + n <=? 102)) with true.
      * f_equal. lia.
      * symmetry. apply andb_true_iff. split; apply N.leb_le; lia.
    + symmetry. apply andb_false_iff. right. apply N.leb_gt. lia.
Qed.

Lemma unicode_escape_read_back c tail :
  c < 65536 ->
  parse_chars (unicode_escape c ++ tail) = cons_char c (parse_chars tail).
Proof.
  intros Hc. unfold unicode_escape. cbn [app].
  rewrite !N.shiftr_div_pow2.
  change (2 ^ 12) with 4096. change (2 ^ 8) with 256. change (2 ^ 4) with 16.
  unfold parse_chars at 1. fold parse_chars.
  change (92 =? 34) with false. change (92 =? 92) with true.
  change (117 =? 117) with true. cbv beta iota.
  unfold hex4.
  rewrite !hex_value_digit by (apply N.mod_lt; discriminate).
  replace (((c / 4096 mod 16 * 16 + c / 256 mod 16) * 16 + c / 16 mod 16) * 16
           + c mod 16) with c; [reflexivity|].
  assert (c / 4096 < 16) by (apply N.Div0.div_lt_upper_bound; lia).
  rewrite (N.mod_small (c / 4096)) by assumption.
  pose proof (N.div_mod c 16 ltac:(discriminate)) as H0.
  pose proof (N.div_mod (c / 16) 16 ltac:(discriminate)) as H1.
  pose proof (N.div_mod (c / 16 / 16) 16 ltac:(discriminate)) as H2.
  rewrite !N.Div0.div_div in H1, H2. rewrite !N.Div0.div_div in H2.
  change (16 * 16) with 256 in *. change (256 * 16) with 4096 in *.
  pose proof (N.mod_lt c 16 ltac:(discriminate)).
  pose proof (N.mod_lt (c / 16) 16 ltac:(discriminate)).
  pose proof (N.mod_lt (c / 256) 16 ltac:(discriminate)).
  lia.
Qed.

Lemma parse_chars_copy c tail :
  c <> 34 -> c <> 92 -> 0x20 <= c ->
  parse_chars (c :: tail) = cons_char c (parse_chars tail).
Proof.
  intros H34 H92 H20. unfold parse_chars at 1. fold parse_chars.
  apply N.eqb_neq in H34, H92. rewrite H34, H92.
  destruct (c <? 0x20) eqn:H; [apply N.ltb_lt in H; lia | reflexivity].
Qed.

Lemma quote_unit_read_back c tail :
  parse_chars (quote_unit c ++ tail) = cons_char c (parse_chars tail).
Proof.
  unfold quote_unit.
  destruct (c =? 8) eqn:H8; [apply N.eqb_eq in H8; subst; reflexivity|].
  destruct (c =? 9) eqn:H9; [apply N.eqb_eq in H9; subst; reflexivity|].
  destruct (c =? 10) eqn:H10; [apply N.eqb_eq in H10; subst; reflexivity|].
  destruct (c =? 12) eqn:H12; [apply N.eqb_eq in H12; subst; reflexivity|].
  destruct (c =? 13) eqn:H13; [apply N.eqb_eq in H13; subst; reflexivity|].
  destruct (c =? 34) eqn:H34; [apply N.eqb_eq in H34; subst; reflexivity|].
  destruct (c =? 92) eqn:H92; [apply N.eqb_eq in H92; subst; reflexivity|].
  destruct ((c <? 0x20) || is_high_surrogate c || is_low_surrogate c) eqn:Hesc.
  - apply unicode_escape_read_back.
    unfold is_high_surrogate, is_low_surrogate in Hesc.
    apply orb_true_iff in Hesc. destruct Hesc as [Hesc|Hesc].
    + apply orb_true_iff in Hesc. destruct Hesc as [Hesc|Hesc]; bools; lia.
    + bools; lia.
  - apply orb_false_iff in Hesc. destruct Hesc as [Hesc _].
    apply orb_false_iff in Hesc. destruct Hesc as [Hesc _].
    bools. apply parse_chars_copy; lia.
Qed.

Lemma quote_chars_read_back_bounded (n : nat) : forall s rest,
  (List.length s <= n)%nat ->
  parse_chars (quote_chars s ++ 34 :: rest) = Some (s, rest).
Proof.
  induction n as [|n IH]; intros s rest Hn.
  { destruct s; [reflexivity | simpl in Hn; lia]. }
  destruct s as [|c r]; [reflexivity|]. simpl in Hn.
  assert (Hunit : parse_chars ((quote_unit c ++ quote_chars r) ++ 34 :: rest)
                  = Some (c :: r, rest)).
  { rewrite <- app_assoc, quote_unit_read_back, IH by lia. reflexivity. }
  cbn [quote_chars]. destruct (is_high_surrogate c) eqn:Hhigh; [|exact Hunit].
  destruct r as [|d r']; [|destruct (is_low_surrogate d) eqn:Hlow].
  - rewrite app_nil_r in Hunit. exact Hunit.
  - unfold is_high_surrogate in Hhigh. unfold is_low_surrogate in Hlow.
    cbn [app]. bools.
    rewrite !parse_chars_copy by lia.
    rewrite IH by (simpl in Hn; lia). reflexivity.
  - exact Hunit.
Qed.

Lemma quote_chars_read_back s rest :
  parse_chars (quote_chars s ++ 34 :: rest) = Some (s, rest).
Proof. apply (quote_chars_read_back_bounded (List.length s)). lia. Qed.

Lemma own_property_order_single {A} (k : jsstring) (x : A) :
  own_property_order [(k, x)] = [(k, x)].
Proof.
  unfold own_property_order. cbn [indexed filter fst].
  destruct (array_index k); reflexivity.
Qed.

(** What [JSON.stringify] writes for an object with one string property
    parses back to that object: the caller that reads the body of a response
    recovers the text, code unit by code unit. *)
Lemma JSON_parse_stringify_member (key s : jsstring) :
  JSON_parse (JSON_stringify (JObject [(key, JString s)]))
  = Some (JObject [(key, JString s)]).
Proof.
  cbn [JSON_stringify map fst snd]. rewrite own_property_order_single.
  cbn [map fst snd join_comma]. unfold quote, JSON_parse.
  set (text := [123] ++ (([34] ++ quote_chars key ++ [34]) ++ [58]
                         ++ [34] ++ quote_chars s ++ [34]) ++ [125]).
  assert (Hfuel : exists f, parse_fuel text = S (S (S f))).
  { exists (2 * List.length text - 1)%nat. unfold parse_fuel.
    assert (1 <= List.length text)%nat by (subst text; simpl; lia). lia. }
  destruct Hfuel as [f ->]. subst text.
  cbn [parse_value app skip_ws is_json_ws N.eqb Pos.eqb orb].
  unfold expect at 1. cbn [skip_ws is_json_ws N.eqb Pos.eqb orb].
  cbn [parse_members]. unfold expect at 1.
  cbn [skip_ws is_json_ws N.eqb Pos.eqb orb].
  rewrite <- !app_assoc. cbn [app].
  rewrite quote_chars_read_back.
  unfold expect at 1. cbn [skip_ws is_json_ws N.eqb Pos.eqb orb].
  cbn [parse_value skip_ws is_json_ws N.eqb Pos.eqb orb].
  rewrite <- app_assoc. cbn [app]. rewrite quote_chars_read_back.
  unfold expect. cbn [skip_ws is_json_ws N.eqb Pos.eqb orb define_property].
  reflexivity.
Qed.

Lemma response_body_read_back (fullResponse : jsstring) :
  option_map JSON_parse (response_body fullResponse)
  = Some (Some (JObject [(str "response", JString fullResponse)])).
Proof.
  unfold response_body, option_map. f_equal.
  apply JSON_parse_stringify_member.
Qed.

Lemma error_body_read_back (message : jsstring) :
  option_map JSON_parse (error_body message)
  = Some (Some (JObject [(str "error", JString message)])).
Proof.
  unfold error_body, option_map. f_equal.
  apply JSON_parse_stringify_member.
Qed.

End ReadBack.

Arguments JSON_parse : simpl never.
Arguments TextDecoder_decode : simpl never.
Arguments JSON_stringify : simpl never.
Arguments N_to_string : simpl never.
Arguments str : simpl never.
Arguments trim : simpl never.

Section HandlerRuns.
Context {E : Engine}.
Variable fetch : Upstream.

Lemma prompt_of_inv req prompt :
  prompt_of req = Some prompt ->
  exists requestBody,
    JSON_parse (TextDecoder_decode (req_body req)) = Some requestBody
    /\ destructure requestBody (str "prompt") = Ok prompt.
Proof.
  unfold prompt_of.
  destruct (JSON_parse (TextDecoder_decode (req_body req))) as [v|];
    [|discriminate].
  destruct (destructure v (str "prompt")) as [p|e] eqn:Hd; [|discriminate].
  intros [= <-]. eauto.
Qed.

Lemma method_post req :
  method req = str "POST" ->
  jsstring_eqb (method req) (str "OPTIONS") = false
  /\ negb (jsstring_eqb (method req) (str "POST")) = false.
Proof. intros ->. split; reflexivity. Qed.

(** A request with a prompt the handler accepts reaches the upstream call. *)
Lemma handler_runs_upstream req prompt st :
  method req = str "POST" ->
  prompt_of req = Some prompt ->
  ToBoolean prompt = true ->
  handler fetch req st
  = try_catch
      (response <- lift (match fetch ollamaUrl (fetch_init prompt) with
                         | Resolved response => Ok response
                         | Rejected e => Throw e
                         end) ;;
       (if negb (ok response) then
          errorText <- lift (text response) ;;
          throw (ErrorObject (str "Ollama API error: "
                              ++ N_to_string (status response)
                              ++ str ", " ++ errorText))
        else ret tt) ;;
       let reader := body response in
       set_fullResponse (str "") ;;
       match reader with
       | None => throw (ErrorObject (str "Unable to read response body"))
       | Some reader =>
           read_loop (chunks reader) (ending reader) ;;
           fullResponse <- get_fullResponse ;;
           ret {| res_status := 200;
                  res_headers := headers;
                  res_body := response_body fullResponse |}
       end)
      (fun error =>
         console_error (str "Error:") error ;;
         ret {| res_status := 500;
                res_headers := headers;
                res_body :=
                  error_body (match error with
                              | ErrorObject message => message
                              | NonError => str "An unknown error occurred"
                              end) |})
      {| fullResponse := fullResponse st;
         trace := trace st
                  ++ [ReqJson; Fetch ollamaUrl (fetch_init prompt)] |}.
Proof.
  intros Hm Hp Ht. destruct (prompt_of_inv _ _ Hp) as (v & Hv & Hd).
  unfold handler. destruct (method_post _ Hm) as [-> ->].
  unfold req_json, call_fetch.
  unfold try_catch, bind, emit, lift, ret, throw. cbv beta iota.
  rewrite Hv. cbv beta iota. rewrite Hd. cbv beta iota. rewrite Ht.
  cbn [negb]. cbv beta iota. cbn [trace fullResponse].
  rewrite <- app_assoc. cbn [app].
  destruct (fetch ollamaUrl (fetch_init prompt)); reflexivity.
Qed.

(** The paths that end before the upstream call. *)

Lemma handler_options req st :
  method req = str "OPTIONS" ->
  handler fetch req st
  = (Ok {| res_status := 204;
           res_headers :=
             [ (str "Access-Control-Allow-Origin", origin corsOptions);
               (str "Access-Control-Allow-Methods", str "POST, OPTIONS");
               (str "Access-Control-Allow-Headers", str "Content-Type") ];
           res_body := None |},
     st).
Proof. intros Hm. unfold handler. rewrite Hm. reflexivity. Qed.

Lemma handler_other_method req st :
  method req <> str "POST" ->
  method req <> str "OPTIONS" ->
  handler fetch req st
  = (Ok {| res_status := 405;
           res_headers := headers;
           res_body := error_body (str "Method Not Allowed") |},
     st).
Proof.
  intros Hpost Hoptions. unfold handler.
  apply jsstring_eqb_neq in Hpost, Hoptions. rewrite Hpost, Hoptions.
  reflexivity.
Qed.

Lemma handler_invalid_json req st :
  method req = str "POST" ->
  JSON_parse (TextDecoder_decode (req_body req)) = None ->
  handler fetch req st
  = caught (ErrorObject (SyntaxError_message
                           (TextDecoder_decode (req_body req)))) st.
Proof.
  intros Hm Hv.
  unfold handler. destruct (method_post _ Hm) as [-> ->].
  unfold req_json, console_error.
  unfold try_catch, bind, emit, lift, ret, throw. cbv beta iota.
  rewrite Hv. unfold caught. cbn [trace fullResponse].
  rewrite <- app_assoc. reflexivity.
Qed.

Lemma handler_destructure_throws req requestBody e st :
  method req = str "POST" ->
  JSON_parse (TextDecoder_decode (req_body req)) = Some requestBody ->
  destructure requestBody (str "prompt") = Throw e ->
  handler fetch req st = caught e st.
Proof.
  intros Hm Hv Hd.
  unfold handler. destruct (method_post _ Hm) as [-> ->].
  unfold req_json, console_error.
  unfold try_catch, bind, emit, lift, ret, throw. cbv beta iota.
  rewrite Hv. cbv beta iota. rewrite Hd. unfold caught.
  cbn [trace fullResponse]. rewrite <- app_assoc. reflexivity.
Qed.

Lemma handler_falsy_prompt req prompt st :
  method req = str "POST" ->
  prompt_of req = Some prompt ->
  ToBoolean prompt = false ->
  handler fetch req st = caught (ErrorObject (str "Prompt is required")) st.
Proof.
  intros Hm Hp Ht. destruct (prompt_of_inv _ _ Hp) as (v & Hv & Hd).
  unfold handler. destruct (method_post _ Hm) as [-> ->].
  unfold req_json, console_error.
  unfold try_catch, bind, emit, lift, ret, throw. cbv beta iota.
  rewrite Hv. cbv beta iota. rewrite Hd. cbv beta iota. rewrite Ht.
  unfold caught. cbn [negb trace fullResponse].
  rewrite <- app_assoc. reflexivity.
Qed.

End HandlerRuns.

Section Streams.
Context {E : Engine}.
Variable fetch : Upstream.

(** A stream that closes: the answer is a success carrying the aggregate of
    its chunks. *)
Lemma handler_streamed req prompt response stream st :
  method req = str "POST" ->
  prompt_of req = Some prompt ->
  ToBoolean prompt = true ->
  fetch ollamaUrl (fetch_init prompt) = Resolved response ->
  ok response = true ->
  body response = Some stream ->
  ending stream = Closed ->
  handler fetch req st
  = (Ok {| res_status := 200;
           res_headers := headers;
           res_body := response_body (aggregate (chunks stream)) |},
     {| fullResponse := aggregate (chunks stream);
        trace := (trace st ++ [ReqJson; Fetch ollamaUrl (fetch_init prompt)])
                 ++ flat_map line_log (all_lines (chunks stream)) |}).
Proof.
  intros Hm Hp Ht Hf Hok Hb He.
  rewrite (handler_runs_upstream fetch req prompt st Hm Hp Ht), Hf.
  unfold try_catch, bind, lift. rewrite Hok. cbn [negb]. unfold ret.
  unfold set_fullResponse. cbv beta iota. rewrite Hb.
  rewrite read_loop_run, He. reflexivity.
Qed.

(** An upstream answer outside the 2xx range whose body can be read. *)
Lemma handler_upstream_error req prompt response st :
  method req = str "POST" ->
  prompt_of req = Some prompt ->
  ToBoolean prompt = true ->
  fetch ollamaUrl (fetch_init prompt) = Resolved response ->
  ok response = false ->
  handler fetch req st
  = let error := match text response with
                 | Ok errorText =>
                     ErrorObject (str "Ollama API error: "
                                  ++ N_to_string (status response)
                                  ++ str ", " ++ errorText)
                 | Throw e => e
                 end in
    (Ok {| res_status := 500;
           res_headers := headers;
           res_body :=
             error_body (match error with
                         | ErrorObject message => message
                         | NonError => str "An unknown error occurred"
                         end) |},
     {| fullResponse := fullResponse st;
        trace := (trace st ++ [ReqJson; Fetch ollamaUrl (fetch_init prompt)])
                 ++ [ConsoleError (str "Error:") error] |}).
Proof.
  intros Hm Hp Ht Hf Hok.
  rewrite (handler_runs_upstream fetch req prompt st Hm Hp Ht), Hf.
  unfold try_catch, bind, lift. rewrite Hok. cbn [negb].
  destruct (text response); reflexivity.
Qed.

(** An upstream answer in the 2xx range with no body to read. *)
Lemma handler_no_reader req prompt response st :
  method req = str "POST" ->
  prompt_of req = Some prompt ->
  ToBoolean prompt = true ->
  fetch ollamaUrl (fetch_init prompt) = Resolved response ->
  ok response = true ->
  body response = None ->
  fst (handler fetch req st)
  = Ok {| res_status := 500;
          res_headers := headers;
          res_body := error_body (str "Unable to read response body") |}.
Proof.
  intros Hm Hp Ht Hf Hok Hb.
  rewrite (handler_runs_upstream fetch req prompt st Hm Hp Ht), Hf.
  unfold try_catch, bind, lift. rewrite Hok. cbn [negb]. unfold ret.
  unfold set_fullResponse. cbv beta iota. rewrite Hb. reflexivity.
Qed.

(** A stream that fails in the middle: the error of the read is answered,
    and what had been accumulated is dropped. *)
Lemma handler_stream_errored req prompt response stream e st :
  method req = str "POST" ->
  prompt_of req = Some prompt ->
  ToBoolean prompt = true ->
  fetch ollamaUrl (fetch_init prompt) = Resolved response ->
  ok response = true ->
  body response = Some stream ->
  ending stream = Errored e ->
  fst (handler fetch req st)
  = Ok {| res_status := 500;
          res_headers := headers;
          res_body :=
            error_body (match e with
                        | ErrorObject message => message
                        | NonError => str "An unknown error occurred"
                        end) |}.
Proof.
  intros Hm Hp Ht Hf Hok Hb He.
  rewrite (handler_runs_upstream fetch req prompt st Hm Hp Ht), Hf.
  unfold try_catch, bind, lift. rewrite Hok. cbn [negb]. unfold ret.
  unfold set_fullResponse. cbv beta iota. rewrite Hb.
  rewrite read_loop_run, He. reflexivity.
Qed.

(** ** What the lines of a stream add *)

Lemma nonblank_empty : nonblank [] = false.
Proof. reflexivity. Qed.

Lemma fragment_blank line : nonblank line = false -> fragment line = [].
Proof. unfold fragment, decoded_record. intros ->. reflexivity. Qed.

Lemma fragment_malformed line : JSON_parse line = None -> fragment line = [].
Proof.
  unfold fragment, decoded_record. intros ->.
  destruct (nonblank line); reflexivity.
Qed.

Lemma fragment_carries line r :
  nonblank line = true -> carries line r -> fragment line = record_response r.
Proof.
  intros Hn (props & Hparse & Hresp & _).
  unfold fragment, decoded_record, record_fragment. rewrite Hn, Hparse.
  cbn [Get]. rewrite Hresp. cbn [ToBoolean string_plus ToString].
  destruct (record_response r); reflexivity.
Qed.

Lemma fragments_of_records lines : forall records,
  Forall2 carries (filter nonblank lines) records ->
  flat_map fragment lines = List.concat (map record_response records).
Proof.
  induction lines as [|line lines IH]; intros records H; cbn [filter] in H.
  - inversion H. reflexivity.
  - cbn [flat_map]. destruct (nonblank line) eqn:Hn.
    + inversion H as [|? r ? rs Hc Hrest]; subst.
      cbn [map List.concat]. rewrite (fragment_carries _ _ Hn Hc).
      rewrite (IH _ Hrest). reflexivity.
    + rewrite (fragment_blank _ Hn). apply IH, H.
Qed.

Lemma fragment_same_response_field l1 l2 :
  same_response_field l1 l2 -> fragment l1 = fragment l2.
Proof.
  intros [Hn Hp]. unfold fragment, decoded_record. rewrite Hn.
  destruct (nonblank l2); [|reflexivity].
  destruct (JSON_parse l1) as [v1|], (JSON_parse l2) as [v2|];
    try contradiction; [|reflexivity].
  unfold record_fragment. rewrite Hp. reflexivity.
Qed.

Lemma fragments_same_response_field lines1 lines2 :
  Forall2 same_response_field lines1 lines2 ->
  flat_map fragment lines1 = flat_map fragment lines2.
Proof.
  induction 1 as [|l1 l2 ls1 ls2 H _ IH]; [reflexivity|].
  cbn [flat_map]. rewrite (fragment_same_response_field _ _ H), IH.
  reflexivity.
Qed.

Lemma no_records_no_text lines :
  flat_map (fun line => match decoded_record line with
                        | Some v => [v]
                        | None => []
                        end) lines = [] ->
  flat_map fragment lines = [].
Proof.
  induction lines as [|line lines IH]; [reflexivity|].
  cbn [flat_map]. intros H. apply app_eq_nil in H. destruct H as [H1 H2].
  rewrite (IH H2), app_nil_r. unfold fragment.
  destruct (decoded_record line); [discriminate | reflexivity].
Qed.

End Streams.

(** * The claims *)

Section Aggregation.
Context {E : Engine}.
Variable fetch : Upstream.

(** C1 (as amended).  For a request with a non-empty prompt and an upstream
    stream that closes after delivering the records [r1 .. rn], where no
    record is split by a chunk boundary (every non-blank line of every chunk
    is the JSON text of one record, in order), the success response carries
    the concatenation, in arrival order, of the [response] fields of
    [r1 .. rn], whatever their [done] fields. *)
Theorem C1_whole_lines_aggregated
    (req : Request) (prompt : jsstring) (response : UpstreamResponse)
    (stream : ReadableStream) (records : list OllamaResponse) (st : state) :
  method req = str "POST" ->
  prompt_of req = Some (Some (JString prompt)) ->
  prompt <> [] ->
  fetch ollamaUrl (fetch_init (Some (JString prompt))) = Resolved response ->
  ok response = true ->
  body response = Some stream ->
  ending stream = Closed ->
  Forall2 carries (filter nonblank (all_lines (chunks stream))) records ->
  fst (handler fetch req st)
  = Ok {| res_status := 200;
          res_headers := headers;
          res_body :=
            Some (JSON_stringify
                    (JObject
                       [(str "response",
                         JString (List.concat
                                    (map record_response records)))])) |}.
Proof.
  intros Hm Hp Hne Hf Hok Hb He Hlines.
  rewrite (handler_streamed fetch req _ response stream st Hm Hp); auto.
  - cbn [fst]. unfold aggregate.
    rewrite (fragments_of_records _ _ Hlines). reflexivity.
  - destruct prompt; [contradiction | reflexivity].
Qed.

(** C4.  A line of the upstream stream that fails JSON parsing is skipped:
    the answer is still a success, its text is what the other lines alone
    add up to, and the failure is only logged. *)
Theorem C4_malformed_line_skipped
    (req : Request) (prompt : value) (response : UpstreamResponse)
    (stream : ReadableStream) (before after : list jsstring)
    (bad : jsstring) (st : state) :
  method req = str "POST" ->
  prompt_of req = Some prompt ->
  ToBoolean prompt = true ->
  fetch ollamaUrl (fetch_init prompt) = Resolved response ->
  ok response = true ->
  body response = Some stream ->
  ending stream = Closed ->
  all_lines (chunks stream) = before ++ bad :: after ->
  nonblank bad = true ->
  JSON_parse bad = None ->
  fst (handler fetch req st)
  = Ok {| res_status := 200;
          res_headers := headers;
          res_body :=
            Some (JSON_stringify
                    (JObject
                       [(str "response",
                         JString (flat_map fragment (before ++ after)))])) |}
  /\ trace (snd (handler fetch req st))
     = trace st
       ++ [ReqJson; Fetch ollamaUrl (fetch_init prompt)]
       ++ flat_map line_log before
       ++ [ConsoleError (str "Error parsing JSON:")
                        (ErrorObject (SyntaxError_message bad))]
       ++ flat_map line_log after.
Proof.
  intros Hm Hp Ht Hf Hok Hb He Hlines Hn Hbad.
  rewrite !(handler_streamed fetch req _ response stream _ Hm Hp Ht Hf Hok Hb He).
  cbn [fst snd trace]. unfold aggregate. rewrite Hlines. split.
  - rewrite !flat_map_app. cbn [flat_map].
    rewrite (fragment_malformed _ Hbad). reflexivity.
  - rewrite flat_map_app. cbn [flat_map]. unfold line_log at 2.
    rewrite Hn, Hbad, <- !app_assoc. reflexivity.
Qed.

(** C7.  A stream that closes without having delivered any record gives a
    success whose text is the empty string: status 200 with a body whose
    only property, [response], is the empty string. *)
Theorem C7_no_record_empty_text
    (req : Request) (prompt : value) (response : UpstreamResponse)
    (stream : ReadableStream) (st : state) :
  method req = str "POST" ->
  prompt_of req = Some prompt ->
  ToBoolean prompt = true ->
  fetch ollamaUrl (fetch_init prompt) = Resolved response ->
  ok response = true ->
  body response = Some stream ->
  ending stream = Closed ->
  decoded_records (chunks stream) = [] ->
  fst (handler fetch req st)
  = Ok {| res_status := 200;
          res_headers := headers;
          res_body := Some (q "{'response':''}") |}.
Proof.
  intros Hm Hp Ht Hf Hok Hb He Hnone.
  rewrite (handler_streamed fetch req _ response stream st Hm Hp Ht Hf Hok Hb He).
  cbn [fst]. unfold aggregate.
  rewrite (no_records_no_text _ Hnone). reflexivity.
Qed.

(** C8.  The text returned depends on the [response] fields of the parsed
    lines only: two streams whose lines agree pairwise on blankness, on
    whether they parse and on what [response] reads, and differ at will in
    their [done] fields, give the same response.  No [done] value stops
    the reading or freezes the text: the text is made of the fragment of
    every line of every chunk, and the fragment of a line does not depend
    on the lines before it. *)
Theorem C8_done_is_ignored
    (fetch' : Upstream) (req : Request) (prompt : value)
    (response response' : UpstreamResponse)
    (stream stream' : ReadableStream) (st : state) :
  method req = str "POST" ->
  prompt_of req = Some prompt ->
  ToBoolean prompt = true ->
  fetch ollamaUrl (fetch_init prompt) = Resolved response ->
  fetch' ollamaUrl (fetch_init prompt) = Resolved response' ->
  ok response = true -> ok response' = true ->
  body response = Some stream -> body response' = Some stream' ->
  ending stream = Closed -> ending stream' = Closed ->
  Forall2 same_response_field
          (all_lines (chunks stream)) (all_lines (chunks stream')) ->
  fst (handler fetch req st) = fst (handler fetch' req st)
  /\ fst (handler fetch req st)
     = Ok {| res_status := 200;
             res_headers := headers;
             res_body :=
               Some (JSON_stringify
                       (JObject
                          [(str "response",
                            JString (flat_map fragment
                                       (all_lines (chunks stream))))])) |}.
Proof.
  intros Hm Hp Ht Hf Hf' Hok Hok' Hb Hb' He He' Hlines.
  rewrite (handler_streamed fetch req _ response stream st Hm Hp Ht Hf Hok Hb He).
  rewrite (handler_streamed fetch' req _ response' stream' st Hm Hp Ht Hf' Hok' Hb' He').
  cbn [fst]. unfold aggregate.
  rewrite (fragments_same_response_field _ _ Hlines). split; reflexivity.
Qed.

End Aggregation.

Section Decoder.

(** C2 (as amended).  The decoder holds nothing across chunk boundaries:
    each chunk is decoded and split on its own.  It yields the same records
    whether lines arrive in one chunk or in two when the cut falls right
    after a line feed and the second part does not open with a byte order
    mark. *)
Theorem C2_cut_after_line_feed
    (before after : list bytes) (a b : bytes) :
  starts_with_bom b = false ->
  decoded_records (before ++ [a ++ [LF]; b] ++ after)
  = decoded_records (before ++ [a ++ LF :: b] ++ after).
Proof.
  intros Hb. unfold decoded_records, all_lines.
  set (record := fun line => match decoded_record line with
                             | Some v => [v]
                             | None => []
                             end).
  assert (Hcut : flat_map record (flat_map lines_of [a ++ [LF]; b])
                 = flat_map record (flat_map lines_of [a ++ LF :: b])).
  { cbn [flat_map]. destruct (lines_of_app_LF a b Hb) as (ls & -> & ->).
    rewrite !app_nil_r, !flat_map_app. cbn [flat_map].
    change (record []) with (@nil json). cbn [app].
    rewrite app_nil_r. reflexivity. }
  rewrite !flat_map_app. do 2 f_equal. exact Hcut.
Qed.

End Decoder.

Section ErrorPaths.
Context {E : Engine}.
Variable fetch : Upstream.

(** C3 (as amended).  A POST request whose prompt is the empty string, or
    any other falsy value, or is absent, gets status 500 with the error
    [Prompt is required], and the upstream is never called. *)
Theorem C3_empty_prompt_rejected (req : Request) (prompt : value) (st : state) :
  method req = str "POST" ->
  prompt_of req = Some prompt ->
  ToBoolean prompt = false ->
  handler fetch req st
  = (Ok {| res_status := 500;
           res_headers := headers;
           res_body := Some (q "{'error':'Prompt is required'}") |},
     {| fullResponse := fullResponse st;
        trace := trace st
                 ++ [ReqJson;
                     ConsoleError (str "Error:")
                       (ErrorObject (str "Prompt is required"))] |}).
Proof.
  intros Hm Hp Ht.
  rewrite (handler_falsy_prompt fetch req prompt st Hm Hp Ht). reflexivity.
Qed.

(** C5 (as amended).  An upstream answer whose status is outside 200..299
    gives status 500 with a body whose only property is [error].  When the
    upstream body can be read to its end, the message is made of the
    upstream status code and the body text, and includes both.  When the
    read of the upstream body fails, the message is that of the read error,
    or the generic one when what was thrown is no [Error]: neither the
    status code nor any body text is put in it. *)
Theorem C5_upstream_error
    (req : Request) (prompt : value) (response : UpstreamResponse)
    (st : state) :
  method req = str "POST" ->
  prompt_of req = Some prompt ->
  ToBoolean prompt = true ->
  fetch ollamaUrl (fetch_init prompt) = Resolved response ->
  status response < 200 \/ 299 < status response ->
  exists message,
    fst (handler fetch req st)
    = Ok {| res_status := 500;
            res_headers := headers;
            res_body :=
              Some (JSON_stringify
                      (JObject [(str "error", JString message)])) |}
    /\ match text response with
       | Ok errorText =>
           message = str "Ollama API error: " ++ N_to_string (status response)
                     ++ str ", " ++ errorText
           /\ includes message (N_to_string (status response))
           /\ includes message errorText
       | Throw (ErrorObject read_error) => message = read_error
       | Throw NonError => message = str "An unknown error occurred"
       end.
Proof.
  intros Hm Hp Ht Hf Hstatus.
  assert (Hok : ok response = false).
  { unfold ok. apply andb_false_iff.
    destruct Hstatus; [left; apply N.leb_gt | right; apply N.leb_gt];
      assumption. }
  rewrite (handler_upstream_error fetch req prompt response st Hm Hp Ht Hf Hok).
  cbv zeta. cbn [fst]. eexists. split; [reflexivity|].
  destruct (text response) as [errorText|[read_error|]]; [|reflexivity..].
  repeat split.
  - exists (str "Ollama API error: "), (str ", " ++ errorText). reflexivity.
  - exists (str "Ollama API error: " ++ N_to_string (status response)
            ++ str ", "), [].
    rewrite app_nil_r, <- !app_assoc. reflexivity.
Qed.

(** C6.  A request whose method is neither POST nor OPTIONS gets status 405
    with a body whose only property, [error], is [Method Not Allowed]; the
    run has no effect at all: the request body is not read and the upstream
    is not called. *)
Theorem C6_method_not_allowed (req : Request) (st : state) :
  method req <> str "POST" ->
  method req <> str "OPTIONS" ->
  handler fetch req st
  = (Ok {| res_status := 405;
           res_headers := headers;
           res_body := Some (q "{'error':'Method Not Allowed'}") |},
     st).
Proof.
  intros Hpost Hoptions.
  rewrite (handler_other_method fetch req st Hpost Hoptions). reflexivity.
Qed.

(** C9.  A POST request whose body is not valid JSON gets status 500 with
    a body that is the JSON text of an object whose only property,
    [error], is the message of the syntax error; the run reads the body and
    logs the error, and the upstream is never called. *)
Theorem C9_invalid_json_body (req : Request) (st : state) :
  method req = str "POST" ->
  JSON_parse (TextDecoder_decode (req_body req)) = None ->
  exists body_text,
    handler fetch req st
    = (Ok {| res_status := 500;
             res_headers := headers;
             res_body := Some body_text |},
       {| fullResponse := fullResponse st;
          trace := trace st
                   ++ [ReqJson;
                       ConsoleError (str "Error:")
                         (ErrorObject
                            (SyntaxError_message
                               (TextDecoder_decode (req_body req))))] |})
    /\ body_text
       = JSON_stringify
           (JObject
              [(str "error",
                JString (SyntaxError_message
                           (TextDecoder_decode (req_body req))))])
    /\ JSON_parse body_text
       = Some (JObject
                 [(str "error",
                   JString (SyntaxError_message
                              (TextDecoder_decode (req_body req))))]).
Proof.
  intros Hm Hv.
  rewrite (handler_invalid_json fetch req st Hm Hv).
  eexists. split; [reflexivity|]. split; [reflexivity|].
  apply JSON_parse_stringify_member.
Qed.

(** C10.  The response is a function of the request method, the request
    body and the behaviour of the upstream: two runs that agree on these
    give the same status, headers and body, whatever the other parts of the
    requests and of the upstream answers are, and whatever state each run
    starts from. *)
Theorem C10_response_determined
    (fetch' : Upstream) (req req' : Request) (st st' : state) :
  method req = method req' ->
  req_body req = req_body req' ->
  (forall url init, same_behaviour (fetch url init) (fetch' url init)) ->
  fst (handler fetch req st) = fst (handler fetch' req' st').
Proof.
  intros Hmethod Hbody Hsame.
  destruct (jsstring_eqb (method req) (str "OPTIONS")) eqn:Hoptions.
  { apply jsstring_eqb_eq in Hoptions.
    rewrite !handler_options by congruence. reflexivity. }
  apply jsstring_eqb_neq in Hoptions.
  destruct (jsstring_eqb (method req) (str "POST")) eqn:Hpost.
  2:{ apply jsstring_eqb_neq in Hpost.
      rewrite !handler_other_method by congruence. reflexivity. }
  apply jsstring_eqb_eq in Hpost.
  assert (Hpost' : method req' = str "POST") by congruence.
  destruct (JSON_parse (TextDecoder_decode (req_body req)))
    as [requestBody|] eqn:Hv.
  2:{ rewrite !handler_invalid_json by congruence.
      rewrite Hbody. reflexivity. }
  destruct (destructure requestBody (str "prompt")) as [prompt|e] eqn:Hd.
  2:{ rewrite (handler_destructure_throws fetch req requestBody e) by assumption.
      rewrite (handler_destructure_throws fetch' req' requestBody e)
        by congruence.
      reflexivity. }
  assert (Hp : prompt_of req = Some prompt).
  { unfold prompt_of. rewrite Hv, Hd. reflexivity. }
  assert (Hp' : prompt_of req' = Some prompt).
  { unfold prompt_of. rewrite <- Hbody, Hv, Hd. reflexivity. }
  destruct (ToBoolean prompt) eqn:Ht.
  2:{ rewrite !handler_falsy_prompt with (prompt := prompt) by assumption.
      reflexivity. }
  rewrite (handler_runs_upstream fetch req prompt st Hpost Hp Ht).
  rewrite (handler_runs_upstream fetch' req' prompt st' Hpost' Hp' Ht).
  specialize (Hsame ollamaUrl (fetch_init prompt)).
  destruct (fetch ollamaUrl (fetch_init prompt)) as [r|e],
           (fetch' ollamaUrl (fetch_init prompt)) as [r'|e'];
    cbn [same_behaviour] in Hsame; try contradiction.
  2:{ subst e'. reflexivity. }
  destruct Hsame as [Hstatus Hb].
  unfold try_catch, bind, lift, ok, text. rewrite <- Hstatus, <- Hb.
  destruct ((200 <=? status r) && (status r <=? 299)); cbn [negb].
  - unfold ret, set_fullResponse. cbv beta iota.
    destruct (body r) as [stream|]; [|reflexivity].
    rewrite !read_loop_run. destruct (ending stream); reflexivity.
  - destruct (body r) as [stream|]; [|reflexivity].
    destruct (ending stream); reflexivity.
Qed.

End ErrorPaths.

(** * The claims at concrete inputs *)

Section Instances.
#[local] Existing Instance example_engine.

(** Two records, each on a line of its own chunk. *)
Lemma C1_two_chunks_of_whole_lines :
  fst (handler
         (answering 200
            [ q "{'response':'Hel','done':false}" ++ [LF];
              q "{'response':'lo','done':true}" ++ [LF] ])
         (post (q "{'prompt':'Hi'}")) initial)
  = Ok {| res_status := 200;
          res_headers := headers;
          res_body := Some (q "{'response':'Hello'}") |}.
Proof.
  apply (C1_whole_lines_aggregated
           (answering 200
              [ q "{'response':'Hel','done':false}" ++ [LF];
                q "{'response':'lo','done':true}" ++ [LF] ])
           (post (q "{'prompt':'Hi'}")) (str "Hi")
           {| status := 200; statusText := []; headers_in := [];
              body := Some {| chunks :=
                                [ q "{'response':'Hel','done':false}" ++ [LF];
                                  q "{'response':'lo','done':true}" ++ [LF] ];
                              ending := Closed |} |}
           {| chunks := [ q "{'response':'Hel','done':false}" ++ [LF];
                          q "{'response':'lo','done':true}" ++ [LF] ];
              ending := Closed |}
           [ {| record_response := str "Hel"; record_done := false |};
             {| record_response := str "lo"; record_done := true |} ]
           initial);
    try reflexivity.
  - discriminate.
  - repeat constructor.
    + exists [(str "response", JString (str "Hel")); (str "done", JBool false)].
      repeat split; reflexivity.
    + exists [(str "response", JString (str "lo")); (str "done", JBool true)].
      repeat split; reflexivity.
Defined.

(** One record, with response [ok] and [done] set, delivered in two chunks
    that cut its line: the stream as a whole is the line of the record, yet
    the response carries the empty string, not [ok]. *)
Lemma C1_split_record_lost :
  Forall2 carries
    (filter nonblank
       (all_lines [q "{'resp" ++ q "onse':'ok','done':true}" ++ [LF]]))
    [{| record_response := str "ok"; record_done := true |}]
  /\ fst (handler
            (answering 200 [q "{'resp"; q "onse':'ok','done':true}" ++ [LF]])
            (post (q "{'prompt':'Hi'}")) initial)
     = Ok {| res_status := 200;
             res_headers := headers;
             res_body := Some (q "{'response':''}") |}
  /\ fst (handler
            (answering 200 [q "{'resp"; q "onse':'ok','done':true}" ++ [LF]])
            (post (q "{'prompt':'Hi'}")) initial)
     <> Ok {| res_status := 200;
              res_headers := headers;
              res_body := Some (q "{'response':'ok'}") |}.
Proof.
  split; [|split].
  - repeat constructor.
    exists [(str "response", JString (str "ok")); (str "done", JBool true)].
    repeat split; reflexivity.
  - vm_compute. reflexivity.
  - vm_compute. discriminate.
Qed.

(** Two lines in two chunks cut after the line feed, and in one chunk. *)
Lemma C2_two_lines_cut_between :
  decoded_records
    ([] ++ [ q "{'response':'Hel','done':false}" ++ [LF];
             q "{'response':'lo','done':true}" ++ [LF] ] ++ [])
  = decoded_records
      ([] ++ [ q "{'response':'Hel','done':false}"
               ++ LF :: q "{'response':'lo','done':true}" ++ [LF] ] ++ []).
Proof.
  apply (C2_cut_after_line_feed [] []
           (q "{'response':'Hel','done':false}")
           (q "{'response':'lo','done':true}" ++ [LF])).
  reflexivity.
Defined.

(** One JSON line delivered whole gives one record; the same line cut in
    two chunks gives none: each part fails to parse on its own. *)
Lemma C2_split_line_not_decoded :
  decoded_records [q "{'resp" ++ q "onse':'ok','done':true}" ++ [LF]]
  = [JObject [(str "response", JString (str "ok")); (str "done", JBool true)]]
  /\ decoded_records [q "{'resp"; q "onse':'ok','done':true}" ++ [LF]] = [].
Proof. split; vm_compute; reflexivity. Qed.

(** The empty prompt. *)
Lemma C3_empty_prompt :
  handler (answering 200 []) (post (q "{'prompt':''}")) initial
  = (Ok {| res_status := 500;
           res_headers := headers;
           res_body := Some (q "{'error':'Prompt is required'}") |},
     {| fullResponse := [];
        trace := [ReqJson;
                  ConsoleError (str "Error:")
                    (ErrorObject (str "Prompt is required"))] |}).
Proof.
  apply (C3_empty_prompt_rejected (answering 200 [])
           (post (q "{'prompt':''}")) (Some (JString [])) initial);
    reflexivity.
Defined.

(** A prompt of one space is all white space, yet the handler calls the
    upstream with it and answers with a success. *)
Lemma C3_whitespace_prompt_forwarded :
  prompt_of (post (q "{'prompt':' '}")) = Some (Some (JString (str " ")))
  /\ trim (str " ") = str ""
  /\ handler (answering 200 []) (post (q "{'prompt':' '}")) initial
     = (Ok {| res_status := 200;
              res_headers := headers;
              res_body := Some (q "{'response':''}") |},
        {| fullResponse := [];
           trace := [ReqJson;
                     Fetch ollamaUrl
                       {| init_method := str "POST";
                          init_headers :=
                            [(str "Content-Type", str "application/json")];
                          init_body :=
                            q "{'model':'neural-chat','prompt':' '}" |}] |}).
Proof. repeat split; vm_compute; reflexivity. Qed.

(** A malformed line followed by a record. *)
Lemma C4_garbage_then_record :
  fst (handler
         (answering 200
            [str "oops" ++ [LF] ++ q "{'response':'x','done':true}" ++ [LF]])
         (post (q "{'prompt':'Hi'}")) initial)
  = Ok {| res_status := 200;
          res_headers := headers;
          res_body := Some (q "{'response':'x'}") |}
  /\ trace (snd (handler
                   (answering 200
                      [str "oops" ++ [LF]
                       ++ q "{'response':'x','done':true}" ++ [LF]])
                   (post (q "{'prompt':'Hi'}")) initial))
     = [ReqJson;
        Fetch ollamaUrl (fetch_init (Some (JString (str "Hi"))));
        ConsoleError (str "Error parsing JSON:")
                     (ErrorObject (SyntaxError_message (str "oops")))].
Proof.
  apply (C4_malformed_line_skipped
           (answering 200
              [str "oops" ++ [LF] ++ q "{'response':'x','done':true}" ++ [LF]])
           (post (q "{'prompt':'Hi'}")) (Some (JString (str "Hi")))
           {| status := 200; statusText := []; headers_in := [];
              body := Some {| chunks :=
                                [str "oops" ++ [LF]
                                 ++ q "{'response':'x','done':true}" ++ [LF]];
                              ending := Closed |} |}
           {| chunks := [str "oops" ++ [LF]
                         ++ q "{'response':'x','done':true}" ++ [LF]];
              ending := Closed |}
           [] [q "{'response':'x','done':true}"; []] (str "oops") initial);
    reflexivity.
Defined.

(** Status 503 with the body [overloaded]. *)
Lemma C5_overloaded :
  fst (handler (answering 503 [str "overloaded"])
               (post (q "{'prompt':'Hi'}")) initial)
  = Ok {| res_status := 500;
          res_headers := headers;
          res_body := Some (q "{'error':'Ollama API error: 503, overloaded'}")
       |}.
Proof.
  destruct (C5_upstream_error (answering 503 [str "overloaded"])
              (post (q "{'prompt':'Hi'}")) (Some (JString (str "Hi")))
              {| status := 503; statusText := []; headers_in := [];
                 body := Some {| chunks := [str "overloaded"];
                                 ending := Closed |} |}
              initial eq_refl eq_refl eq_refl eq_refl
              (or_intror (eq_refl : (299 ?= 503) = Lt)))
    as (message & Hresponse & Hmessage).
  change (message = str "Ollama API error: 503, overloaded"
          /\ includes message (N_to_string 503)
          /\ includes message (str "overloaded")) in Hmessage.
  destruct Hmessage as (-> & _ & _).
  exact Hresponse.
Defined.

(** Status 503 with a body whose read fails: the answer carries the message
    of the read error, and the status code of the upstream is nowhere in
    it. *)
Lemma C5_unreadable_error_body :
  fst (handler
         (answering_with 503
            (Some {| chunks := [str "over"];
                     ending :=
                       Errored (ErrorObject (str "connection reset")) |}))
         (post (q "{'prompt':'Hi'}")) initial)
  = Ok {| res_status := 500;
          res_headers := headers;
          res_body := Some (q "{'error':'connection reset'}") |}
  /\ ~ includes (q "{'error':'connection reset'}") (N_to_string 503).
Proof.
  split; [vm_compute; reflexivity|].
  intros (pre & post & H).
  assert (Hin : In 53 (pre ++ N_to_string 503 ++ post)).
  { apply in_or_app. right. left. reflexivity. }
  rewrite <- H in Hin. vm_compute in Hin.
  repeat (destruct Hin as [Hin|Hin]; [discriminate Hin|]). destruct Hin.
Qed.

(** A GET request. *)
Lemma C6_get :
  handler (answering 200 [])
          {| method := str "GET"; url := str "http://localhost:8000/";
             req_headers := []; req_body := [] |}
          initial
  = (Ok {| res_status := 405;
           res_headers := headers;
           res_body := Some (q "{'error':'Method Not Allowed'}") |},
     initial).
Proof.
  apply (C6_method_not_allowed (answering 200 [])
           {| method := str "GET"; url := str "http://localhost:8000/";
              req_headers := []; req_body := [] |} initial);
    discriminate.
Defined.

(** A stream that closes at once. *)
Lemma C7_closed_at_once :
  fst (handler (answering 200 []) (post (q "{'prompt':'Hi'}")) initial)
  = Ok {| res_status := 200;
          res_headers := headers;
          res_body := Some (q "{'response':''}") |}.
Proof.
  apply (C7_no_record_empty_text (answering 200 [])
           (post (q "{'prompt':'Hi'}")) (Some (JString (str "Hi")))
           {| status := 200; statusText := []; headers_in := [];
              body := Some {| chunks := []; ending := Closed |} |}
           {| chunks := []; ending := Closed |} initial);
    reflexivity.
Defined.

(** The same two fragments with [done] set on the first record and with
    [done] set on none. *)
Lemma C8_done_first_or_never :
  fst (handler
         (answering 200
            [ q "{'response':'a','done':true}" ++ [LF];
              q "{'response':'b','done':false}" ++ [LF] ])
         (post (q "{'prompt':'Hi'}")) initial)
  = fst (handler
           (answering 200
              [ q "{'response':'a','done':false}" ++ [LF];
                q "{'response':'b','done':false}" ++ [LF] ])
           (post (q "{'prompt':'Hi'}")) initial)
  /\ fst (handler
            (answering 200
               [ q "{'response':'a','done':true}" ++ [LF];
                 q "{'response':'b','done':false}" ++ [LF] ])
            (post (q "{'prompt':'Hi'}")) initial)
     = Ok {| res_status := 200;
             res_headers := headers;
             res_body := Some (q "{'response':'ab'}") |}.
Proof.
  apply (C8_done_is_ignored
           (answering 200
              [ q "{'response':'a','done':true}" ++ [LF];
                q "{'response':'b','done':false}" ++ [LF] ])
           (answering 200
              [ q "{'response':'a','done':false}" ++ [LF];
                q "{'response':'b','done':false}" ++ [LF] ])
           (post (q "{'prompt':'Hi'}")) (Some (JString (str "Hi")))
           {| status := 200; statusText := []; headers_in := [];
              body := Some {| chunks :=
                                [ q "{'response':'a','done':true}" ++ [LF];
                                  q "{'response':'b','done':false}" ++ [LF] ];
                              ending := Closed |} |}
           {| status := 200; statusText := []; headers_in := [];
              body := Some {| chunks :=
                                [ q "{'response':'a','done':false}" ++ [LF];
                                  q "{'response':'b','done':false}" ++ [LF] ];
                              ending := Closed |} |}
           {| chunks := [ q "{'response':'a','done':true}" ++ [LF];
                          q "{'response':'b','done':false}" ++ [LF] ];
              ending := Closed |}
           {| chunks := [ q "{'response':'a','done':false}" ++ [LF];
                          q "{'response':'b','done':false}" ++ [LF] ];
              ending := Closed |}
           initial);
    try reflexivity.
  repeat constructor.
Defined.

(** A body that stops in the middle of an object. *)
Lemma C9_truncated_body :
  handler (answering 200 []) (post (q "{'prompt'")) initial
  = (Ok {| res_status := 500;
           res_headers := headers;
           res_body := Some (q "{'error':'Unexpected token in JSON'}") |},
     {| fullResponse := [];
        trace := [ReqJson;
                  ConsoleError (str "Error:")
                    (ErrorObject (SyntaxError_message (q "{'prompt'")))] |}).
Proof.
  destruct (C9_invalid_json_body (answering 200 [])
              (post (q "{'prompt'")) initial eq_refl eq_refl)
    as (body_text & Hrun & Hbody & _).
  rewrite Hbody in Hrun. exact Hrun.
Defined.

(** Two requests to different paths with different headers, and two
    upstream answers with different status texts and headers. *)
Lemma C10_same_method_body_upstream :
  fst (handler
         (answering 200 [q "{'response':'x','done':true}" ++ [LF]])
         (post (q "{'prompt':'Hi'}")) initial)
  = fst (handler
           (fun _ _ =>
              Resolved
                {| status := 200;
                   statusText := str "OK";
                   headers_in := [(str "Content-Type",
                                   str "application/x-ndjson")];
                   body := Some {| chunks :=
                                     [q "{'response':'x','done':true}" ++ [LF]];
                                   ending := Closed |} |})
           {| method := str "POST"; url := str "http://localhost:8000/";
              req_headers := []; req_body := q "{'prompt':'Hi'}" |}
           {| fullResponse := str "left over"; trace := [ReqJson] |}).
Proof.
  apply (C10_response_determined
           (answering 200 [q "{'response':'x','done':true}" ++ [LF]])
           (fun _ _ =>
              Resolved
                {| status := 200;
                   statusText := str "OK";
                   headers_in := [(str "Content-Type",
                                   str "application/x-ndjson")];
                   body := Some {| chunks :=
                                     [q "{'response':'x','done':true}" ++ [LF]];
                                   ending := Closed |} |})
           (post (q "{'prompt':'Hi'}"))
           {| method := str "POST"; url := str "http://localhost:8000/";
              req_headers := []; req_body := q "{'prompt':'Hi'}" |}
           initial
           {| fullResponse := str "left over"; trace := [ReqJson] |});
    try reflexivity.
  intros url init. split; reflexivity.
Defined.

End Instances.

(** * More of the handler: the shape of every run *)

Section RunShapes.
Context {E : Engine}.
Variable fetch : Upstream.

Lemma line_logs_are_line_logs lines :
  Forall is_line_log (flat_map line_log lines).
Proof.
  apply Forall_flat_map. apply Forall_forall. intros line _.
  unfold line_log. destruct (nonblank line); [|constructor].
  destruct (JSON_parse line) as [v|].
  - destruct (record_fragment v); repeat constructor. eexists; reflexivity.
  - repeat constructor. eexists; reflexivity.
Qed.

(** The run after the upstream call, whatever the upstream does. *)
Lemma handler_after_fetch req prompt :
  method req = str "POST" ->
  prompt_of req = Some prompt ->
  ToBoolean prompt = true ->
  exists response logs st',
    handler fetch req initial = (Ok response, st')
    /\ Forall is_line_log logs
    /\ ((exists error,
           response = failure_response error
           /\ trace st' = [ReqJson; Fetch ollamaUrl (fetch_init prompt)]
                          ++ logs ++ [ConsoleError (str "Error:") error])
        \/ (exists text,
              response = success_response text
              /\ trace st' = [ReqJson; Fetch ollamaUrl (fetch_init prompt)]
                             ++ logs)).
Proof.
  intros Hm Hp Ht.
  rewrite (handler_runs_upstream fetch req prompt initial Hm Hp Ht).
  cbn [initial trace fullResponse app].
  destruct (fetch ollamaUrl (fetch_init prompt)) as [r|e].
  2:{ exists (failure_response e), [].
      eexists. split; [reflexivity|].
      split; [constructor|]. left. exists e. split; reflexivity. }
  unfold try_catch, bind, lift.
  destruct (ok r); cbn [negb].
  - unfold ret, set_fullResponse. cbv beta iota.
    destruct (body r) as [stream|].
    + rewrite read_loop_run. cbn [trace fullResponse app].
      destruct (ending stream) as [|e].
      * exists (success_response (str "" ++ aggregate (chunks stream))),
          (flat_map line_log (all_lines (chunks stream))).
        eexists. split; [reflexivity|].
        split; [apply line_logs_are_line_logs|].
        right. exists (str "" ++ aggregate (chunks stream)).
        split; reflexivity.
      * exists (failure_response e),
          (flat_map line_log (all_lines (chunks stream))).
        eexists. split; [reflexivity|].
        split; [apply line_logs_are_line_logs|].
        left. exists e. split; reflexivity.
    + exists (failure_response
                (ErrorObject (str "Unable to read response body"))), [].
      eexists. split; [reflexivity|]. split; [constructor|].
      left. eexists. split; reflexivity.
  - destruct (text r) as [t|e].
    + exists (failure_response
                (ErrorObject (str "Ollama API error: "
                              ++ N_to_string (status r) ++ str ", " ++ t))), [].
      eexists. split; [reflexivity|]. split; [constructor|].
      left. eexists. split; reflexivity.
    + exists (failure_response e), [].
      eexists. split; [reflexivity|]. split; [constructor|].
      left. exists e. split; reflexivity.
Qed.

(** Every run answers, and has one of the five shapes. *)
Lemma handler_run_shape req :
  exists response,
    answer fetch req = Ok response
    /\ run_shape req response (effects fetch req).
Proof.
  unfold answer, effects.
  destruct (jsstring_eqb (method req) (str "OPTIONS")) eqn:Hoptions.
  { apply jsstring_eqb_eq in Hoptions.
    rewrite (handler_options fetch req initial Hoptions).
    eexists. split; [reflexivity|]. apply run_preflight. assumption. }
  apply jsstring_eqb_neq in Hoptions.
  destruct (jsstring_eqb (method req) (str "POST")) eqn:Hpost.
  2:{ apply jsstring_eqb_neq in Hpost.
      rewrite (handler_other_method fetch req initial Hpost Hoptions).
      eexists. split; [reflexivity|]. apply run_method; assumption. }
  apply jsstring_eqb_eq in Hpost.
  destruct (JSON_parse (TextDecoder_decode (req_body req)))
    as [requestBody|] eqn:Hv.
  2:{ rewrite (handler_invalid_json fetch req initial Hpost Hv).
      eexists. split; [reflexivity|]. apply run_refused; [assumption|].
      intros prompt Hp. unfold prompt_of in Hp. rewrite Hv in Hp.
      discriminate. }
  destruct (destructure requestBody (str "prompt")) as [prompt|e] eqn:Hd.
  2:{ rewrite (handler_destructure_throws fetch req requestBody e initial
                 Hpost Hv Hd).
      eexists. split; [reflexivity|]. apply run_refused; [assumption|].
      intros prompt Hp. unfold prompt_of in Hp. rewrite Hv, Hd in Hp.
      discriminate. }
  assert (Hp : prompt_of req = Some prompt).
  { unfold prompt_of. rewrite Hv, Hd. reflexivity. }
  destruct (ToBoolean prompt) eqn:Ht.
  2:{ rewrite (handler_falsy_prompt fetch req prompt initial Hpost Hp Ht).
      eexists. split; [reflexivity|]. apply run_refused; [assumption|].
      intros prompt' Hp'. congruence. }
  destruct (handler_after_fetch req prompt Hpost Hp Ht)
    as (response & logs & st' & Hrun & Hlogs & Hcase).
  rewrite Hrun. cbn [fst snd]. exists response. split; [reflexivity|].
  destruct Hcase as [(e & -> & ->)|(t & -> & ->)].
  - apply run_failed; assumption.
  - apply run_succeeded; assumption.
Qed.

End RunShapes.

Section RunFacts.
Context {E : Engine}.
Variable fetch : Upstream.

Lemma line_log_not_fetch logs :
  Forall is_line_log logs -> filter is_fetch logs = [].
Proof.
  induction 1 as [|ev logs [e ->] _ IH]; [reflexivity|]. exact IH.
Qed.

Lemma line_log_not_error_log logs :
  Forall is_line_log logs -> filter is_error_log logs = [].
Proof.
  induction 1 as [|ev logs [e ->] _ IH]; [reflexivity|]. exact IH.
Qed.

Lemma line_log_in logs ev :
  Forall is_line_log logs -> In ev logs -> is_line_log ev.
Proof. intros H Hin. rewrite Forall_forall in H. auto. Qed.

(** X1.  The preflight: a request with method OPTIONS gets status 204 with
    no body and the three CORS headers, whatever its body, and the run has
    no effect: the body is not read and the upstream is not called. *)
Theorem X1_preflight (req : Request) (st : state) :
  method req = str "OPTIONS" ->
  handler fetch req st
  = (Ok {| res_status := 204;
           res_headers :=
             [ (str "Access-Control-Allow-Origin", str "http://localhost:3000");
               (str "Access-Control-Allow-Methods", str "POST, OPTIONS");
               (str "Access-Control-Allow-Headers", str "Content-Type") ];
           res_body := None |},
     st).
Proof. intros Hm. rewrite (handler_options fetch req st Hm). reflexivity. Qed.

(** X2.  No exception escapes the handler: every run answers, and the
    status of the answer is 200, 204, 405 or 500. *)
Theorem X2_always_answers (req : Request) :
  exists response,
    answer fetch req = Ok response
    /\ (res_status response = 200 \/ res_status response = 204
        \/ res_status response = 405 \/ res_status response = 500).
Proof.
  destruct (handler_run_shape fetch req) as (response & Ha & Hshape).
  exists response. split; [assumption|].
  destruct Hshape; cbn [res_status preflight_response method_response
                           failure_response success_response]; auto.
Qed.

(** X3.  Every answer but the preflight carries the two headers of lines 74
    to 77 and a body that is the JSON text of an object with exactly one
    property, a string: [response] when the status is 200, [error]
    otherwise. *)
Theorem X3_body_is_one_string_property (req : Request) (response : Response) :
  method req <> str "OPTIONS" ->
  answer fetch req = Ok response ->
  res_headers response
  = [ (str "Access-Control-Allow-Origin", str "http://localhost:3000");
      (str "Content-Type", str "application/json") ]
  /\ exists key text,
       option_map JSON_parse (res_body response)
       = Some (Some (JObject [(key, JString text)]))
       /\ ((res_status response = 200 /\ key = str "response")
           \/ (res_status response <> 200 /\ key = str "error")).
Proof.
  intros Hm Ha.
  destruct (handler_run_shape fetch req) as (response' & Ha' & Hshape).
  rewrite Ha in Ha'. injection Ha' as <-.
  destruct Hshape as [Ho| |e _ _|p logs e _ _ _ _|p logs t _ _ _ _];
    [contradiction| | | |];
    cbn [res_headers res_body res_status method_response failure_response
         success_response];
    (split; [reflexivity|]).
  - exists (str "error"), (str "Method Not Allowed").
    split; [apply error_body_read_back | right; split; [discriminate|reflexivity]].
  - exists (str "error"), (message_of e).
    split; [apply error_body_read_back | right; split; [discriminate|reflexivity]].
  - exists (str "error"), (message_of e).
    split; [apply error_body_read_back | right; split; [discriminate|reflexivity]].
  - exists (str "response"), t.
    split; [apply response_body_read_back | left; split; reflexivity].
Qed.

(** X4.  The upstream is called at most once in a run, never retried, and
    only for a POST request whose prompt is truthy; the call is then the
    one of lines 113 to 119, on the Ollama URL. *)
Theorem X4_upstream_called_at_most_once (req : Request) :
  (List.length (filter is_fetch (effects fetch req)) <= 1)%nat
  /\ forall url init,
       In (Fetch url init) (effects fetch req) ->
       method req = str "POST"
       /\ exists prompt,
            prompt_of req = Some prompt
            /\ ToBoolean prompt = true
            /\ url = ollamaUrl
            /\ init = fetch_init prompt.
Proof.
  destruct (handler_run_shape fetch req) as (response & _ & Hshape).
  destruct Hshape as [| |e Hm Hp|p logs e Hm Hp Ht Hlogs|p logs t Hm Hp Ht Hlogs].
  - split; [cbn; lia | intros url init Hin; destruct Hin].
  - split; [cbn; lia | intros url init Hin; destruct Hin].
  - split; [cbn; lia|].
    intros url init Hin. cbn [In] in Hin.
    destruct Hin as [H|[H|H]]; [discriminate H|discriminate H|destruct H].
  - split.
    + cbn [app filter is_fetch]. rewrite filter_app, (line_log_not_fetch _ Hlogs).
      cbn. lia.
    + intros url init Hin. cbn [app In] in Hin.
      destruct Hin as [H|[H|Hin]]; [discriminate H| |].
      * injection H as <- <-. split; [assumption|]. exists p. auto.
      * apply in_app_or in Hin. destruct Hin as [Hin|Hin].
        -- destruct (line_log_in _ _ Hlogs Hin) as [e' H]. discriminate H.
        -- cbn [In] in Hin. destruct Hin as [H|H]; [discriminate H|destruct H].
  - split.
    + cbn [app filter is_fetch]. rewrite (line_log_not_fetch _ Hlogs).
      cbn. lia.
    + intros url init Hin. cbn [app In] in Hin.
      destruct Hin as [H|[H|Hin]]; [discriminate H| |].
      * injection H as <- <-. split; [assumption|]. exists p. auto.
      * destruct (line_log_in _ _ Hlogs Hin) as [e' H]. discriminate H.
Qed.

(** X5.  Failures are logged, and nothing else is logged as a failure: the
    run logs one entry with the label of line 181 when the status is 500,
    and none otherwise; in a failed run it is the last effect. *)
Theorem X5_failure_logged_once (req : Request) (response : Response) :
  answer fetch req = Ok response ->
  List.length (filter is_error_log (effects fetch req))
  = (if res_status response =? 500 then 1 else 0)%nat
  /\ (res_status response = 500 ->
      exists before error,
        effects fetch req = before ++ [ConsoleError (str "Error:") error]
        /\ res_body response
           = Some (JSON_stringify
                     (JObject [(str "error", JString (message_of error))]))).
Proof.
  intros Ha.
  destruct (handler_run_shape fetch req) as (response' & Ha' & Hshape).
  rewrite Ha in Ha'. injection Ha' as <-.
  destruct Hshape as [| |e Hm Hp|p logs e Hm Hp Ht Hlogs|p logs t Hm Hp Ht Hlogs];
    cbn [res_status failure_response success_response preflight_response
         method_response].
  - split; [reflexivity | discriminate].
  - split; [reflexivity | discriminate].
  - split; [reflexivity|]. intros _. exists [ReqJson], e. split; reflexivity.
  - split.
    + cbn [app filter is_error_log]. rewrite filter_app.
      rewrite (line_log_not_error_log _ Hlogs). reflexivity.
    + intros _. exists ([ReqJson; Fetch ollamaUrl (fetch_init p)] ++ logs), e.
      split; [|reflexivity]. rewrite <- app_assoc. reflexivity.
  - split; [|discriminate].
    cbn [app filter is_error_log]. rewrite (line_log_not_error_log _ Hlogs).
    reflexivity.
Qed.

End RunFacts.

Section FailurePaths.
Context {E : Engine}.
Variable fetch : Upstream.

Lemma run_from_initial req prompt :
  method req = str "POST" ->
  prompt_of req = Some prompt ->
  ToBoolean prompt = true ->
  handler fetch req initial
  = try_catch
      (response <- lift (match fetch ollamaUrl (fetch_init prompt) with
                         | Resolved response => Ok response
                         | Rejected e => Throw e
                         end) ;;
       (if negb (ok response) then
          errorText <- lift (text response) ;;
          throw (ErrorObject (str "Ollama API error: "
                              ++ N_to_string (status response)
                              ++ str ", " ++ errorText))
        else ret tt) ;;
       let reader := body response in
       set_fullResponse (str "") ;;
       match reader with
       | None => throw (ErrorObject (str "Unable to read response body"))
       | Some reader =>
           read_loop (chunks reader) (ending reader) ;;
           fullResponse <- get_fullResponse ;;
           ret {| res_status := 200;
                  res_headers := headers;
                  res_body := response_body fullResponse |}
       end)
      (fun error =>
         console_error (str "Error:") error ;;
         ret {| res_status := 500;
                res_headers := headers;
                res_body :=
                  error_body (match error with
                              | ErrorObject message => message
                              | NonError => str "An unknown error occurred"
                              end) |})
      {| fullResponse := [];
         trace := [ReqJson; Fetch ollamaUrl (fetch_init prompt)] |}.
Proof.
  intros Hm Hp Ht.
  rewrite (handler_runs_upstream fetch req prompt initial Hm Hp Ht).
  reflexivity.
Qed.

(** X6.  When the upstream call itself fails (the promise of [fetch]
    rejects), the answer is status 500 with the message of the error, or
    with [An unknown error occurred] when what was thrown is no [Error];
    the failure is logged and nothing is read. *)
Theorem X6_fetch_rejected (req : Request) (prompt : value) (error : thrown) :
  method req = str "POST" ->
  prompt_of req = Some prompt ->
  ToBoolean prompt = true ->
  fetch ollamaUrl (fetch_init prompt) = Rejected error ->
  answer fetch req
  = Ok {| res_status := 500;
          res_headers := headers;
          res_body :=
            Some (JSON_stringify
                    (JObject
                       [(str "error",
                         JString
                           (match error with
                            | ErrorObject message => message
                            | NonError => str "An unknown error occurred"
                            end))])) |}
  /\ effects fetch req
     = [ReqJson; Fetch ollamaUrl (fetch_init prompt);
        ConsoleError (str "Error:") error].
Proof.
  intros Hm Hp Ht Hf. unfold answer, effects.
  rewrite (run_from_initial req prompt Hm Hp Ht), Hf. split; reflexivity.
Qed.

(** X7.  An upstream answer in the 2xx range that has no body (as a 204
    has) is a failure: status 500 with [Unable to read response body]. *)
Theorem X7_no_body_to_read
    (req : Request) (prompt : value) (response : UpstreamResponse) :
  method req = str "POST" ->
  prompt_of req = Some prompt ->
  ToBoolean prompt = true ->
  fetch ollamaUrl (fetch_init prompt) = Resolved response ->
  200 <= status response <= 299 ->
  body response = None ->
  answer fetch req
  = Ok {| res_status := 500;
          res_headers := headers;
          res_body :=
            Some (JSON_stringify
                    (JObject [(str "error", JString (str "Unable to read response body"))])) |}
  /\ effects fetch req
     = [ReqJson; Fetch ollamaUrl (fetch_init prompt);
        ConsoleError (str "Error:")
          (ErrorObject (str "Unable to read response body"))].
Proof.
  intros Hm Hp Ht Hf [Hlo Hhi] Hb. unfold answer, effects.
  assert (Hok : ok response = true).
  { unfold ok. apply andb_true_iff. split; apply N.leb_le; assumption. }
  rewrite (run_from_initial req prompt Hm Hp Ht), Hf.
  unfold try_catch, bind, lift. rewrite Hok. cbn [negb]. unfold ret.
  unfold set_fullResponse. cbv beta iota. rewrite Hb. split; reflexivity.
Qed.

(** X8.  When a read of the stream rejects after some chunks, the answer is
    status 500 with the message of that error: the text accumulated from
    the chunks already read is not returned.  The lines read before are
    still logged where they failed to parse. *)
Theorem X8_stream_fails_midway
    (req : Request) (prompt : value) (response : UpstreamResponse)
    (stream : ReadableStream) (error : thrown) :
  method req = str "POST" ->
  prompt_of req = Some prompt ->
  ToBoolean prompt = true ->
  fetch ollamaUrl (fetch_init prompt) = Resolved response ->
  200 <= status response <= 299 ->
  body response = Some stream ->
  ending stream = Errored error ->
  answer fetch req
  = Ok {| res_status := 500;
          res_headers := headers;
          res_body :=
            Some (JSON_stringify
                    (JObject
                       [(str "error",
                         JString
                           (match error with
                            | ErrorObject message => message
                            | NonError => str "An unknown error occurred"
                            end))])) |}
  /\ effects fetch req
     = [ReqJson; Fetch ollamaUrl (fetch_init prompt)]
       ++ flat_map line_log (all_lines (chunks stream))
       ++ [ConsoleError (str "Error:") error].
Proof.
  intros Hm Hp Ht Hf [Hlo Hhi] Hb He. unfold answer, effects.
  assert (Hok : ok response = true).
  { unfold ok. apply andb_true_iff. split; apply N.leb_le; assumption. }
  rewrite (run_from_initial req prompt Hm Hp Ht), Hf.
  unfold try_catch, bind, lift. rewrite Hok. cbn [negb]. unfold ret.
  unfold set_fullResponse. cbv beta iota. rewrite Hb.
  rewrite read_loop_run, He. split; reflexivity.
Qed.

(** X9.  A request body that is valid JSON but has no [prompt] property to
    read (a number, a string, a boolean, an array, or an object without
    the key) is answered like an empty prompt: status 500 with [Prompt is
    required], and no upstream call. *)
Theorem X9_body_without_prompt (req : Request) (requestBody : json) :
  method req = str "POST" ->
  JSON_parse (TextDecoder_decode (req_body req)) = Some requestBody ->
  requestBody <> JNull ->
  (forall props, requestBody = JObject props ->
                 lookup (str "prompt") props = None) ->
  answer fetch req
  = Ok {| res_status := 500;
          res_headers := headers;
          res_body :=
            Some (JSON_stringify
                    (JObject [(str "error", JString (str "Prompt is required"))])) |}
  /\ effects fetch req
     = [ReqJson;
        ConsoleError (str "Error:") (ErrorObject (str "Prompt is required"))].
Proof.
  intros Hm Hv Hnull Hprops. unfold answer, effects.
  assert (Hp : prompt_of req = Some undefined).
  { unfold prompt_of. rewrite Hv.
    destruct requestBody; try reflexivity; [contradiction|].
    cbn [destructure]. rewrite (Hprops _ eq_refl). reflexivity. }
  rewrite (handler_falsy_prompt fetch req undefined initial Hm Hp eq_refl).
  split; reflexivity.
Qed.

(** X10.  A request body that is the JSON text [null] fails in the
    destructuring of line 95: status 500 with the message of that
    [TypeError], and no upstream call. *)
Theorem X10_null_body (req : Request) :
  method req = str "POST" ->
  JSON_parse (TextDecoder_decode (req_body req)) = Some JNull ->
  answer fetch req
  = Ok {| res_status := 500;
          res_headers := headers;
          res_body :=
            Some (JSON_stringify
                    (JObject
                       [(str "error",
                         JString (TypeError_destructure_null
                                    (str "prompt")))])) |}
  /\ effects fetch req
     = [ReqJson;
        ConsoleError (str "Error:")
          (ErrorObject (TypeError_destructure_null (str "prompt")))].
Proof.
  intros Hm Hv. unfold answer, effects.
  rewrite (handler_destructure_throws fetch req JNull _ initial Hm Hv eq_refl).
  split; reflexivity.
Qed.

End FailurePaths.

Section Lines.
Context {E : Engine}.

(** X11.  A line that is valid JSON but no object adds nothing to the text.
    A number, a string, a boolean or an array is passed over silently; the
    text [null] is reported under [Error parsing JSON:] although it parsed,
    since reading [response] of [null] throws inside the same [try]. *)
Theorem X11_line_that_is_no_object (line : jsstring) (v : json) (st : state) :
  nonblank line = true ->
  JSON_parse line = Some v ->
  (forall props, v <> JObject props) ->
  process_line line st
  = (Ok tt,
     {| fullResponse := fullResponse st;
        trace := trace st
                 ++ match v with
                    | JNull =>
                        [ConsoleError (str "Error parsing JSON:")
                           (ErrorObject (TypeError_read_null (str "response")))]
                    | _ => []
                    end |}).
Proof.
  intros Hn Hv Hobj. rewrite process_line_run.
  unfold fragment, line_log, decoded_record, record_fragment.
  rewrite Hn, Hv.
  destruct v; cbn [Get ToBoolean undefined]; rewrite ?app_nil_r;
    try reflexivity.
  exfalso. eapply Hobj. reflexivity.
Qed.


(** X13.  What the loop has accumulated is kept by the reads that follow.
    Reading the chunks of two sequences one after the other is reading the
    first sequence to its end, then the second from the state reached;
    the text after both is the text after the first, unchanged, followed
    by the fragments of the lines of the second, in order, and the log
    after both is the log after the first followed by the entries of the
    lines of the second.  This holds whether the stream then closes or
    fails. *)
Theorem X13_loop_composes
    (first second : list bytes) (close : stream_end) (st : state) :
  let reached := snd (read_loop first Closed st) in
  let final := snd (read_loop (first ++ second) close st) in
  read_loop (first ++ second) close st = read_loop second close reached
  /\ fullResponse reached
     = fullResponse st ++ flat_map fragment (all_lines first)
  /\ fullResponse final
     = fullResponse reached ++ flat_map fragment (all_lines second)
  /\ trace reached = trace st ++ flat_map line_log (all_lines first)
  /\ trace final = trace reached ++ flat_map line_log (all_lines second).
Proof.
  cbv zeta. rewrite !read_loop_run. cbn [snd fullResponse trace].
  unfold aggregate, all_lines. rewrite !flat_map_app, !app_assoc.
  repeat split; reflexivity.
Qed.

End Lines.

Section LastLine.
Context {E : Engine}.
Variable fetch : Upstream.

Lemma split_lines_no_LF s :
  ~ In LF s -> split_lines s = [s].
Proof.
  induction s as [|c s IH]; intros Hno; [reflexivity|].
  cbn [split_lines]. destruct (c =? LF) eqn:Hc.
  - apply N.eqb_eq in Hc. exfalso. apply Hno. left. assumption.
  - rewrite IH; [reflexivity|]. intros Hin. apply Hno. right. assumption.
Qed.

(** X14.  A record needs no line feed after it: what follows the last line
    feed of a chunk, or the whole chunk when it has no line feed, is
    parsed like any line when the chunk has been read.  A stream whose
    last chunk ends with the JSON text of a record, and no line feed after
    it, has the response of that record at the end of its text. *)
Theorem X14_last_line_without_line_feed
    (req : Request) (prompt : value) (response : UpstreamResponse)
    (stream : ReadableStream) (earlier : list bytes) (value : bytes)
    (before last : jsstring) (r : OllamaResponse) :
  method req = str "POST" ->
  prompt_of req = Some prompt ->
  ToBoolean prompt = true ->
  fetch ollamaUrl (fetch_init prompt) = Resolved response ->
  200 <= status response <= 299 ->
  body response = Some stream ->
  ending stream = Closed ->
  chunks stream = earlier ++ [value] ->
  TextDecoder_decode value = before ++ last ->
  before = [] \/ (exists head, before = head ++ [LF]) ->
  ~ In LF last ->
  nonblank last = true ->
  carries last r ->
  answer fetch req
  = Ok {| res_status := 200;
          res_headers := headers;
          res_body :=
            Some (JSON_stringify
                    (JObject
                       [(str "response",
                         JString (flat_map fragment (all_lines earlier)
                                  ++ flat_map fragment (split_lines before)
                                  ++ record_response r))])) |}.
Proof.
  intros Hm Hp Ht Hf [Hlo Hhi] Hb He Hchunks Hvalue Hbefore Hno Hn Hcarries.
  unfold answer.
  assert (Hok : ok response = true).
  { unfold ok. apply andb_true_iff. split; apply N.leb_le; assumption. }
  rewrite (handler_streamed fetch req prompt response stream initial
             Hm Hp Ht Hf Hok Hb He).
  cbn [fst]. rewrite Hchunks. unfold aggregate, all_lines.
  rewrite flat_map_app. cbn [flat_map]. rewrite app_nil_r.
  unfold lines_of at 2. rewrite Hvalue.
  assert (Hlines : flat_map fragment (split_lines (before ++ last))
                   = flat_map fragment (split_lines before)
                     ++ record_response r).
  { destruct Hbefore as [-> | [head ->]].
    - cbn [app]. rewrite (split_lines_no_LF last Hno).
      cbn [flat_map split_lines]. rewrite app_nil_r.
      rewrite (fragment_carries last r Hn Hcarries).
      rewrite (fragment_blank []) by reflexivity. reflexivity.
    - rewrite <- app_assoc. cbn [app]. rewrite !split_lines_app_LF.
      rewrite (split_lines_no_LF last Hno).
      rewrite !flat_map_app. cbn [flat_map split_lines].
      rewrite !app_nil_r.
      rewrite (fragment_carries last r Hn Hcarries). reflexivity. }
  rewrite flat_map_app, Hlines. reflexivity.
Qed.

End LastLine.

(** * The prompt form *)

Section Form.
Context {E : Engine}.
Variable fetch : Upstream.
Import PromptComponent.

Lemma handleSubmit_answered
    (s : State) (res : UpstreamResponse) (body_text : jsstring)
    (props : list (jsstring * json)) :
  fetch backendUrl (request_init (prompt s)) = Resolved res ->
  ok res = true ->
  text res = Ok body_text ->
  JSON_parse body_text = Some (JObject props) ->
  fst (handleSubmit fetch s)
  = {| prompt := prompt s;
       response := lookup (str "response") props;
       isLoading := false;
       error := None |}.
Proof.
  intros Hf Hok Ht Hv.
  unfold handleSubmit, attempt, res_json.
  rewrite Hf, Hok. cbn [negb]. rewrite Ht, Hv. reflexivity.
Qed.

Lemma handleSubmit_refused (s : State) (res : UpstreamResponse) :
  fetch backendUrl (request_init (prompt s)) = Resolved res ->
  ok res = false ->
  handleSubmit fetch s
  = (let thrown :=
       match text res with
       | Ok errorText =>
           ErrorObject (str "HTTP error! status: " ++ N_to_string (status res)
                        ++ str ", message: " ++ errorText)
       | Throw e => e
       end in
     ({| prompt := prompt s;
         response := Some (JString (str ""));
         isLoading := false;
         error := Some (match thrown with
                        | ErrorObject message => message
                        | NonError => str "An unknown error occurred."
                        end) |},
      [PreventDefault;
       FetchCall backendUrl (request_init (prompt s));
       LogError (str "Error:") thrown])).
Proof.
  intros Hf Hok.
  unfold handleSubmit, attempt. rewrite Hf, Hok. cbn [negb].
  destruct (text res) as [errorText|e]; reflexivity.
Qed.

(** X15.  When a submission has finished, whatever the server did, the
    form is no longer loading, the prompt is the one that was submitted,
    and the error box and the response box are never both shown: a failure
    clears the response, a success leaves no error, not even one of an
    earlier submission. *)
Theorem X15_form_after_submit (s : State) :
  let s' := fst (handleSubmit fetch s) in
  isLoading s' = false
  /\ prompt s' = prompt s
  /\ (shows_error s' = true -> shows_response s' = false)
  /\ (error s' = None \/ response s' = Some (JString (str ""))).
Proof.
  cbv zeta. unfold handleSubmit.
  destruct (attempt fetch (prompt s)) as [r|e]; cbn.
  - repeat split; auto. discriminate.
  - repeat split; auto.
Qed.

(** X16.  When the server answers with a status outside 200..299, the form
    clears the response, stops loading, and shows and logs one error.  When
    the body of the answer can be read, the error is made of the status
    and the raw body text, which is not parsed.  When the read of the body
    fails, the error is that of the read, or the generic one when what was
    thrown is no [Error], and the status is not shown. *)
Theorem X16_form_shows_http_error (s : State) (res : UpstreamResponse) :
  fetch backendUrl (request_init (prompt s)) = Resolved res ->
  status res < 200 \/ 299 < status res ->
  let thrown :=
    match text res with
    | Ok errorText =>
        ErrorObject (str "HTTP error! status: " ++ N_to_string (status res)
                     ++ str ", message: " ++ errorText)
    | Throw e => e
    end in
  handleSubmit fetch s
  = ({| prompt := prompt s;
        response := Some (JString (str ""));
        isLoading := false;
        error := Some (match thrown with
                       | ErrorObject message => message
                       | NonError => str "An unknown error occurred."
                       end) |},
     [PreventDefault;
      FetchCall backendUrl (request_init (prompt s));
      LogError (str "Error:") thrown]).
Proof.
  intros Hf Hstatus.
  assert (Hok : ok res = false).
  { unfold ok. apply andb_false_iff.
    destruct Hstatus; [left | right]; apply N.leb_gt; assumption. }
  cbv zeta. rewrite (handleSubmit_refused s res Hf Hok). reflexivity.
Qed.

(** X17.  Every submission sends the prompt, and sends it as it is: one
    call, a POST to the server URL whose body is the JSON text of an
    object with the single property [prompt], the text of the form, not
    trimmed and not checked, be it empty. *)
Theorem X17_form_sends_prompt_verbatim (s : State) :
  exists init after,
    snd (handleSubmit fetch s)
    = PreventDefault :: FetchCall backendUrl init :: after
    /\ (forall url init', ~ In (FetchCall url init') after)
    /\ init_method init = str "POST"
    /\ JSON_parse (init_body init)
       = Some (JObject [(str "prompt", JString (prompt s))]).
Proof.
  unfold handleSubmit.
  destruct (attempt fetch (prompt s)) as [r|e]; cbn [snd].
  - exists (request_init (prompt s)), []. repeat split.
    + intros ? ? [].
    + apply JSON_parse_stringify_member.
  - exists (request_init (prompt s)), [LogError (str "Error:") e].
    repeat split.
    + intros ? ? [H|[]]. discriminate.
    + apply JSON_parse_stringify_member.
Qed.

(** X18.  When the server answers in the 2xx range with a body that is the
    JSON text of an object, the form takes the [response] property of
    that object as the response, whatever its type, and shows no error. *)
Theorem X18_form_takes_response_property
    (s : State) (res : UpstreamResponse) (body_text : jsstring)
    (props : list (jsstring * json)) :
  fetch backendUrl (request_init (prompt s)) = Resolved res ->
  200 <= status res <= 299 ->
  text res = Ok body_text ->
  JSON_parse body_text = Some (JObject props) ->
  fst (handleSubmit fetch s)
  = {| prompt := prompt s;
       response := lookup (str "response") props;
       isLoading := false;
       error := None |}.
Proof.
  intros Hf [Hlo Hhi] Ht Hv.
  assert (Hok : ok res = true).
  { unfold ok. apply andb_true_iff. split; apply N.leb_le; assumption. }
  apply handleSubmit_answered with (res := res) (body_text := body_text);
    assumption.
Qed.

End Form.

(** * Strings on the wire *)

(** ** Encoding, then decoding *)

Lemma utf8_run_bytes_1 cp rest :
  cp < 0x80 ->
  utf8_run Utf8Start (utf8_bytes cp ++ rest) = cp :: utf8_run Utf8Start rest.
Proof.
  intros H. unfold utf8_bytes.
  destruct (cp <? 0x80) eqn:H1; [|apply N.ltb_ge in H1; lia].
  cbn [app utf8_run utf8_step]. unfold utf8_start.
  destruct (cp <=? 0x7F) eqn:H2; [reflexivity | apply N.leb_gt in H2; lia].
Qed.

Ltac leb_true := apply andb_true_iff; split; apply N.leb_le.

Lemma utf8_run_bytes_2 cp rest :
  0x80 <= cp < 0x800 ->
  utf8_run Utf8Start (utf8_bytes cp ++ rest) = cp :: utf8_run Utf8Start rest.
Proof.
  intros [Hlo Hhi]. unfold utf8_bytes.
  destruct (cp <? 0x80) eqn:H1; [apply N.ltb_lt in H1; lia|].
  destruct (cp <? 0x800) eqn:H2; [|apply N.ltb_ge in H2; lia].
  pose proof (N.div_mod cp 64 ltac:(discriminate)) as Hd.
  pose proof (N.mod_lt cp 64 ltac:(discriminate)) as Hm.
  set (a := cp / 64) in *. set (b := cp mod 64) in *.
  assert (2 <= a < 32) by lia.
  cbn [app utf8_run utf8_step]. unfold utf8_start.
  destruct (0xC0 + a <=? 0x7F) eqn:H3; [apply N.leb_le in H3; lia|].
  replace ((0xC2 <=? 0xC0 + a) && (0xC0 + a <=? 0xDF)) with true
    by (symmetry; leb_true; lia).
  cbn [app utf8_run utf8_step].
  replace ((0x80 <=? 0x80 + b) && (0x80 + b <=? 0xBF)) with true
    by (symmetry; leb_true; lia).
  cbn [app]. f_equal. lia.
Qed.

Lemma utf8_run_bytes_3 cp rest :
  0x800 <= cp < 0x10000 ->
  cp < 0xD800 \/ 0xE000 <= cp ->
  utf8_run Utf8Start (utf8_bytes cp ++ rest) = cp :: utf8_run Utf8Start rest.
Proof.
  intros [Hlo Hhi] Hscalar. unfold utf8_bytes.
  destruct (cp <? 0x80) eqn:H1; [apply N.ltb_lt in H1; lia|].
  destruct (cp <? 0x800) eqn:H2; [apply N.ltb_lt in H2; lia|].
  destruct (cp <? 0x10000) eqn:H3; [|apply N.ltb_ge in H3; lia].
  pose proof (N.div_mod cp 64 ltac:(discriminate)) as Hd.
  pose proof (N.mod_lt cp 64 ltac:(discriminate)) as Hm.
  pose proof (N.div_mod (cp / 64) 64 ltac:(discriminate)) as Hd'.
  pose proof (N.mod_lt (cp / 64) 64 ltac:(discriminate)) as Hm'.
  rewrite N.Div0.div_div in Hd'. change (64 * 64) with 4096 in Hd'.
  set (a := cp / 4096) in *. set (q1 := cp / 64) in *.
  set (b := q1 mod 64) in *. set (c := cp mod 64) in *.
  assert (a < 16) by lia.
  cbn [app utf8_run utf8_step]. unfold utf8_start.
  destruct (0xE0 + a <=? 0x7F) eqn:H4; [apply N.leb_le in H4; lia|].
  replace ((0xC2 <=? 0xE0 + a) && (0xE0 + a <=? 0xDF)) with false
    by (symmetry; apply andb_false_iff; right; apply N.leb_gt; lia).
  replace ((0xE0 <=? 0xE0 + a) && (0xE0 + a <=? 0xEF)) with true
    by (symmetry; leb_true; lia).
  cbn [app utf8_run utf8_step].
  replace (((if 0xE0 + a =? 0xE0 then 0xA0 else 0x80) <=? 0x80 + b)
           && (0x80 + b <=? (if 0xE0 + a =? 0xED then 0x9F else 0xBF)))
    with true.
  2:{ symmetry. leb_true.
      - destruct (0xE0 + a =? 0xE0) eqn:Ha; [apply N.eqb_eq in Ha|]; lia.
      - destruct (0xE0 + a =? 0xED) eqn:Ha; [apply N.eqb_eq in Ha|]; lia. }
  cbn [app utf8_run utf8_step].
  replace ((0x80 <=? 0x80 + c) && (0x80 + c <=? 0xBF)) with true
    by (symmetry; leb_true; lia).
  cbn [app]. f_equal. lia.
Qed.

Lemma utf8_run_bytes_4 cp rest :
  0x10000 <= cp <= 0x10FFFF ->
  utf8_run Utf8Start (utf8_bytes cp ++ rest) = cp :: utf8_run Utf8Start rest.
Proof.
  intros [Hlo Hhi]. unfold utf8_bytes.
  destruct (cp <? 0x80) eqn:H1; [apply N.ltb_lt in H1; lia|].
  destruct (cp <? 0x800) eqn:H2; [apply N.ltb_lt in H2; lia|].
  destruct (cp <? 0x10000) eqn:H3; [apply N.ltb_lt in H3; lia|].
  pose proof (N.div_mod cp 64 ltac:(discriminate)) as Hd.
  pose proof (N.mod_lt cp 64 ltac:(discriminate)) as Hm.
  pose proof (N.div_mod (cp / 64) 64 ltac:(discriminate)) as Hd'.
  pose proof (N.mod_lt (cp / 64) 64 ltac:(discriminate)) as Hm'.
  pose proof (N.div_mod (cp / 64 / 64) 64 ltac:(discriminate)) as Hd''.
  pose proof (N.mod_lt (cp / 64 / 64) 64 ltac:(discriminate)) as Hm''.
  rewrite ?N.Div0.div_div in Hd', Hd'', Hm''.
  change (64 * 64 * 64) with 262144 in *. change (64 * 64) with 4096 in *.
  set (a := cp / 262144) in *. set (q2 := cp / 4096) in *.
  set (q1 := cp / 64) in *.
  set (b := q2 mod 64) in *. set (c := q1 mod 64) in *.
  set (d := cp mod 64) in *.
  assert (Hq : q2 / 64 = a)
    by (subst q2 a; rewrite N.Div0.div_div; reflexivity).
  rewrite Hq in Hd''.
  assert (a <= 4) by lia.
  cbn [app utf8_run utf8_step]. unfold utf8_start.
  destruct (0xF0 + a <=? 0x7F) eqn:H4; [apply N.leb_le in H4; lia|].
  replace ((0xC2 <=? 0xF0 + a) && (0xF0 + a <=? 0xDF)) with false
    by (symmetry; apply andb_false_iff; right; apply N.leb_gt; lia).
  replace ((0xE0 <=? 0xF0 + a) && (0xF0 + a <=? 0xEF)) with false
    by (symmetry; apply andb_false_iff; right; apply N.leb_gt; lia).
  replace ((0xF0 <=? 0xF0 + a) && (0xF0 + a <=? 0xF4)) with true
    by (symmetry; leb_true; lia).
  cbn [app utf8_run utf8_step].
  replace (((if 0xF0 + a =? 0xF0 then 0x90 else 0x80) <=? 0x80 + b)
           && (0x80 + b <=? (if 0xF0 + a =? 0xF4 then 0x8F else 0xBF)))
    with true.
  2:{ symmetry. leb_true.
      - destruct (0xF0 + a =? 0xF0) eqn:Ha; [apply N.eqb_eq in Ha|]; lia.
      - destruct (0xF0 + a =? 0xF4) eqn:Ha; [apply N.eqb_eq in Ha|]; lia. }
  cbn [app utf8_run utf8_step].
  replace ((0x80 <=? 0x80 + c) && (0x80 + c <=? 0xBF)) with true
    by (symmetry; leb_true; lia).
  cbn [app utf8_run utf8_step].
  replace ((0x80 <=? 0x80 + d) && (0x80 + d <=? 0xBF)) with true
    by (symmetry; leb_true; lia).
  cbn [app]. f_equal. lia.
Qed.

Lemma utf8_run_bytes cp rest :
  scalar cp ->
  utf8_run Utf8Start (utf8_bytes cp ++ rest) = cp :: utf8_run Utf8Start rest.
Proof.
  intros Hs.
  destruct (N.lt_ge_cases cp 0x80); [apply utf8_run_bytes_1; assumption|].
  destruct (N.lt_ge_cases cp 0x800); [apply utf8_run_bytes_2; lia|].
  destruct (N.lt_ge_cases cp 0x10000).
  - apply utf8_run_bytes_3; [lia|]. destruct Hs; [left|right]; lia.
  - apply utf8_run_bytes_4. destruct Hs; lia.
Qed.

Lemma utf8_run_scalars cps :
  Forall scalar cps -> utf8_run Utf8Start (flat_map utf8_bytes cps) = cps.
Proof.
  induction 1 as [|cp cps Hcp _ IH]; [reflexivity|].
  cbn [flat_map]. rewrite (utf8_run_bytes cp _ Hcp), IH. reflexivity.
Qed.

Lemma well_formed_code_points_bounded (n : nat) : forall s,
  (List.length s <= n)%nat ->
  well_formed s = true ->
  Forall scalar (code_points s)
  /\ flat_map utf16_units (code_points s) = s
  /\ (forall c r, s = c :: r -> c <> BOM -> strip_bom (code_points s) = code_points s).
Proof.
  induction n as [|n IH]; intros s Hn Hwf.
  { destruct s; [|simpl in Hn; lia].
    split; [constructor|]. split; [reflexivity | discriminate]. }
  destruct s as [|c r];
    [split; [constructor|]; split; [reflexivity | discriminate]|].
  cbn [well_formed code_points] in *. simpl in Hn.
  destruct (is_high_surrogate c) eqn:Hhigh.
  - destruct r as [|d r']; [discriminate|].
    apply andb_true_iff in Hwf. destruct Hwf as [Hlow Hwf]. rewrite Hlow.
    simpl in Hn. destruct (IH r' ltac:(lia) Hwf) as (Hsc & Hunits & _).
    unfold is_high_surrogate in Hhigh. unfold is_low_surrogate in Hlow.
    apply andb_true_iff in Hhigh, Hlow.
    destruct Hhigh as [Hc1 Hc2], Hlow as [Hd1 Hd2].
    apply N.leb_le in Hc1, Hc2, Hd1, Hd2.
    set (cp := 0x10000 + (c - 0xD800) * 1024 + (d - 0xDC00)).
    assert (Hcp : 0x10000 <= cp <= 0x10FFFF) by (subst cp; lia).
    repeat split.
    + constructor; [right; lia | assumption].
    + cbn [flat_map]. rewrite Hunits. unfold utf16_units.
      destruct (cp <? 0x10000) eqn:H; [apply N.ltb_lt in H; lia|].
      assert (Hx : cp - 0x10000 = (c - 0xD800) * 1024 + (d - 0xDC00))
        by (subst cp; lia).
      pose proof (N.div_mod (cp - 0x10000) 1024 ltac:(discriminate)) as Hdm.
      pose proof (N.mod_lt (cp - 0x10000) 1024 ltac:(discriminate)) as Hml.
      set (hi := (cp - 0x10000) / 1024) in *.
      set (lo := (cp - 0x10000) mod 1024) in *.
      clearbody hi lo. rewrite Hx in Hdm.
      assert (0xD800 + hi = c) as -> by lia.
      assert (0xDC00 + lo = d) as -> by lia.
      reflexivity.
    + intros c0 r0 _ _. unfold strip_bom.
      destruct (cp =? BOM) eqn:H; [|reflexivity].
      apply N.eqb_eq in H. unfold BOM in H. lia.
  - apply andb_true_iff in Hwf. destruct Hwf as [Hwf Hr].
    apply andb_true_iff in Hwf. destruct Hwf as [Hlow Hc].
    apply negb_true_iff in Hlow. rewrite Hlow.
    destruct (IH r ltac:(lia) Hr) as (Hsc & Hunits & _).
    unfold is_high_surrogate in Hhigh. unfold is_low_surrogate in Hlow.
    apply N.ltb_lt in Hc.
    assert (Hscalar : scalar c).
    { unfold scalar. apply andb_false_iff in Hhigh, Hlow.
      destruct (N.lt_ge_cases c 0xD800); [left; assumption|]. right.
      destruct Hhigh as [Hh|Hh]; apply N.leb_gt in Hh; try lia.
      destruct Hlow as [Hl|Hl]; apply N.leb_gt in Hl; lia. }
    repeat split.
    + constructor; assumption.
    + cbn [flat_map]. rewrite Hunits. unfold utf16_units.
      destruct (c <? 0x10000) eqn:H; [reflexivity | apply N.ltb_ge in H; lia].
    + intros c0 r0 [= <- <-] Hbom. unfold strip_bom.
      destruct (c =? BOM) eqn:H; [apply N.eqb_eq in H; contradiction|].
      reflexivity.
Qed.

(** A well-formed string that does not open with the byte order mark
    travels unchanged: decoding its encoding gives it back. *)
Lemma TextDecoder_decode_utf8_encode (s : jsstring) :
  well_formed s = true ->
  hd_error s <> Some BOM ->
  TextDecoder_decode (utf8_encode s) = s.
Proof.
  intros Hwf Hhd.
  destruct (well_formed_code_points_bounded (List.length s) s (le_n _) Hwf)
    as (Hsc & Hunits & Hstrip).
  unfold TextDecoder_decode, utf8_encode. rewrite (utf8_run_scalars _ Hsc).
  destruct s as [|c r]; [reflexivity|].
  rewrite (Hstrip c r eq_refl); [assumption|].
  intros ->. apply Hhd. reflexivity.
Qed.

(** ** What [JSON.stringify] writes is well formed *)

Lemma well_formed_plain c rest :
  c < 0xD800 -> well_formed (c :: rest) = well_formed rest.
Proof.
  intros Hc. cbn [well_formed]. unfold is_high_surrogate, is_low_surrogate.
  replace (0xD800 <=? c) with false by (symmetry; apply N.leb_gt; lia).
  replace (0xDC00 <=? c) with false by (symmetry; apply N.leb_gt; lia).
  replace (c <? 0x10000) with true by (symmetry; apply N.ltb_lt; lia).
  reflexivity.
Qed.

Lemma well_formed_plain_app l rest :
  Forall (fun c => c < 0xD800) l ->
  well_formed (l ++ rest) = well_formed rest.
Proof.
  induction 1 as [|c l Hc _ IH]; [reflexivity|].
  cbn [app]. rewrite (well_formed_plain c _ Hc). exact IH.
Qed.

Lemma hex_digit_plain n : n < 16 -> hex_digit n < 0xD800.
Proof. intros H. unfold hex_digit. destruct (n <? 10); lia. Qed.

Lemma unicode_escape_plain c :
  Forall (fun x => x < 0xD800) (unicode_escape c).
Proof.
  unfold unicode_escape.
  repeat constructor; try lia;
    apply hex_digit_plain; apply N.mod_lt; discriminate.
Qed.

Lemma well_formed_quote_unit c rest :
  c < 0x10000 ->
  well_formed (quote_unit c ++ rest) = well_formed rest.
Proof.
  intros Hc. unfold quote_unit.
  repeat match goal with
  | |- context [if ?b =? ?k then _ else _] =>
      destruct (b =? k) eqn:?;
      [apply well_formed_plain_app; repeat constructor; lia|]
  end.
  destruct ((c <? 0x20) || is_high_surrogate c || is_low_surrogate c) eqn:Hesc.
  - apply well_formed_plain_app, unicode_escape_plain.
  - apply orb_false_iff in Hesc. destruct Hesc as [Hesc Hlow].
    apply orb_false_iff in Hesc. destruct Hesc as [_ Hhigh].
    cbn [app well_formed]. rewrite Hhigh, Hlow.
    replace (c <? 0x10000) with true by (symmetry; apply N.ltb_lt; lia).
    reflexivity.
Qed.

Lemma well_formed_quote_chars_bounded (n : nat) : forall s rest,
  (List.length s <= n)%nat ->
  code_units s ->
  well_formed (quote_chars s ++ rest) = well_formed rest.
Proof.
  induction n as [|n IH]; intros s rest Hn Hs.
  { destruct s; [reflexivity | simpl in Hn; lia]. }
  destruct s as [|c r]; [reflexivity|]. simpl in Hn.
  inversion Hs as [|? ? Hc Hr]; subst.
  assert (Hunit : well_formed ((quote_unit c ++ quote_chars r) ++ rest)
                  = well_formed rest).
  { rewrite <- app_assoc, (well_formed_quote_unit c _ Hc). apply IH; [lia|assumption]. }
  cbn [quote_chars]. destruct (is_high_surrogate c) eqn:Hhigh; [|exact Hunit].
  destruct r as [|d r']; [|destruct (is_low_surrogate d) eqn:Hlow].
  - rewrite app_nil_r in Hunit. exact Hunit.
  - cbn [app well_formed]. rewrite Hhigh, Hlow. cbn [andb].
    inversion Hr; subst. apply IH; [simpl in Hn; lia | assumption].
  - exact Hunit.
Qed.

Lemma well_formed_quote s rest :
  code_units s ->
  well_formed (quote s ++ rest) = well_formed rest.
Proof.
  intros Hs. unfold quote. cbn [app]. rewrite (well_formed_plain 34) by lia.
  rewrite <- app_assoc.
  rewrite (well_formed_quote_chars_bounded (List.length s) s _ (le_n _) Hs).
  cbn [app]. apply well_formed_plain. lia.
Qed.

(** * The form in front of the handler *)

Section EndToEnd.
Context {E : Engine}.
Variable upstream : Upstream.
Import PromptComponent.

Lemma code_units_str (s : string) : code_units (str s).
Proof.
  unfold code_units, str. apply Forall_forall. intros c Hc.
  apply in_map_iff in Hc. destruct Hc as (a & <- & _).
  pose proof (N_ascii_bounded a). lia.
Qed.

Lemma code_units_app (s t : jsstring) :
  code_units s -> code_units t -> code_units (s ++ t).
Proof. intros Hs Ht. apply Forall_app. split; assumption. Qed.

Lemma JSON_stringify_member (key s : jsstring) :
  JSON_stringify (JObject [(key, JString s)])
  = 123 :: quote key ++ 58 :: quote s ++ [125].
Proof.
  change (JSON_stringify (JObject [(key, JString s)]))
    with ([123] ++ join_comma
                     (map (fun kt => quote (fst kt) ++ [58] ++ snd kt)
                          (own_property_order [(key, quote s)]))
          ++ [125]).
  rewrite own_property_order_single.
  cbn [map fst snd join_comma app]. rewrite <- !app_assoc. reflexivity.
Qed.

(** The JSON text of an object with one string property is well formed and
    opens with a brace, so that it travels unchanged. *)
Lemma member_text_travels (key s : jsstring) :
  code_units key -> code_units s ->
  TextDecoder_decode
    (utf8_encode (JSON_stringify (JObject [(key, JString s)])))
  = JSON_stringify (JObject [(key, JString s)]).
Proof.
  intros Hk Hs. rewrite JSON_stringify_member.
  apply TextDecoder_decode_utf8_encode.
  - rewrite (well_formed_plain 123) by lia.
    rewrite (well_formed_quote key _ Hk).
    rewrite (well_formed_plain 58) by lia.
    rewrite (well_formed_quote s _ Hs). reflexivity.
  - cbn [hd_error]. discriminate.
Qed.

Lemma wire_text (r : Response) (body_text : jsstring) :
  res_body r = Some body_text ->
  TextDecoder_decode (utf8_encode body_text) = body_text ->
  text (wire_response r) = Ok body_text.
Proof.
  intros Hb Hd. unfold text, wire_response. cbn [body]. rewrite Hb.
  cbn [ending chunks List.concat]. rewrite app_nil_r, Hd. reflexivity.
Qed.

(** What the handler receives from the form. *)
Lemma prompt_of_wire_request (p : jsstring) :
  code_units p ->
  method (wire_request backendUrl (request_init p)) = str "POST"
  /\ prompt_of (wire_request backendUrl (request_init p))
     = Some (Some (JString p)).
Proof.
  intros Hp. split; [reflexivity|].
  unfold prompt_of, wire_request, request_init. cbn [req_body init_body].
  rewrite member_text_travels;
    [|apply code_units_str | assumption].
  rewrite JSON_parse_stringify_member. cbn [destructure lookup].
  rewrite jsstring_eqb_refl. reflexivity.
Qed.

(** X19.  From the form to the model and back.  When the user submits a
    non-empty prompt and the model server answers in the 2xx range with a
    stream that closes, the form ends up showing, as its response, the
    text the handler aggregated from that stream, with no error. *)
Theorem X19_form_shows_aggregated_text
    (s : State) (response : UpstreamResponse) (stream : ReadableStream) :
  code_units (prompt s) ->
  prompt s <> [] ->
  upstream ollamaUrl (fetch_init (Some (JString (prompt s))))
  = Resolved response ->
  200 <= status response <= 299 ->
  body response = Some stream ->
  ending stream = Closed ->
  code_units (aggregate (chunks stream)) ->
  fst (handleSubmit (served_by_handler upstream) s)
  = {| prompt := prompt s;
       response := Some (JString (aggregate (chunks stream)));
       isLoading := false;
       error := None |}.
Proof.
  intros Hp Hne Hf [Hlo Hhi] Hb He Ht.
  destruct (prompt_of_wire_request (prompt s) Hp) as [Hm Hprompt].
  assert (Htruthy : ToBoolean (Some (JString (prompt s))) = true).
  { cbn [ToBoolean]. destruct (prompt s); [contradiction | reflexivity]. }
  assert (Hok : ok response = true).
  { unfold ok. apply andb_true_iff. split; apply N.leb_le; assumption. }
  pose proof (handler_streamed upstream _ _ response stream initial
                Hm Hprompt Htruthy Hf Hok Hb He) as Hrun.
  assert (Hres : served_by_handler upstream backendUrl
                   (request_init (prompt s))
                 = Resolved (wire_response
                               (success_response (aggregate (chunks stream))))).
  { unfold served_by_handler, answer. rewrite Hrun. reflexivity. }
  rewrite (handleSubmit_answered (served_by_handler upstream) s
             (wire_response (success_response (aggregate (chunks stream))))
             (JSON_stringify
                (JObject [(str "response",
                           JString (aggregate (chunks stream)))]))
             [(str "response", JString (aggregate (chunks stream)))]).
  - cbn [lookup]. rewrite jsstring_eqb_refl. reflexivity.
  - exact Hres.
  - reflexivity.
  - apply wire_text; [reflexivity|].
    apply member_text_travels; [apply code_units_str | assumption].
  - apply JSON_parse_stringify_member.
Qed.

(** What the form makes of a failure answered by the handler. *)
Lemma form_shows_failure (s : State) (error : thrown) :
  code_units (message_of error) ->
  answer upstream (wire_request backendUrl (request_init (prompt s)))
  = Ok (failure_response error) ->
  fst (handleSubmit (served_by_handler upstream) s)
  = {| prompt := prompt s;
       response := Some (JString (str ""));
       isLoading := false;
       error :=
         Some (str "HTTP error! status: 500, message: "
               ++ JSON_stringify
                    (JObject [(str "error", JString (message_of error))])) |}.
Proof.
  intros Hmsg Ha.
  rewrite (handleSubmit_refused (served_by_handler upstream) s
             (wire_response (failure_response error))).
  - cbv zeta.
    rewrite (wire_text (failure_response error)
               (JSON_stringify
                  (JObject [(str "error", JString (message_of error))])));
      [reflexivity | reflexivity |].
    apply member_text_travels; [apply code_units_str | assumption].
  - unfold served_by_handler. rewrite Ha. reflexivity.
  - reflexivity.
Qed.

(** X20.  Submitting the form with nothing typed: the handler refuses the
    prompt without calling the model server, and the form shows, as its
    error, the status 500 followed by the raw JSON text of the error body,
    braces and quotes included, not the bare message. *)
Theorem X20_empty_form_submitted (s : State) :
  prompt s = [] ->
  fst (handleSubmit (served_by_handler upstream) s)
  = {| prompt := [];
       response := Some (JString (str ""));
       isLoading := false;
       error :=
         Some (str "HTTP error! status: 500, message: "
               ++ JSON_stringify
                    (JObject [(str "error",
                               JString (str "Prompt is required"))])) |}
  /\ forall url init,
       ~ In (Fetch url init)
            (effects upstream
               (wire_request backendUrl (request_init (prompt s)))).
Proof.
  intros Hempty.
  destruct (prompt_of_wire_request (prompt s)) as [Hm Hprompt].
  { rewrite Hempty. constructor. }
  assert (Hfalsy : ToBoolean (Some (JString (prompt s))) = false).
  { rewrite Hempty. reflexivity. }
  pose proof (handler_falsy_prompt upstream _ _ initial Hm Hprompt Hfalsy)
    as Hrun.
  split.
  - rewrite (form_shows_failure s (ErrorObject (str "Prompt is required"))).
    + rewrite Hempty. reflexivity.
    + apply code_units_str.
    + unfold answer. rewrite Hrun. reflexivity.
  - intros url init Hin. unfold effects in Hin. rewrite Hrun in Hin.
    cbn [caught snd trace initial app In] in Hin.
    destruct Hin as [H|[H|H]]; [discriminate H|discriminate H|destruct H].
Qed.

(** X21.  When the model server answers outside the 2xx range, the form
    shows status 500, the status of the handler, not that of the model
    server, followed by the JSON text of the error body.  When the body of
    the model server can be read, its status and its body text are inside
    that message.  When the read of that body fails, the message is that
    of the read error, and the status of the model server reaches the form
    nowhere. *)
Theorem X21_model_error_reaches_form
    (s : State) (response : UpstreamResponse) :
  code_units (prompt s) ->
  prompt s <> [] ->
  upstream ollamaUrl (fetch_init (Some (JString (prompt s))))
  = Resolved response ->
  status response < 200 \/ 299 < status response ->
  let message :=
    match text response with
    | Ok errorText =>
        str "Ollama API error: " ++ N_to_string (status response)
        ++ str ", " ++ errorText
    | Throw (ErrorObject read_error) => read_error
    | Throw NonError => str "An unknown error occurred"
    end in
  code_units message ->
  fst (handleSubmit (served_by_handler upstream) s)
  = {| prompt := prompt s;
       response := Some (JString (str ""));
       isLoading := false;
       error :=
         Some (str "HTTP error! status: 500, message: "
               ++ JSON_stringify
                    (JObject [(str "error", JString message)])) |}.
Proof.
  intros Hp Hne Hf Hstatus message Hmsg.
  destruct (prompt_of_wire_request (prompt s) Hp) as [Hm Hprompt].
  assert (Htruthy : ToBoolean (Some (JString (prompt s))) = true).
  { cbn [ToBoolean]. destruct (prompt s); [contradiction | reflexivity]. }
  assert (Hok : ok response = false).
  { unfold ok. apply andb_false_iff.
    destruct Hstatus; [left | right]; apply N.leb_gt; assumption. }
  pose proof (handler_upstream_error upstream _ _ response initial
                Hm Hprompt Htruthy Hf Hok) as Hrun.
  cbv zeta in Hrun.
  set (error := match text response with
                | Ok errorText =>
                    ErrorObject (str "Ollama API error: "
                                 ++ N_to_string (status response)
                                 ++ str ", " ++ errorText)
                | Throw e => e
                end) in *.
  assert (Hsame : message_of error = message).
  { subst error message. destruct (text response) as [t|[m|]]; reflexivity. }
  rewrite <- Hsame in *.
  apply (form_shows_failure s error Hmsg).
  unfold answer. rewrite Hrun. reflexivity.
Qed.

(** The body of the call to the model server reads back as the object of
    lines 102 to 105. *)
Lemma fetch_body_read_back (p : jsstring) :
  JSON_parse (init_body (fetch_init (Some (JString p))))
  = Some (JObject [(str "model", JString (str "neural-chat"));
                   (str "prompt", JString p)]).
Proof.
  change (init_body (fetch_init (Some (JString p))))
    with ([123] ++ join_comma
                     (map (fun kt => quote (fst kt) ++ [58] ++ snd kt)
                          (own_property_order
                             [(str "model", quote (str "neural-chat"));
                              (str "prompt", quote p)]))
          ++ [125]).
  change (own_property_order
            [(str "model", quote (str "neural-chat"));
             (str "prompt", quote p)])
    with [(str "model", quote (str "neural-chat")); (str "prompt", quote p)].
  cbn [map fst snd join_comma]. unfold quote, JSON_parse.
  set (text := [123] ++ _).
  assert (Hfuel : exists f, parse_fuel text = S (S (S (S f)))).
  { exists (2 * List.length text - 2)%nat. unfold parse_fuel.
    assert (1 <= List.length text)%nat by (subst text; simpl; lia). lia. }
  destruct Hfuel as [f ->]. subst text.
  cbn [parse_value app skip_ws is_json_ws N.eqb Pos.eqb orb].
  unfold expect at 1. cbn [skip_ws is_json_ws N.eqb Pos.eqb orb].
  cbn [parse_members]. unfold expect at 1.
  cbn [skip_ws is_json_ws N.eqb Pos.eqb orb].
  rewrite <- !app_assoc. cbn [app].
  rewrite quote_chars_read_back.
  unfold expect at 1. cbn [skip_ws is_json_ws N.eqb Pos.eqb orb].
  cbn [parse_value skip_ws is_json_ws N.eqb Pos.eqb orb].
  rewrite <- !app_assoc. cbn [app].
  rewrite quote_chars_read_back.
  unfold expect at 1. cbn [skip_ws is_json_ws N.eqb Pos.eqb orb].
  unfold expect at 1. cbn [skip_ws is_json_ws N.eqb Pos.eqb orb].
  rewrite quote_chars_read_back.
  unfold expect at 1. cbn [skip_ws is_json_ws N.eqb Pos.eqb orb].
  rewrite <- !app_assoc. cbn [app].
  rewrite quote_chars_read_back.
  unfold expect. cbn [skip_ws is_json_ws N.eqb Pos.eqb orb].
  reflexivity.
Qed.

(** X22.  What the user typed is what the model is asked: for a non-empty
    prompt the handler calls the model server once, right after reading the
    request, and the body of that call reads back as the model name and
    the prompt of the form, code unit by code unit, whatever the model
    server then does. *)
Theorem X22_typed_prompt_reaches_model (s : State) :
  code_units (prompt s) ->
  prompt s <> [] ->
  exists init after,
    effects upstream (wire_request backendUrl (request_init (prompt s)))
    = ReqJson :: Fetch ollamaUrl init :: after
    /\ (forall url init', ~ In (Fetch url init') after)
    /\ init_method init = str "POST"
    /\ JSON_parse (init_body init)
       = Some (JObject [(str "model", JString (str "neural-chat"));
                        (str "prompt", JString (prompt s))]).
Proof.
  intros Hp Hne.
  destruct (prompt_of_wire_request (prompt s) Hp) as [Hm Hprompt].
  assert (Htruthy : ToBoolean (Some (JString (prompt s))) = true).
  { cbn [ToBoolean]. destruct (prompt s); [contradiction | reflexivity]. }
  destruct (handler_after_fetch upstream _ _ Hm Hprompt Htruthy)
    as (r & logs & st' & Hrun & Hlogs & Hshape).
  exists (fetch_init (Some (JString (prompt s)))).
  unfold effects. rewrite Hrun. cbn [snd].
  destruct Hshape as [(e & _ & ->)|(t & _ & ->)].
  - exists (logs ++ [ConsoleError (str "Error:") e]).
    repeat split; [| apply fetch_body_read_back].
    intros url init' Hin. apply in_app_or in Hin. destruct Hin as [Hin|Hin].
    + rewrite Forall_forall in Hlogs. destruct (Hlogs _ Hin) as [e' H].
      discriminate H.
    + cbn [In] in Hin. destruct Hin as [H|H]; [discriminate H|destruct H].
  - exists logs. repeat split; [| apply fetch_body_read_back].
    intros url init' Hin.
    rewrite Forall_forall in Hlogs. destruct (Hlogs _ Hin) as [e' H].
    discriminate H.
Qed.

End EndToEnd.

(** * The properties on small inputs *)

Section MoreInstances.
#[local] Existing Instance example_engine.
Import PromptComponent.

(** A preflight with a body that is no JSON, in the middle of a session. *)
Lemma X1_preflight_with_a_body :
  handler (answering 200 []) (request_with (str "OPTIONS") (str "not json"))
          {| fullResponse := str "Hello"; trace := [ReqJson] |}
  = (Ok {| res_status := 204;
           res_headers :=
             [ (str "Access-Control-Allow-Origin", str "http://localhost:3000");
               (str "Access-Control-Allow-Methods", str "POST, OPTIONS");
               (str "Access-Control-Allow-Headers", str "Content-Type") ];
           res_body := None |},
     {| fullResponse := str "Hello"; trace := [ReqJson] |}).
Proof.
  apply (X1_preflight (answering 200 [])
           (request_with (str "OPTIONS") (str "not json"))
           {| fullResponse := str "Hello"; trace := [ReqJson] |}).
  reflexivity.
Defined.

(** The answer to a GET. *)
Lemma X3_answer_to_a_get :
  res_headers method_response
  = [ (str "Access-Control-Allow-Origin", str "http://localhost:3000");
      (str "Content-Type", str "application/json") ]
  /\ exists key text,
       option_map JSON_parse (res_body method_response)
       = Some (Some (JObject [(key, JString text)]))
       /\ ((res_status method_response = 200 /\ key = str "response")
           \/ (res_status method_response <> 200 /\ key = str "error")).
Proof.
  apply (X3_body_is_one_string_property (answering 200 [])
           (request_with (str "GET") (str "")) method_response).
  - discriminate.
  - reflexivity.
Defined.

(** The log of a run refused for its empty prompt. *)
Lemma X5_empty_prompt_logged :
  List.length
    (filter is_error_log
       (effects (answering 200 []) (post (q "{'prompt':''}"))))
  = (if res_status (failure_response (ErrorObject (str "Prompt is required")))
        =? 500
     then 1 else 0)%nat
  /\ (res_status (failure_response (ErrorObject (str "Prompt is required")))
      = 500 ->
      exists before error,
        effects (answering 200 []) (post (q "{'prompt':''}"))
        = before ++ [ConsoleError (str "Error:") error]
        /\ res_body (failure_response (ErrorObject (str "Prompt is required")))
           = Some (JSON_stringify
                     (JObject [(str "error", JString (message_of error))]))).
Proof.
  apply (X5_failure_logged_once (answering 200 [])
           (post (q "{'prompt':''}"))
           (failure_response (ErrorObject (str "Prompt is required")))).
  reflexivity.
Defined.

(** The model server is down. *)
Lemma X6_connection_refused :
  answer (unreachable (ErrorObject (str "connection refused")))
         (post (q "{'prompt':'Hi'}"))
  = Ok {| res_status := 500;
          res_headers := headers;
          res_body := Some (q "{'error':'connection refused'}") |}
  /\ effects (unreachable (ErrorObject (str "connection refused")))
             (post (q "{'prompt':'Hi'}"))
     = [ReqJson; Fetch ollamaUrl (fetch_init (Some (JString (str "Hi"))));
        ConsoleError (str "Error:") (ErrorObject (str "connection refused"))].
Proof.
  apply (X6_fetch_rejected
           (unreachable (ErrorObject (str "connection refused")))
           (post (q "{'prompt':'Hi'}")) (Some (JString (str "Hi")))
           (ErrorObject (str "connection refused")));
    reflexivity.
Defined.

(** The model server answers 204, with no body. *)
Lemma X7_no_content :
  answer (answering_with 204 None) (post (q "{'prompt':'Hi'}"))
  = Ok {| res_status := 500;
          res_headers := headers;
          res_body := Some (q "{'error':'Unable to read response body'}") |}
  /\ effects (answering_with 204 None) (post (q "{'prompt':'Hi'}"))
     = [ReqJson; Fetch ollamaUrl (fetch_init (Some (JString (str "Hi"))));
        ConsoleError (str "Error:")
          (ErrorObject (str "Unable to read response body"))].
Proof.
  apply (X7_no_body_to_read (answering_with 204 None)
           (post (q "{'prompt':'Hi'}")) (Some (JString (str "Hi")))
           {| status := 204; statusText := []; headers_in := [];
              body := None |});
    try reflexivity.
  split; discriminate.
Defined.

(** The connection is reset after one record and one malformed line. *)
Lemma X8_reset_after_one_record :
  answer
    (answering_with 200
       (Some {| chunks := [q "{'response':'Hel'}" ++ [LF] ++ str "oops" ++ [LF]];
                ending := Errored (ErrorObject (str "connection reset")) |}))
    (post (q "{'prompt':'Hi'}"))
  = Ok {| res_status := 500;
          res_headers := headers;
          res_body := Some (q "{'error':'connection reset'}") |}
  /\ effects
       (answering_with 200
          (Some {| chunks :=
                     [q "{'response':'Hel'}" ++ [LF] ++ str "oops" ++ [LF]];
                   ending := Errored (ErrorObject (str "connection reset")) |}))
       (post (q "{'prompt':'Hi'}"))
     = [ReqJson; Fetch ollamaUrl (fetch_init (Some (JString (str "Hi"))))]
       ++ flat_map line_log
            (all_lines [q "{'response':'Hel'}" ++ [LF] ++ str "oops" ++ [LF]])
       ++ [ConsoleError (str "Error:") (ErrorObject (str "connection reset"))].
Proof.
  apply (X8_stream_fails_midway
           (answering_with 200
              (Some {| chunks :=
                         [q "{'response':'Hel'}" ++ [LF] ++ str "oops" ++ [LF]];
                       ending :=
                         Errored (ErrorObject (str "connection reset")) |}))
           (post (q "{'prompt':'Hi'}")) (Some (JString (str "Hi")))
           {| status := 200; statusText := []; headers_in := [];
              body :=
                Some {| chunks :=
                          [q "{'response':'Hel'}" ++ [LF] ++ str "oops" ++ [LF]];
                        ending :=
                          Errored (ErrorObject (str "connection reset")) |} |}
           {| chunks := [q "{'response':'Hel'}" ++ [LF] ++ str "oops" ++ [LF]];
              ending := Errored (ErrorObject (str "connection reset")) |}
           (ErrorObject (str "connection reset")));
    try reflexivity.
  split; discriminate.
Defined.

(** A body with another key than [prompt]. *)
Lemma X9_body_with_another_key :
  answer (answering 200 []) (post (q "{'text':'Hi'}"))
  = Ok {| res_status := 500;
          res_headers := headers;
          res_body := Some (q "{'error':'Prompt is required'}") |}
  /\ effects (answering 200 []) (post (q "{'text':'Hi'}"))
     = [ReqJson;
        ConsoleError (str "Error:") (ErrorObject (str "Prompt is required"))].
Proof.
  apply (X9_body_without_prompt (answering 200 [])
           (post (q "{'text':'Hi'}"))
           (JObject [(str "text", JString (str "Hi"))])).
  - reflexivity.
  - reflexivity.
  - discriminate.
  - intros props H. injection H as <-. reflexivity.
Defined.

(** The body [null]. *)
Lemma X10_body_null :
  answer (answering 200 []) (post (str "null"))
  = Ok {| res_status := 500;
          res_headers := headers;
          res_body := Some (q "{'error':'Cannot destructure null'}") |}
  /\ effects (answering 200 []) (post (str "null"))
     = [ReqJson;
        ConsoleError (str "Error:")
          (ErrorObject (TypeError_destructure_null (str "prompt")))].
Proof.
  exact (X10_null_body (answering 200 []) (post (str "null"))
           eq_refl eq_refl).
Defined.

(** The line [null], after the text [Hel]. *)
Lemma X11_line_null :
  process_line (str "null") {| fullResponse := str "Hel"; trace := [] |}
  = (Ok tt,
     {| fullResponse := str "Hel";
        trace := []
                 ++ match JNull with
                    | JNull =>
                        [ConsoleError (str "Error parsing JSON:")
                           (ErrorObject (TypeError_read_null (str "response")))]
                    | _ => []
                    end |}).
Proof.
  apply (X11_line_that_is_no_object (str "null") JNull
           {| fullResponse := str "Hel"; trace := [] |}).
  - reflexivity.
  - reflexivity.
  - intros props. discriminate.
Defined.


(** Two records, the second without a line feed after it: first as a chunk
    of its own, then at the end of the chunk of the first. *)
Lemma X14_second_record_unterminated :
  answer
    (answering 200
       [q "{'response':'Hel','done':false}" ++ [LF];
        q "{'response':'lo','done':true}"])
    (post (q "{'prompt':'Hi'}"))
  = Ok {| res_status := 200;
          res_headers := headers;
          res_body := Some (q "{'response':'Hello'}") |}
  /\ answer
       (answering 200
          [q "{'response':'Hel','done':false}" ++ LF
             :: q "{'response':'lo','done':true}"])
       (post (q "{'prompt':'Hi'}"))
     = Ok {| res_status := 200;
             res_headers := headers;
             res_body := Some (q "{'response':'Hello'}") |}.
Proof.
  assert (Hno : ~ In LF (q "{'response':'lo','done':true}")).
  { intros Hin. vm_compute in Hin.
    repeat (destruct Hin as [Hin|Hin]; [discriminate Hin|]). destruct Hin. }
  assert (Hcarries : carries (q "{'response':'lo','done':true}")
                       {| record_response := str "lo"; record_done := true |}).
  { exists [(str "response", JString (str "lo")); (str "done", JBool true)].
    repeat split; reflexivity. }
  split.
  - refine (X14_last_line_without_line_feed
              (answering 200
                 [q "{'response':'Hel','done':false}" ++ [LF];
                  q "{'response':'lo','done':true}"])
              (post (q "{'prompt':'Hi'}")) (Some (JString (str "Hi")))
              {| status := 200; statusText := []; headers_in := [];
                 body :=
                   Some {| chunks :=
                             [q "{'response':'Hel','done':false}" ++ [LF];
                              q "{'response':'lo','done':true}"];
                           ending := Closed |} |}
              {| chunks := [q "{'response':'Hel','done':false}" ++ [LF];
                            q "{'response':'lo','done':true}"];
                 ending := Closed |}
              [q "{'response':'Hel','done':false}" ++ [LF]]
              (q "{'response':'lo','done':true}")
              []
              (q "{'response':'lo','done':true}")
              {| record_response := str "lo"; record_done := true |}
              eq_refl eq_refl eq_refl eq_refl _ eq_refl eq_refl eq_refl
              eq_refl (or_introl eq_refl) Hno eq_refl Hcarries).
    split; discriminate.
  - refine (X14_last_line_without_line_feed
              (answering 200
                 [q "{'response':'Hel','done':false}" ++ LF
                    :: q "{'response':'lo','done':true}"])
              (post (q "{'prompt':'Hi'}")) (Some (JString (str "Hi")))
              {| status := 200; statusText := []; headers_in := [];
                 body :=
                   Some {| chunks :=
                             [q "{'response':'Hel','done':false}" ++ LF
                                :: q "{'response':'lo','done':true}"];
                           ending := Closed |} |}
              {| chunks := [q "{'response':'Hel','done':false}" ++ LF
                              :: q "{'response':'lo','done':true}"];
                 ending := Closed |}
              []
              (q "{'response':'Hel','done':false}" ++ LF
                 :: q "{'response':'lo','done':true}")
              (q "{'response':'Hel','done':false}" ++ [LF])
              (q "{'response':'lo','done':true}")
              {| record_response := str "lo"; record_done := true |}
              eq_refl eq_refl eq_refl eq_refl _ eq_refl eq_refl eq_refl
              eq_refl
              (or_intror
                 (ex_intro _ (q "{'response':'Hel','done':false}") eq_refl))
              Hno eq_refl Hcarries).
    split; discriminate.
Defined.

(** The server answers 503 with a body of plain text, and with a body
    whose read fails. *)
Lemma X16_service_unavailable :
  handleSubmit (answering 503 [str "overloaded"])
               (setPrompt (str "Hi") mounted)
  = ({| prompt := str "Hi";
        response := Some (JString (str ""));
        isLoading := false;
        error := Some (str "HTTP error! status: 503, message: overloaded") |},
     [PreventDefault;
      FetchCall backendUrl (request_init (str "Hi"));
      LogError (str "Error:")
        (ErrorObject (str "HTTP error! status: 503, message: overloaded"))])
  /\ handleSubmit
       (answering_with 503
          (Some {| chunks := [str "over"];
                   ending := Errored (ErrorObject (str "connection reset")) |}))
       (setPrompt (str "Hi") mounted)
     = ({| prompt := str "Hi";
           response := Some (JString (str ""));
           isLoading := false;
           error := Some (str "connection reset") |},
        [PreventDefault;
         FetchCall backendUrl (request_init (str "Hi"));
         LogError (str "Error:") (ErrorObject (str "connection reset"))]).
Proof.
  split.
  - exact (X16_form_shows_http_error (answering 503 [str "overloaded"])
             (setPrompt (str "Hi") mounted)
             {| status := 503; statusText := []; headers_in := [];
                body := Some {| chunks := [str "overloaded"];
                                ending := Closed |} |}
             eq_refl (or_intror (eq_refl : (299 ?= 503) = Lt))).
  - exact (X16_form_shows_http_error
             (answering_with 503
                (Some {| chunks := [str "over"];
                         ending :=
                           Errored (ErrorObject (str "connection reset")) |}))
             (setPrompt (str "Hi") mounted)
             {| status := 503; statusText := []; headers_in := [];
                body :=
                  Some {| chunks := [str "over"];
                          ending :=
                            Errored (ErrorObject (str "connection reset")) |}
             |}
             eq_refl (or_intror (eq_refl : (299 ?= 503) = Lt))).
Defined.

(** The server answers with a response that is no string. *)
Lemma X18_response_that_is_a_boolean :
  fst (handleSubmit (answering 200 [q "{'response':true,'done':true}"])
                    (setPrompt (str "Hi") mounted))
  = {| prompt := str "Hi";
       response := lookup (str "response")
                     [(str "response", JBool true); (str "done", JBool true)];
       isLoading := false;
       error := None |}.
Proof.
  apply (X18_form_takes_response_property
           (answering 200 [q "{'response':true,'done':true}"])
           (setPrompt (str "Hi") mounted)
           {| status := 200; statusText := []; headers_in := [];
              body := Some {| chunks := [q "{'response':true,'done':true}"];
                              ending := Closed |} |}
           (q "{'response':true,'done':true}")
           [(str "response", JBool true); (str "done", JBool true)]);
    try reflexivity.
  split; discriminate.
Defined.

(** The user types [Hi]; the model server streams [Hel] and [lo]. *)
Lemma X19_hi_answered_hello :
  fst (handleSubmit
         (served_by_handler
            (answering 200 [q "{'response':'Hel','done':false}" ++ [LF];
                            q "{'response':'lo','done':true}" ++ [LF]]))
         (setPrompt (str "Hi") mounted))
  = {| prompt := str "Hi";
       response :=
         Some (JString
                 (aggregate [q "{'response':'Hel','done':false}" ++ [LF];
                             q "{'response':'lo','done':true}" ++ [LF]]));
       isLoading := false;
       error := None |}.
Proof.
  apply (X19_form_shows_aggregated_text
           (answering 200 [q "{'response':'Hel','done':false}" ++ [LF];
                           q "{'response':'lo','done':true}" ++ [LF]])
           (setPrompt (str "Hi") mounted)
           {| status := 200; statusText := []; headers_in := [];
              body :=
                Some {| chunks :=
                          [q "{'response':'Hel','done':false}" ++ [LF];
                           q "{'response':'lo','done':true}" ++ [LF]];
                        ending := Closed |} |}
           {| chunks := [q "{'response':'Hel','done':false}" ++ [LF];
                         q "{'response':'lo','done':true}" ++ [LF]];
              ending := Closed |});
    try reflexivity.
  - apply (code_units_str "Hi").
  - discriminate.
  - split; discriminate.
  - apply (code_units_str "Hello").
Defined.

(** The form is submitted as it was mounted. *)
Lemma X20_nothing_typed :
  fst (handleSubmit (served_by_handler (answering 200 [])) mounted)
  = {| prompt := [];
       response := Some (JString (str ""));
       isLoading := false;
       error :=
         Some (str "HTTP error! status: 500, message: "
               ++ JSON_stringify
                    (JObject [(str "error",
                               JString (str "Prompt is required"))])) |}
  /\ forall url init,
       ~ In (Fetch url init)
            (effects (answering 200 [])
               (wire_request backendUrl (request_init (prompt mounted)))).
Proof.
  apply (X20_empty_form_submitted (answering 200 []) mounted).
  reflexivity.
Defined.

(** The model server is overloaded: its body is read, and its body cannot
    be read. *)
Lemma X21_overloaded_model :
  fst (handleSubmit (served_by_handler (answering 503 [str "overloaded"]))
                    (setPrompt (str "Hi") mounted))
  = {| prompt := str "Hi";
       response := Some (JString (str ""));
       isLoading := false;
       error :=
         Some (str "HTTP error! status: 500, message: "
               ++ q "{'error':'Ollama API error: 503, overloaded'}") |}
  /\ fst (handleSubmit
            (served_by_handler
               (answering_with 503
                  (Some {| chunks := [str "over"];
                           ending :=
                             Errored (ErrorObject (str "connection reset"))
                        |})))
            (setPrompt (str "Hi") mounted))
     = {| prompt := str "Hi";
          response := Some (JString (str ""));
          isLoading := false;
          error :=
            Some (str "HTTP error! status: 500, message: "
                  ++ q "{'error':'connection reset'}") |}.
Proof.
  assert (Hne : str "Hi" <> []) by discriminate.
  split.
  - exact (X21_model_error_reaches_form (answering 503 [str "overloaded"])
             (setPrompt (str "Hi") mounted)
             {| status := 503; statusText := []; headers_in := [];
                body := Some {| chunks := [str "overloaded"];
                                ending := Closed |} |}
             (code_units_str "Hi") Hne eq_refl
             (or_intror (eq_refl : (299 ?= 503) = Lt))
             (code_units_str "Ollama API error: 503, overloaded")).
  - exact (X21_model_error_reaches_form
             (answering_with 503
                (Some {| chunks := [str "over"];
                         ending :=
                           Errored (ErrorObject (str "connection reset")) |}))
             (setPrompt (str "Hi") mounted)
             {| status := 503; statusText := []; headers_in := [];
                body :=
                  Some {| chunks := [str "over"];
                          ending :=
                            Errored (ErrorObject (str "connection reset")) |}
             |}
             (code_units_str "Hi") Hne eq_refl
             (or_intror (eq_refl : (299 ?= 503) = Lt))
             (code_units_str "connection reset")).
Defined.

(** The user types [Hi]. *)
Lemma X22_hi_reaches_model :
  exists init after,
    effects (answering 200 [])
            (wire_request backendUrl (request_init (str "Hi")))
    = ReqJson :: Fetch ollamaUrl init :: after
    /\ (forall url init', ~ In (Fetch url init') after)
    /\ init_method init = str "POST"
    /\ JSON_parse (init_body init)
       = Some (JObject [(str "model", JString (str "neural-chat"));
                        (str "prompt", JString (str "Hi"))]).
Proof.
  apply (X22_typed_prompt_reaches_model (answering 200 [])
           (setPrompt (str "Hi") mounted)).
  - apply (code_units_str "Hi").
  - discriminate.
Defined.

End MoreInstances.
